(** * Signature position store

    A shallow embedding of the signature-position code of
    [server/config/signaturePositions.ts] and of the position handlers of
    [server/routes/adminFormManagement.ts]:

    - the in-memory catalogue [signaturePositions] with
      [getSignaturePosition] and [updateSignaturePosition];
    - the regular expressions the handlers build, with a small backtracking
      matcher for them;
    - the text reader shared by [getFreshSignaturePosition] and
      [handleVerifySignaturePosition];
    - the writer [updateSignaturePositionInSourceCode];
    - the handlers [handleGetSignaturePosition] and
      [handleSavePDFSignaturePosition], over an explicit store (file,
      catalogue object, console). *)

From Stdlib Require Import ZArith List Ascii String Bool Lia DecimalString.
From stdpp Require Import gmap strings.
Import ListNotations.

(** ** Text *)

(** A JavaScript string is kept as the list of its code units; the
    embedding covers the code units below 256. *)
Definition text := list ascii.

Definition dquote : ascii := "034"%char.
Definition newline : ascii := "010"%char.
Definition backslash : ascii := "092"%char.

(** Literals are written with an apostrophe where the source has a double
    quote: [lit] puts the double quotes back. *)
Definition lit (s : string) : text :=
  map (fun c => if Ascii.eqb c "'"%char then dquote else c)
      (list_ascii_of_string s).

Definition text_of (s : string) : text := list_ascii_of_string s.

Fixpoint unlines (ls : list text) : text :=
  match ls with
  | [] => []
  | [l] => l
  | l :: rest => l ++ newline :: unlines rest
  end.

(** [s.startsWith(p)] *)
Fixpoint startsWith (s p : text) : bool :=
  match p, s with
  | [], _ => true
  | c :: p', d :: s' => Ascii.eqb c d && startsWith s' p'
  | _ :: _, [] => false
  end.

(** [s.includes(p)] *)
Fixpoint includes (s p : text) : bool :=
  startsWith s p ||
  match s with
  | [] => false
  | _ :: s' => includes s' p
  end.

(** [s.lastIndexOf(p)]; [None] stands for [-1]. *)
Fixpoint lastIndexOf (s p : text) : option nat :=
  match s with
  | [] => if startsWith [] p then Some 0 else None
  | _ :: s' =>
      match lastIndexOf s' p with
      | Some i => Some (S i)
      | None => if startsWith s p then Some 0 else None
      end
  end.

(** White space of [String.prototype.trim] and of the pattern [\s], among
    the code units below 256: TAB, LF, VT, FF, CR, SP and NBSP. *)
Definition is_space (c : ascii) : bool :=
  let n := nat_of_ascii c in
  ((9 <=? n) && (n <=? 13)) || (n =? 32) || (n =? 160).

Fixpoint trimStart (s : text) : text :=
  match s with
  | c :: s' => if is_space c then trimStart s' else s
  | [] => []
  end.

Definition trimEnd (s : text) : text := rev (trimStart (rev s)).

(** [s.trim()] *)
Definition trim (s : text) : text := trimEnd (trimStart s).

(** [s.endsWith(p)] *)
Definition endsWith (s p : text) : bool := startsWith (rev s) (rev p).

(** ** Numbers *)

(** A JavaScript number is [NaN] or a finite decimal [m / 10^e], kept
    exactly: the rounding to binary64 and the infinities are not part of
    the embedding. *)
Inductive number :=
| NaN
| Fin (m : Z) (e : nat).

Definition pow10 (e : nat) : Z := (10 ^ Z.of_nat e)%Z.

(** [a === b] on numbers. *)
Definition strict_eq (a b : number) : bool :=
  match a, b with
  | Fin m1 e1, Fin m2 e2 => (m1 * pow10 e2 =? m2 * pow10 e1)%Z
  | _, _ => false
  end.

(** ToBoolean on numbers: zero and [NaN] are falsy. *)
Definition truthy_number (a : number) : bool :=
  match a with
  | NaN => false
  | Fin m _ => negb (m =? 0)%Z
  end.

(** Trailing zeros of the fraction are dropped. *)
Fixpoint normalize (m : Z) (e : nat) : number :=
  match e with
  | O => Fin m 0
  | S e' => if (m mod 10 =? 0)%Z then normalize (m / 10) e' else Fin m e
  end.

Definition digits_of (n : N) : text :=
  list_ascii_of_string (NilZero.string_of_uint (N.to_uint n)).

Fixpoint dropTrailingZeros_rev (r : text) : text :=
  match r with
  | c :: r' => if Ascii.eqb c "0"%char then dropTrailingZeros_rev r' else r
  | [] => []
  end.

(** The [e] fraction digits of [f < 10^e], without the trailing zeros. *)
Definition fraction_digits (f : N) (e : nat) : text :=
  let d := digits_of f in
  let padded := repeat "0"%char (e - length d) ++ d in
  rev (dropTrailingZeros_rev (rev padded)).

(** Number::toString in plain decimal notation (the exponent notation that
    JavaScript switches to below 1e-6 and from 1e21 on is not modelled). *)
Definition toString (a : number) : text :=
  match a with
  | NaN => text_of "NaN"
  | Fin m e =>
      let n := Z.abs_N m in
      let p := Z.to_N (pow10 e) in
      let ip := digits_of (n / p) in
      let fp := fraction_digits (n mod p) e in
      (if (m <? 0)%Z then ["-"%char] else []) ++ ip ++
      (match fp with [] => [] | _ => "."%char :: fp end)
  end.

Definition digit_value (radix : N) (c : ascii) : option N :=
  let n := N_of_ascii c in
  let v :=
    if ((48 <=? n) && (n <=? 57))%N then Some (n - 48)%N
    else if ((97 <=? n) && (n <=? 122))%N then Some (n - 87)%N
    else if ((65 <=? n) && (n <=? 90))%N then Some (n - 55)%N
    else None in
  match v with
  | Some d => if (d <? radix)%N then Some d else None
  | None => None
  end.

(** The longest prefix of digits in the radix: its value, how many digits
    it has, and what follows it. *)
Fixpoint take_digits (radix : N) (s : text) (acc : N) (count : nat)
  : N * nat * text :=
  match s with
  | c :: s' =>
      match digit_value radix c with
      | Some d => take_digits radix s' (acc * radix + d)%N (S count)
      | None => (acc, count, s)
      end
  | [] => (acc, count, [])
  end.

Definition take_sign (s : text) : bool * text :=
  match s with
  | c :: s' =>
      if Ascii.eqb c "-"%char then (true, s')
      else if Ascii.eqb c "+"%char then (false, s')
      else (false, s)
  | [] => (false, [])
  end.

Definition signed (neg : bool) (n : N) : Z :=
  if neg then (- Z.of_N n)%Z else Z.of_N n.

(** [parseInt(s)] with no radix argument. *)
Definition parseInt (s : text) : number :=
  let '(neg, s1) := take_sign (trimStart s) in
  let '(radix, s2) :=
    match s1 with
    | z :: x :: rest =>
        if Ascii.eqb z "0"%char &&
           (Ascii.eqb x "x"%char || Ascii.eqb x "X"%char)
        then (16%N, rest) else (10%N, s1)
    | _ => (10%N, s1)
    end in
  let '(v, count, _) := take_digits radix s2 0%N 0 in
  match count with
  | O => NaN
  | S _ => Fin (signed neg v) 0
  end.

(** The exponent part of a decimal literal, when it is complete. *)
Definition take_exponent (s : text) : Z :=
  match s with
  | c :: s' =>
      if Ascii.eqb c "e"%char || Ascii.eqb c "E"%char then
        let '(neg, s1) := take_sign s' in
        let '(v, count, _) := take_digits 10 s1 0%N 0 in
        match count with
        | O => 0%Z
        | S _ => signed neg v
        end
      else 0%Z
  | [] => 0%Z
  end.

Definition scale (m : Z) (shift : Z) : number :=
  if (0 <=? shift)%Z then Fin (m * 10 ^ shift)%Z 0
  else normalize m (Z.to_nat (- shift)).

(** [parseFloat(s)]: the longest prefix that is a decimal literal (the
    literal [Infinity] is not modelled). *)
Definition parseFloat (s : text) : number :=
  let '(neg, s1) := take_sign (trimStart s) in
  let '(ip, icount, s2) := take_digits 10 s1 0%N 0 in
  match s2 with
  | c :: s3 =>
      if Ascii.eqb c "."%char then
        let '(all, fcount, s4) := take_digits 10 s3 ip 0 in
        match icount, fcount with
        | O, O => NaN
        | _, _ => scale (signed neg all) (take_exponent s4 - Z.of_nat fcount)
        end
      else
        match icount with
        | O => NaN
        | S _ => scale (signed neg ip) (take_exponent s2)
        end
  | [] =>
      match icount with
      | O => NaN
      | S _ => Fin (signed neg ip) 0
      end
  end.

(** ** Regular expressions *)

(** The patterns of the handlers are sequences of single characters,
    character sets under [*] or [+], and one capture group. *)
Inductive cset :=
| CChar (c : ascii)          (* the character itself *)
| CDot (dotAll : bool)       (* [.], which the flag s lets match line ends *)
| CSpace                     (* [\s] *)
| CNot (c : ascii)           (* [[^c]] *)
| CAny (cs : list ascii).    (* [[...]] *)

Inductive atom :=
| One (p : cset)
| Star (p : cset)
| Plus (p : cset)
| Open
| Close.

Definition regex := list atom.

Definition is_line_end (c : ascii) : bool :=
  Ascii.eqb c newline || Ascii.eqb c "013"%char.

Definition cset_mem (p : cset) (c : ascii) : bool :=
  match p with
  | CChar d => Ascii.eqb d c
  | CDot dotAll => dotAll || negb (is_line_end c)
  | CSpace => is_space c
  | CNot d => negb (Ascii.eqb d c)
  | CAny cs => existsb (Ascii.eqb c) cs
  end.

(** The state of capture group 1 while a match is built. *)
Inductive group :=
| GNone
| GOpen (acc : text)         (* reversed *)
| GDone (captured : text).

Definition gpush (c : ascii) (g : group) : group :=
  match g with
  | GOpen acc => GOpen (c :: acc)
  | _ => g
  end.

Definition gclose (g : group) : group :=
  match g with
  | GOpen acc => GDone (rev acc)
  | _ => g
  end.

(** A match: the matched text, group 1, and the text after the match. *)
Record found := { whole : text; group1 : group; after : text }.

(** Greedy repetition of a set, backing off one character at a time until
    the rest of the pattern [k] matches. *)
Fixpoint repeat_set (k : text -> text -> group -> option found) (p : cset)
    (s : text) (w : text) (g : group) : option found :=
  match s with
  | c :: s' =>
      if cset_mem p c then
        match repeat_set k p s' (c :: w) (gpush c g) with
        | Some r => Some r
        | None => k s w g
        end
      else k s w g
  | [] => k [] w g
  end.

(** Match the pattern at the start of [s]; [w] is what has been matched so
    far, reversed. *)
Fixpoint run (re : regex) (s : text) (w : text) (g : group) : option found :=
  match re with
  | [] => Some {| whole := rev w; group1 := g; after := s |}
  | One p :: re' =>
      match s with
      | c :: s' => if cset_mem p c then run re' s' (c :: w) (gpush c g) else None
      | [] => None
      end
  | Star p :: re' => repeat_set (run re') p s w g
  | Plus p :: re' =>
      match s with
      | c :: s' =>
          if cset_mem p c then repeat_set (run re') p s' (c :: w) (gpush c g)
          else None
      | [] => None
      end
  | Open :: re' => run re' s w (GOpen [])
  | Close :: re' => run re' s w (gclose g)
  end.

Definition exec_at (re : regex) (s : text) : option found := run re s [] GNone.

(** [s.match(re)]: the leftmost match. With the flag g the first element of
    the result is the [whole] of the same match. *)
Fixpoint search (re : regex) (s : text) : option found :=
  match exec_at re s with
  | Some r => Some r
  | None =>
      match s with
      | [] => None
      | _ :: s' => search re s'
      end
  end.

(** [m[1]] *)
Definition capture (m : found) : text :=
  match group1 m with
  | GDone t => t
  | _ => []
  end.

(** [s.replace(re, replacement)] for a pattern with the flag g and a
    replacement without [$]: every match is replaced, left to right, the
    search resuming where the previous match ended. *)
Fixpoint replace_fuel (fuel : nat) (re : regex) (replacement s : text) : text :=
  match fuel with
  | O => s
  | S fuel' =>
      let step :=
        match s with
        | [] => []
        | c :: s' => c :: replace_fuel fuel' re replacement s'
        end in
      match exec_at re s with
      | Some r =>
          match whole r with
          | [] => replacement ++ step
          | _ :: _ => replacement ++ replace_fuel fuel' re replacement (after r)
          end
      | None => step
      end
  end.

Definition replace (re : regex) (replacement s : text) : text :=
  replace_fuel (S (length s)) re replacement s.

Definition chars (s : text) : regex := map (fun c => One (CChar c)) s.

(** The characters that are syntax in a pattern. A key is spliced into the
    block pattern as it is: the embedding follows the splice for keys whose
    only such character is the dot. *)
Definition is_pattern_syntax (c : ascii) : bool :=
  existsb (Ascii.eqb c) (text_of "\^$*+?()[]{}|").

Definition plain_key (formType : string) : bool :=
  forallb (fun c => negb (is_pattern_syntax c)) (text_of formType).

Definition key_pattern (dotAll : bool) (formType : string) : regex :=
  map (fun c => if Ascii.eqb c "."%char then One (CDot dotAll) else One (CChar c))
      (text_of formType).

(** [new RegExp(`"${formType}":\\s*{[^}]*}`, flags)] *)
Definition block_pattern (dotAll : bool) (formType : string) : regex :=
  One (CChar dquote) :: key_pattern dotAll formType ++
  [One (CChar dquote); One (CChar ":"%char); Star CSpace;
   One (CChar "{"%char); Star (CNot "}"%char); One (CChar "}"%char)].

(** The field patterns are regular expression literals, where two
    backslashes stand for the backslash character itself:
    [/x:\\s*(\\d+)/] is [x:], a backslash, any number of [s], and the group
    of a backslash and one or more [d]. *)
Definition x_pattern : regex :=
  chars (text_of "x:") ++
  [One (CChar backslash); Star (CChar "s"%char);
   Open; One (CChar backslash); Plus (CChar "d"%char); Close].

Definition y_pattern : regex :=
  chars (text_of "y:") ++
  [One (CChar backslash); Star (CChar "s"%char);
   Open; One (CChar backslash); Plus (CChar "d"%char); Close].

Definition width_pattern : regex :=
  chars (text_of "width:") ++
  [One (CChar backslash); Star (CChar "s"%char);
   Open; One (CChar backslash); Plus (CChar "d"%char); Close].

Definition height_pattern : regex :=
  chars (text_of "height:") ++
  [One (CChar backslash); Star (CChar "s"%char);
   Open; One (CChar backslash); Plus (CChar "d"%char); Close].

(** [/opacity:\\s*([\\d.]+)/]: the set holds the backslash, [d] and the dot. *)
Definition opacity_pattern : regex :=
  chars (text_of "opacity:") ++
  [One (CChar backslash); Star (CChar "s"%char);
   Open; Plus (CAny [backslash; "d"%char; "."%char]); Close].

(** ** The catalogue ([signaturePositions.ts]) *)

Record SignaturePosition := {
  x : number;
  y : number;
  width : number;
  height : number;
  opacity : option number        (* [opacity?: number] *)
}.

Definition default_opacity : number := Fin 7 1.   (* 0.7 *)

(** What a property read on the catalogue object can give. *)
Inductive value :=
| Undefined
| Inherited (member : string)    (* a member of [Object.prototype] *)
| Position (p : SignaturePosition).

Definition object_prototype_members : list string :=
  ["constructor"; "toString"; "toLocaleString"; "valueOf"; "hasOwnProperty";
   "isPrototypeOf"; "propertyIsEnumerable"; "__proto__"; "__defineGetter__";
   "__defineSetter__"; "__lookupGetter__"; "__lookupSetter__"]%string.

(** [signaturePositions[formType]]: an own entry, or else what the object
    inherits. *)
Definition get_property (signaturePositions : gmap string SignaturePosition)
    (formType : string) : value :=
  match signaturePositions !! formType with
  | Some p => Position p
  | None =>
      if existsb (String.eqb formType) object_prototype_members
      then Inherited formType else Undefined
  end.

Definition truthy (v : value) : bool :=
  match v with
  | Undefined => false
  | _ => true
  end.

Definition getSignaturePosition (signaturePositions : gmap string SignaturePosition)
    (formType : string) : value :=
  let v := get_property signaturePositions formType in
  if truthy v then v else get_property signaturePositions "default".

(** [position.opacity || 0.7] *)
Definition opacity_or_default (o : option number) : number :=
  match o with
  | Some a => if truthy_number a then a else default_opacity
  | None => default_opacity
  end.

Definition updateSignaturePosition
    (signaturePositions : gmap string SignaturePosition)
    (formType : string) (position : SignaturePosition)
  : gmap string SignaturePosition :=
  <[formType := {| x := x position; y := y position;
                   width := width position; height := height position;
                   opacity := Some (opacity_or_default (opacity position)) |}]>
    signaturePositions.

(** ** The reader *)

(** The block of [getFreshSignaturePosition] that
    [handleVerifySignaturePosition] repeats: find the block of the key in
    the file content and take the fields out of it. *)
Definition extractPosition (fileContent : text) (formType : string)
  : option SignaturePosition :=
  match search (block_pattern false formType) fileContent with
  | Some formMatch =>
      let positionText := whole formMatch in
      let opacityMatch := search opacity_pattern positionText in
      match search x_pattern positionText, search y_pattern positionText,
            search width_pattern positionText, search height_pattern positionText
      with
      | Some xMatch, Some yMatch, Some widthMatch, Some heightMatch =>
          Some {| x := parseInt (capture xMatch);
                  y := parseInt (capture yMatch);
                  width := parseInt (capture widthMatch);
                  height := parseInt (capture heightMatch);
                  opacity := Some (match opacityMatch with
                                   | Some m => parseFloat (capture m)
                                   | None => default_opacity
                                   end) |}
      | _, _, _, _ => None
      end
  | None => None
  end.

(** ** The store and its effects *)

Inductive warning :=
| FormTypeNotSupported
| BlockNotFoundAfterUpdate
| VerificationMismatch.

Inductive event :=
| ReadFile (ok : bool)
| WriteFile (ok : bool)
| Warn (w : warning)
| Error.

(** The configuration file ([None] when it cannot be read), whether it can
    be written, the catalogue object of the loaded module, and what has
    happened so far, latest first. *)
Record store := {
  file : option text;
  writable : bool;
  signaturePositions : gmap string SignaturePosition;
  trace : list event
}.

Inductive exn := IOError | TypeError.

Inductive outcome (A : Type) :=
| Return (a : A)
| Throw (e : exn).
Arguments Return {A} a.
Arguments Throw {A} e.

Definition M (A : Type) : Type := store -> outcome A * store.

Definition ret {A} (a : A) : M A := fun st => (Return a, st).

Definition bind {A B} (m : M A) (f : A -> M B) : M B :=
  fun st =>
    match m st with
    | (Return a, st') => f a st'
    | (Throw e, st') => (Throw e, st')
    end.

Definition throw {A} (e : exn) : M A := fun st => (Throw e, st).

(** [try { m } catch (error) { h }] *)
Definition try_catch {A} (m : M A) (h : exn -> M A) : M A :=
  fun st =>
    match m st with
    | (Return a, st') => (Return a, st')
    | (Throw e, st') => h e st'
    end.

Declare Scope store_scope.
Delimit Scope store_scope with store.
Notation "v <- m ;; k" := (bind m (fun v => k))
  (at level 100, m at next level, right associativity) : store_scope.
Notation "m ;;; k" := (bind m (fun _ => k))
  (at level 100, right associativity) : store_scope.
Local Open Scope store_scope.

Definition logged (e : event) (st : store) : store :=
  {| file := file st; writable := writable st;
     signaturePositions := signaturePositions st; trace := e :: trace st |}.

Definition emit (e : event) : M unit := fun st => (Return tt, logged e st).

Definition readFile : M text :=
  fun st =>
    match file st with
    | Some content => (Return content, logged (ReadFile true) st)
    | None => (Throw IOError, logged (ReadFile false) st)
    end.

Definition writeFile (content : text) : M unit :=
  fun st =>
    if writable st then
      (Return tt, {| file := Some content; writable := true;
                     signaturePositions := signaturePositions st;
                     trace := WriteFile true :: trace st |})
    else (Throw IOError, logged (WriteFile false) st).

(** The catalogue object of the module that [import()] resolves to. *)
Definition imported : M (gmap string SignaturePosition) :=
  fun st => (Return (signaturePositions st), st).

Definition assign_catalogue (m : gmap string SignaturePosition) : M unit :=
  fun st => (Return tt, {| file := file st; writable := writable st;
                           signaturePositions := m; trace := trace st |}).

(** ** The fresh reader *)

(** [getSignaturePosition(formType)] on the imported module. *)
Definition fallbackPosition (formType : string) : M value :=
  catalogue <- imported ;;
  ret (getSignaturePosition catalogue formType).

Definition getFreshSignaturePosition (formType : string) : M value :=
  try_catch
    (fileContent <- readFile ;;
     match extractPosition fileContent formType with
     | Some position => ret (Position position)
     | None => fallbackPosition formType
     end)
    (fun _ => emit Error ;;; fallbackPosition formType).

(** ** The writer *)

Definition supportedFormTypes : list string :=
  ["absa-form"; "clearance-certificate-form"; "sahl-certificate-form";
   "discovery-form"; "liability-form"; "noncompliance-form";
   "material-list-form"; "default"]%string.

Definition quoted (formType : string) : text :=
  dquote :: text_of formType ++ [dquote].

(** The template literal [newPositionString]. *)
Definition newPositionString (formType : string) (position : SignaturePosition)
  : text :=
  unlines
    [ quoted formType ++ text_of ": {";
      text_of "    x: " ++ toString (x position) ++ text_of ",";
      text_of "    y: " ++ toString (y position) ++ text_of ",";
      text_of "    width: " ++ toString (width position) ++ text_of ",";
      text_of "    height: " ++ toString (height position) ++ text_of ",";
      text_of "    opacity: " ++
        toString (opacity_or_default (opacity position));
      text_of "  }" ].

(** The new file content: the blocks of the key replaced, or a block put in
    before the last [};]. *)
Definition updatedFileContent (fileContent : text) (formType : string)
    (position : SignaturePosition) : text :=
  let formPositionRegex := block_pattern true formType in
  let newPositionString := newPositionString formType position in
  if includes fileContent (quoted formType) then
    replace formPositionRegex newPositionString fileContent
  else
    match lastIndexOf fileContent (text_of "};") with
    | Some insertPoint =>
        let beforeClosing := firstn insertPoint fileContent in
        let afterClosing := skipn insertPoint fileContent in
        let needsComma :=
          negb (endsWith (trim beforeClosing) (text_of "{")) &&
          negb (endsWith (trim beforeClosing) (text_of ",")) in
        beforeClosing ++ (if needsComma then text_of "," else []) ++
        newline :: text_of "  " ++ newPositionString ++
        newline :: afterClosing
    | None => fileContent
    end.

Definition updateSignaturePositionInSourceCode (formType : string)
    (position : SignaturePosition) : M unit :=
  try_catch
    (fileContent <- readFile ;;
     (if existsb (String.eqb formType) supportedFormTypes then ret tt
      else emit (Warn FormTypeNotSupported)) ;;;
     writeFile (updatedFileContent fileContent formType position) ;;;
     updatedContent <- readFile ;;
     if includes updatedContent (quoted formType ++ text_of ": {") then ret tt
     else emit (Warn BlockNotFoundAfterUpdate))
    (fun error => emit Error ;;; throw error).

(** ** The handlers *)

Inductive json :=
| JString (s : string)
| JValue (v : value)
| JNull
| JBool (b : bool)
| JTime.                     (* [new Date().toISOString()], left open *)

(** The status and the object given to [res.json]. *)
Record response := {
  status : nat;
  body : list (string * json)
}.

Definition failure (code : nat) (message : string) : response :=
  {| status := code; body := [("error"%string, JString message)] |}.

(** [!s] on a string that may be undefined. *)
Definition is_falsy (s : option string) : bool :=
  match s with
  | Some s' => String.eqb s' ""
  | None => true
  end.

(** The alias table of [handleSavePDFSignaturePosition] (own entries). *)
Definition pdfToFormMap : list (string * string) :=
  [("ABSACertificate.pdf", "absa-form");
   ("BBPClearanceCertificate.pdf", "clearance-certificate-form");
   ("sahlld.pdf", "sahl-certificate-form");
   ("desco.pdf", "discovery-form");
   ("liabWave.pdf", "liability-form");
   ("Noncompliance.pdf", "noncompliance-form");
   ("ML.pdf", "material-list-form");
   ("form-absa-certificate", "absa-form");
   ("form-clearance-certificate", "clearance-certificate-form");
   ("form-sahl-certificate", "sahl-certificate-form");
   ("form-discovery-geyser", "discovery-form");
   ("form-liability-certificate", "liability-form")]%string.

Fixpoint lookup_alias (table : list (string * string)) (k : string)
  : option string :=
  match table with
  | (k', v) :: rest => if String.eqb k k' then Some v else lookup_alias rest k
  | [] => None
  end.

(** The property name that an index expression makes of a string that may
    be undefined. *)
Definition property_name (s : option string) : string :=
  match s with
  | Some s' => s'
  | None => "undefined"
  end.

(** [a || b] on strings that may be undefined. *)
Definition or_else (a b : option string) : option string :=
  if is_falsy a then b else a.

(** [handleGetSignaturePosition] *)
Definition handleGetSignaturePosition (formId : option string) : M response :=
  try_catch
    (if is_falsy formId then ret (failure 400 "Form ID is required")
     else
       let formId := property_name formId in
       position <- getFreshSignaturePosition formId ;;
       ret {| status := 200;
              body := [("formId", JString formId);
                       ("position", JValue position);
                       ("message", JString "Current signature position retrieved successfully (fresh read)")]%string |})
    (fun _ => emit Error ;;; ret (failure 500 "Failed to get signature position")).

(** The body of a save request. *)
Record SaveRequest := {
  pdfName : option string;
  position : option SignaturePosition;
  formType : option string
}.

(** [v.x] and [v.y] where [v] is what a fresh read gave: a [TypeError] on
    undefined, and undefined ([None]) on an inherited member. *)
Definition property_of (field : SignaturePosition -> number) (v : value)
  : M (option number) :=
  match v with
  | Undefined => throw TypeError
  | Inherited _ => ret None
  | Position p => ret (Some (field p))
  end.

(** [a !== b] where [a] may be undefined. *)
Definition strict_ne (a : option number) (b : number) : bool :=
  match a with
  | Some a' => negb (strict_eq a' b)
  | None => true
  end.

(** [delete require.cache[...]]: the two deletions act on the table of the
    CommonJS loader, which is outside the store; the catalogue object that
    [import()] has resolved stays the one later calls are given. *)
Definition clearModuleCache : M unit := ret tt.

(** The form type that a save request is filed under: the one given, or
    else the alias of the PDF name, or else of the form type, or else
    [default]. *)
Definition actualFormType (pdfName : string) (formType : option string)
  : string :=
  if is_falsy formType then
    property_name
      (or_else (lookup_alias pdfToFormMap pdfName)
         (or_else (lookup_alias pdfToFormMap (property_name formType))
            (Some "default"%string)))
  else property_name formType.

(** The record that a save request stores: the rectangle of the request
    with the opacity 0.7. *)
Definition newPosition (position : SignaturePosition) : SignaturePosition :=
  {| x := x position; y := y position;
     width := width position; height := height position;
     opacity := Some default_opacity |}.

(** The test of the verification step. *)
Definition verification_mismatch (vx vy : option number)
    (newPosition : SignaturePosition) : bool :=
  strict_ne vx (x newPosition) || strict_ne vy (y newPosition).

(** [handleSavePDFSignaturePosition] *)
Definition handleSavePDFSignaturePosition (req : SaveRequest) : M response :=
  try_catch
    (match position req with
     | Some position =>
         if is_falsy (pdfName req) then
           ret (failure 400 "PDF name and position are required")
         else
           let pdfName := property_name (pdfName req) in
           let actualFormType := actualFormType pdfName (formType req) in
           oldPosition <- getFreshSignaturePosition actualFormType ;;
           let newPosition := newPosition position in
           catalogue <- imported ;;
           assign_catalogue
             (updateSignaturePosition catalogue actualFormType newPosition) ;;;
           updateSignaturePositionInSourceCode actualFormType newPosition ;;;
           clearModuleCache ;;;
           property_of x oldPosition ;;;
           property_of y oldPosition ;;;
           verificationPosition <- getFreshSignaturePosition actualFormType ;;
           vx <- property_of x verificationPosition ;;
           vy <- property_of y verificationPosition ;;
           (if verification_mismatch vx vy newPosition
            then emit (Warn VerificationMismatch) else ret tt) ;;;
           ret {| status := 200;
                  body := [("message", JString "Signature position saved successfully to source code");
                           ("formType", JString actualFormType);
                           ("pdfName", JString pdfName);
                           ("position", JValue (Position newPosition));
                           ("previousPosition", JValue oldPosition)]%string |}
     | None => ret (failure 400 "PDF name and position are required")
     end)
    (fun _ => emit Error ;;; ret (failure 500 "Failed to save signature position")).

(** [position && freshPosition && position.x === freshPosition.x &&
    position.y === freshPosition.y] *)
Definition positions_match (position : option SignaturePosition)
    (freshPosition : value) : json :=
  match position with
  | None => JNull
  | Some p =>
      match freshPosition with
      | Undefined => JValue Undefined
      | Inherited _ => JBool false
      | Position q => JBool (strict_eq (x p) (x q) && strict_eq (y p) (y q))
      end
  end.

(** [handleVerifySignaturePosition] *)
Definition handleVerifySignaturePosition (formType : option string)
  : M response :=
  try_catch
    (if is_falsy formType then ret (failure 400 "Form type is required")
     else
       let formType := property_name formType in
       fileContent <- readFile ;;
       let position := extractPosition fileContent formType in
       freshPosition <- getFreshSignaturePosition formType ;;
       ret {| status := 200;
              body := [("formType", JString formType);
                       ("directFileRead",
                        match position with
                        | Some p => JValue (Position p)
                        | None => JNull
                        end);
                       ("freshFunctionRead", JValue freshPosition);
                       ("match", positions_match position freshPosition);
                       ("timestamp", JTime)]%string |})
    (fun _ => emit Error ;;; ret (failure 500 "Failed to verify signature position")).

(** ** The configuration file of the repository *)

(** [server/config/signaturePositions.ts], line by line (the file ends with
    a line end). *)
Definition config_source : text :=
  unlines
    [
     lit "// PDF signature positions configuration";
     lit "// This file is automatically updated when admins change signature positions";
     lit "";
     lit "export interface SignaturePosition {";
     lit "  x: number;";
     lit "  y: number;";
     lit "  width: number;";
     lit "  height: number;";
     lit "  opacity?: number;";
     lit "}";
     lit "";
     lit "export interface PDFSignatureConfig {";
     lit "  [pdfType: string]: SignaturePosition;";
     lit "}";
     lit "";
     lit "// Default signature positions for each PDF type";
     lit "export const signaturePositions: PDFSignatureConfig = {";
     lit "  'absa-form': {";
     lit "    x: 78,";
     lit "    y: 376,";
     lit "    width: 200,";
     lit "    height: 60,";
     lit "    opacity: 1";
     lit "  },";
     lit "  'clearance-certificate-form': {";
     lit "    x: 104,";
     lit "    y: 184,";
     lit "    width: 200,";
     lit "    height: 60,";
     lit "    opacity: 0.7";
     lit "  },";
     lit "  'sahl-certificate-form': {";
     lit "    x: 323,";
     lit "    y: 177,";
     lit "    width: 200,";
     lit "    height: 60,";
     lit "    opacity: 1";
     lit "  },";
     lit "  'discovery-form': {";
     lit "    x: 172,";
     lit "    y: 74,";
     lit "    width: 200,";
     lit "    height: 60,";
     lit "    opacity: 1";
     lit "  },";
     lit "  'liability-form': {";
     lit "    x: 360,";
     lit "    y: 580,";
     lit "    width: 200,";
     lit "    height: 60,";
     lit "    opacity: 1";
     lit "  },";
     lit "  'noncompliance-form': {";
     lit "    x: 300,";
     lit "    y: 700,";
     lit "    width: 200,";
     lit "    height: 60,";
     lit "    opacity: 0.7";
     lit "  },";
     lit "  'material-list-form': {";
     lit "    x: 320,";
     lit "    y: 750,";
     lit "    width: 200,";
     lit "    height: 60,";
     lit "    opacity: 0.7";
     lit "  },";
     lit "  'default': {";
     lit "    x: 168,";
     lit "    y: 722,";
     lit "    width: 200,";
     lit "    height: 30,";
     lit "    opacity: 0.7";
     lit "  }";
     lit "};";
     lit "";
     lit "// Function to get signature position for a specific form type";
     lit "export function getSignaturePosition(formType: string): SignaturePosition {";
     lit "  return signaturePositions[formType] || signaturePositions['default'];";
     lit "}";
     lit "";
     lit "// Function to update signature position (this will be called by admin API)";
     lit "export function updateSignaturePosition(formType: string, position: SignaturePosition): void {";
     lit "  signaturePositions[formType] = {";
     lit "    ...position,";
     lit "    opacity: position.opacity || 0.7 // Default transparency";
     lit "  };";
     lit "}";
     [] ].

(** The catalogue object that the module builds when it is loaded. *)
Definition initial_catalogue : gmap string SignaturePosition :=
  let entry a b c d o :=
    {| x := Fin a 0; y := Fin b 0; width := Fin c 0; height := Fin d 0;
       opacity := Some o |} in
  list_to_map
    [("absa-form", entry 78 376 200 60 (Fin 1 0));
     ("clearance-certificate-form", entry 104 184 200 60 (Fin 7 1));
     ("sahl-certificate-form", entry 323 177 200 60 (Fin 1 0));
     ("discovery-form", entry 172 74 200 60 (Fin 1 0));
     ("liability-form", entry 360 580 200 60 (Fin 1 0));
     ("noncompliance-form", entry 300 700 200 60 (Fin 7 1));
     ("material-list-form", entry 320 750 200 60 (Fin 7 1));
     ("default", entry 168 722 200 30 (Fin 7 1))]%string%Z.

Definition initial_store : store :=
  {| file := Some config_source; writable := true;
     signaturePositions := initial_catalogue; trace := [] |}.

(** ** Auxiliary notions for the properties *)

(** What is matched is a piece of the text: the matched text and the rest
    make up what had been matched before and the text given. *)
Definition splits (k : text -> text -> group -> option found) : Prop :=
  forall s w g r, k s w g = Some r -> whole r ++ after r = rev w ++ s.

(** A pattern that asks for the character [c] only matches in a text that
    has it. *)
Definition needs (c : ascii) (k : text -> text -> group -> option found)
  : Prop :=
  forall s w g r, k s w g = Some r -> In c s.

Definition has (c : ascii) (s : text) : bool := existsb (Ascii.eqb c) s.

(** The characters of a rendered number: the digits and those of the sign,
    the point and [NaN]. *)
Definition number_char (c : ascii) : bool :=
  existsb (Ascii.eqb c) (text_of "0123456789-.Na").

(** What [newPositionString] puts between the braces. *)
Definition block_body (position : SignaturePosition) : text :=
  newline :: text_of "    x: " ++ toString (x position) ++
  text_of "," ++ newline :: text_of "    y: " ++ toString (y position) ++
  text_of "," ++ newline :: text_of "    width: " ++ toString (width position) ++
  text_of "," ++ newline :: text_of "    height: " ++ toString (height position) ++
  text_of "," ++ newline :: text_of "    opacity: " ++
  toString (opacity_or_default (opacity position)) ++
  newline :: text_of "  ".


(** What a successful run of the writer adds to the trace, latest first. *)
Definition writer_events (fileContent : text) (formType : string)
    (position : SignaturePosition) : list event :=
  (if includes (updatedFileContent fileContent formType position)
        (quoted formType ++ text_of ": {")
   then [] else [Warn BlockNotFoundAfterUpdate]) ++
  ReadFile true :: WriteFile true ::
  (if existsb (String.eqb formType) supportedFormTypes
   then [] else [Warn FormTypeNotSupported]) ++
  [ReadFile true].

(** ** Records of the scenarios *)

Definition record_of (a b c d : Z) (o : option number) : SignaturePosition :=
  {| x := Fin a 0; y := Fin b 0; width := Fin c 0; height := Fin d 0;
     opacity := o |}.

Definition absa_record : SignaturePosition :=
  record_of 78 376 200 60 (Some (Fin 1 0)).

Definition default_record : SignaturePosition :=
  record_of 168 722 200 30 (Some (Fin 7 1)).

(** [{x:10, y:20, width:50, height:50, opacity:0.5}] *)
Definition new_form_record : SignaturePosition :=
  record_of 10 20 50 50 (Some (Fin 5 1)).

(** [{x:1, y:2, width:3, height:4, opacity:0.5}] *)
Definition moved_record : SignaturePosition :=
  record_of 1 2 3 4 (Some (Fin 5 1)).

(** A whole number as a JavaScript number. *)
Definition int (n : N) : number := Fin (Z.of_N n) 0.



(** What the fresh read gives on a readable file. *)
Definition freshPosition (fileContent : text)
    (catalogue : gmap string SignaturePosition) (formType : string) : value :=
  match extractPosition fileContent formType with
  | Some p => Position p
  | None => getSignaturePosition catalogue formType
  end.

(** What the verification step of a save reads back: what the reader takes
    out of the new file content or else the record just stored. *)
Definition verificationPosition (fileContent : text) (formType : string)
    (input : SignaturePosition) : SignaturePosition :=
  match extractPosition
          (updatedFileContent fileContent formType (newPosition input))
          formType with
  | Some p => p
  | None => newPosition input
  end.




(** A text with a block nested in another, in the shape that the field
    patterns match. *)
Definition nested_source : text :=
  lit "'a': { 'b': { x:\\d y:\\d width:\\d height:\\d } }".

(** ** Blocks read off directly *)

(** Keys made of ordinary characters: no pattern syntax, dot, double quote
    or colon. *)
Definition is_key_char (c : ascii) : bool :=
  negb (is_pattern_syntax c || Ascii.eqb c "."%char ||
        Ascii.eqb c dquote || Ascii.eqb c ":"%char).

Definition simple_key (formType : string) : bool :=
  forallb is_key_char (text_of formType).

(** [strip p s]: [s] without its prefix [p]. *)
Fixpoint strip (p s : text) : option text :=
  match p with
  | [] => Some s
  | c :: p' =>
      match s with
      | d :: s' => if Ascii.eqb c d then strip p' s' else None
      | [] => None
      end
  end.

(** What stands before the first closing brace, and what follows the
    brace. *)
Fixpoint body_at (s : text) : option (text * text) :=
  match s with
  | [] => None
  | c :: s' =>
      if Ascii.eqb "}"%char c then Some ([], s')
      else match body_at s' with
           | Some (body, rest) => Some (c :: body, rest)
           | None => None
           end
  end.

(** White space, an opening brace, and the body. *)
Fixpoint open_at (s : text) : option (text * text * text) :=
  match s with
  | [] => None
  | c :: s' =>
      if is_space c then
        match open_at s' with
        | Some (ws, body, rest) => Some (c :: ws, body, rest)
        | None => None
        end
      else if Ascii.eqb "{"%char c then
        match body_at s' with
        | Some (body, rest) => Some ([], body, rest)
        | None => None
        end
      else None
  end.

(** The quoted key and the colon that a block starts with. *)
Definition header (formType : string) : text := quoted formType ++ [":"%char].

(** The block of the key at the start of a text: its white space, its
    body, and the text after it. *)
Definition block_at (formType : string) (s : text)
  : option (text * text * text) :=
  match strip (header formType) s with
  | Some s1 => open_at s1
  | None => None
  end.

Definition block_text (formType : string) (ws body : text) : text :=
  header formType ++ ws ++ "{"%char :: body ++ ["}"%char].

Definition found_of (formType : string) (o : option (text * text * text))
  : option found :=
  match o with
  | Some (ws, body, rest) =>
      Some {| whole := block_text formType ws body; group1 := GNone;
              after := rest |}
  | None => None
  end.









(** * The rest of the admin routes *)

(** ** Notions for the properties of the catalogue and its handlers *)

(** What [updateSignaturePosition] stores for a record: the record with its
    opacity filled in. *)
Definition stored_record (position : SignaturePosition) : SignaturePosition :=
  {| x := x position; y := y position;
     width := width position; height := height position;
     opacity := Some (opacity_or_default (opacity position)) |}.

(** A computation that leaves a part [f] of the store as it is. *)
Definition preserves {A B} (f : store -> B) (m : M A) : Prop :=
  forall st, f (snd (m st)) = f st.

(** The file, whether it can be written, and the catalogue object: the
    store without the console. *)
Definition disk_and_catalogue (st : store)
  : option text * bool * gmap string SignaturePosition :=
  (file st, writable st, signaturePositions st).




(** ** The admin guard *)

Fixpoint text_eqb (a b : text) : bool :=
  match a, b with
  | [], [] => true
  | c :: a', d :: b' => Ascii.eqb c d && text_eqb a' b'
  | _, _ => false
  end.

(** [s.replace(p, r)] for a string [p] and a replacement without [$]: the
    first occurrence of [p] is replaced. *)
Fixpoint replaceFirst (s p r : text) : text :=
  if startsWith s p then r ++ skipn (length p) s
  else match s with
       | [] => []
       | c :: s' => c :: replaceFirst s' p r
       end.

(** What a middleware does with a request: it answers, or it calls
    [next()]. *)
Inductive guard :=
| Answered (r : response)
| Next.

(** [requireAdmin], on the authorization header of the request. *)
Definition requireAdmin (authorization : option text) : guard :=
  let token :=
    match authorization with
    | Some a => Some (replaceFirst a (text_of "Bearer ") [])
    | None => None
    end in
  let userId :=
    match token with
    | Some (c :: t) => replaceFirst (c :: t) (text_of "mock-token-") []
    | _ => []
    end in
  if negb (text_eqb userId (text_of "admin-1"))
  then Answered (failure 403 "Admin access required")
  else Next.

(** A route [[requireAdmin, handler]]: the handler runs when the guard
    calls [next()]. *)
Definition guarded (authorization : option text) (handler : M response)
  : M response :=
  match requireAdmin authorization with
  | Answered r => ret r
  | Next => handler
  end.

(** The position routes of [adminFormRoutes]. *)
Module adminFormRoutes.

Definition getSignaturePosition (authorization : option text)
    (formId : option string) : M response :=
  guarded authorization (handleGetSignaturePosition formId).



End adminFormRoutes.

(** A save request for a PDF name that the alias table does not list. *)
Definition unlisted_request : SaveRequest :=
  {| pdfName := Some "Unlisted.pdf"%string;
     position := Some moved_record;
     formType := None |}.

(** ** Values of request bodies and answers *)

(** A JSON value, and what an answer can hold besides. *)
#[local] Unset Elimination Schemes.
Inductive data :=
| DUndefined
| DNull
| DBool (b : bool)
| DNum (n : number)
| DText (s : text)
| DNow                         (* [new Date().toISOString()], left open *)
| DList (l : list data)
| DObject (o : list (string * data)).
#[local] Set Elimination Schemes.

(** ToBoolean *)
Definition truthy_data (d : data) : bool :=
  match d with
  | DUndefined | DNull => false
  | DBool b => b
  | DNum n => truthy_number n
  | DText [] => false
  | _ => true
  end.

Fixpoint lookup_property (name : string) (o : list (string * data)) : data :=
  match o with
  | (k, v) :: rest => if String.eqb name k then v else lookup_property name rest
  | [] => DUndefined
  end.

(** [d.name], for the property names of the handlers (none of them is a
    member of a prototype): a [TypeError], here [None], on undefined and
    null; undefined on the other values that are not objects. *)
Definition get (name : string) (d : data) : option data :=
  match d with
  | DUndefined | DNull => None
  | DObject o => Some (lookup_property name o)
  | _ => Some DUndefined
  end.

(** [s === d] for a string [s]. *)
Definition is_text (s : text) (d : data) : bool :=
  match d with
  | DText t => text_eqb s t
  | _ => false
  end.

(** The status and the value given to [res.json]. *)
Record reply := {
  code : nat;
  payload : data
}.

Definition refusal (c : nat) (message : string) : reply :=
  {| code := c; payload := DObject [("error"%string, DText (text_of message))] |}.

(** ** Names of variables and columns *)

Definition is_alphanumeric (c : ascii) : bool :=
  let n := nat_of_ascii c in
  ((97 <=? n) && (n <=? 122)) || ((65 <=? n) && (n <=? 90)) ||
  ((48 <=? n) && (n <=? 57)).

(** [id.replace(/[^a-zA-Z0-9]/g, "_")] *)
Definition pdfVariable (id : text) : text :=
  map (fun c => if is_alphanumeric c then c else "_"%char) id.

(** [c.toLowerCase()] on a code unit below 256: the letters A to Z and the
    capital letters of Latin-1 (192 to 222 without the sign 215). *)
Definition lower (c : ascii) : ascii :=
  let n := nat_of_ascii c in
  if ((65 <=? n) && (n <=? 90)) ||
     ((192 <=? n) && (n <=? 222) && negb (n =? 215))
  then ascii_of_nat (n + 32) else c.

Definition toLowerCase (s : text) : text := map lower s.

(** [id.replace(/[^a-zA-Z0-9]/g, "_").toLowerCase()] *)
Definition databaseColumn (id : text) : text := toLowerCase (pdfVariable id).

(** ** The forms *)

(** A field and a form, with the properties that the handlers read. *)
Module Field.

Record t := {
  id : text;
  label : text;
  required : data;
  type : text;
  autoFillFrom : data
}.

End Field.

Module Form.

Record t := {
  id : text;
  name : text;
  pdfTemplate : option text;      (* undefined when there is none *)
  fields : list Field.t;
  updatedAt : data
}.

End Form.

(** [l.findIndex(p)]; [None] stands for [-1]. *)
Fixpoint findIndex {A} (p : A -> bool) (l : list A) : option nat :=
  match l with
  | [] => None
  | a :: l' => if p a then Some 0 else option_map S (findIndex p l')
  end.

(** [form.pdfTemplate === file] *)
Definition uses (file : text) (form : Form.t) : bool :=
  match Form.pdfTemplate form with
  | Some template => text_eqb template file
  | None => false
  end.

(** The object that [handleGetVariableMappings] makes of a field. *)
Definition mapping_of (field : Field.t) : data :=
  DObject
    [("id", DText (text_of "mapping-" ++ Field.id field)%list);
     ("formFieldId", DText (Field.id field));
     ("formFieldLabel", DText (Field.label field));
     ("pdfVariable", DText (pdfVariable (Field.id field)));
     ("databaseColumn", DText (databaseColumn (Field.id field)));
     ("required", Field.required field);
     ("fieldType", DText (Field.type field));
     ("autoFillFrom",
      if truthy_data (Field.autoFillFrom field)
      then Field.autoFillFrom field else DNull)]%string.

(** [handleGetVariableMappings] *)
Definition handleGetVariableMappings (formId : text) (forms : list Form.t)
  : reply :=
  match find (fun f => text_eqb (Form.id f) formId) forms with
  | None => refusal 404 "Form not found"
  | Some form =>
      {| code := 200;
         payload :=
           DObject [("formId", DText formId);
                    ("formName", DText (Form.name form));
                    ("mappings", DList (map mapping_of (Form.fields form)))]%string |}
  end.

(** The body of the loop of [handleUpdateVariableMappings]: [None] when
    the mapping is null or undefined and reading its property throws, which
    the search does at the first field. *)
Definition apply_mapping (mapping : data) (fields : list Field.t)
  : option (list Field.t) :=
  match fields with
  | [] => Some []                (* the mapping is not looked at *)
  | _ :: _ =>
      match get "formFieldId" mapping, get "autoFillFrom" mapping,
            get "required" mapping with
      | Some formFieldId, Some autoFillFrom, Some required =>
          match findIndex (fun field => is_text (Field.id field) formFieldId)
                  fields
          with
          | Some fieldIndex =>
              Some (alter (fun field =>
                             {| Field.id := Field.id field;
                                Field.label := Field.label field;
                                Field.required := required;
                                Field.type := Field.type field;
                                Field.autoFillFrom := autoFillFrom |})
                      fieldIndex fields)
          | None => Some fields
          end
      | _, _, _ => None
      end
  end.

(** [mappings.forEach(...)]: whether the loop came to its end, and the
    fields as the loop left them. *)
Fixpoint apply_mappings (mappings : list data) (fields : list Field.t)
  : bool * list Field.t :=
  match mappings with
  | [] => (true, fields)
  | mapping :: rest =>
      match apply_mapping mapping fields with
      | Some fields' => apply_mappings rest fields'
      | None => (false, fields)
      end
  end.

Definition with_fields (fields : list Field.t) (form : Form.t) : Form.t :=
  {| Form.id := Form.id form; Form.name := Form.name form;
     Form.pdfTemplate := Form.pdfTemplate form;
     Form.fields := fields; Form.updatedAt := Form.updatedAt form |}.

Definition with_pdfTemplate (template : option text) (form : Form.t) : Form.t :=
  {| Form.id := Form.id form; Form.name := Form.name form;
     Form.pdfTemplate := template;
     Form.fields := Form.fields form; Form.updatedAt := Form.updatedAt form |}.

(** [form.updatedAt = new Date().toISOString()] *)
Definition touched (form : Form.t) : Form.t :=
  {| Form.id := Form.id form; Form.name := Form.name form;
     Form.pdfTemplate := Form.pdfTemplate form;
     Form.fields := Form.fields form; Form.updatedAt := DNow |}.

(** [handleUpdateVariableMappings]: the answer and the forms afterwards. *)
Definition handleUpdateVariableMappings (formId : text) (body : data)
    (forms : list Form.t) : reply * list Form.t :=
  let failed := refusal 500 "Failed to update variable mappings" in
  match get "mappings" body with
  | None => (failed, forms)
  | Some mappings =>
      match findIndex (fun f => text_eqb (Form.id f) formId) forms with
      | None => (refusal 404 "Form not found", forms)
      | Some formIndex =>
          match mappings, forms !! formIndex with
          | DList entries, Some form =>
              let '(finished, fields) :=
                apply_mappings entries (Form.fields form) in
              if finished then
                ({| code := 200;
                    payload :=
                      DObject [("message", DText (text_of "Variable mappings updated successfully"));
                               ("formId", DText formId);
                               ("mappings", mappings)]%string |},
                 <[formIndex := touched (with_fields fields form)]> forms)
              else (failed, <[formIndex := with_fields fields form]> forms)
          | _, _ => (failed, forms)
          end
      end
  end.

(** [handleUnlinkPdfFromForm] *)
Definition handleUnlinkPdfFromForm (formId : text) (forms : list Form.t)
  : reply * list Form.t :=
  match findIndex (fun f => text_eqb (Form.id f) formId) forms with
  | None => (refusal 404 "Form not found", forms)
  | Some formIndex =>
      match forms !! formIndex with
      | Some form =>
          ({| code := 200;
              payload :=
                DObject [("message", DText (text_of "PDF unlinked from form successfully"));
                         ("formId", DText formId);
                         ("oldPdfTemplate",
                          match Form.pdfTemplate form with
                          | Some template => DText template
                          | None => DUndefined
                          end);
                         ("formName", DText (Form.name form))]%string |},
           <[formIndex := touched (with_pdfTemplate None form)]> forms)
      | None => (refusal 500 "Failed to unlink PDF from form", forms)
      end
  end.

(** ** The database schema *)

(** [dynamicFormFields[columnName] = info] on an object made by [{}]: an
    own property, except under the name [__proto__], where the assignment
    of an object sets the prototype and adds no property. *)
Definition set_column (columns : gmap text data) (columnName : text)
    (info : data) : gmap text data :=
  if text_eqb columnName (text_of "__proto__") then columns
  else <[columnName := info]> columns.

Definition column_info (form : Form.t) (field : Field.t) : data :=
  DObject [("type", DText (Field.type field));
           ("required", Field.required field);
           ("formId", DText (Form.id form));
           ("formName", DText (Form.name form));
           ("fieldLabel", DText (Field.label field));
           ("autoFillFrom", Field.autoFillFrom field)]%string.

(** The two loops of [handleGetDatabaseSchema]. *)
Definition add_form (columns : gmap text data) (form : Form.t)
  : gmap text data :=
  fold_left
    (fun columns field =>
       set_column columns (databaseColumn (Field.id field))
         (column_info form field))
    (Form.fields form) columns.

Definition dynamicFormFields (forms : list Form.t) : gmap text data :=
  fold_left add_form forms ∅.

Definition column_type (type : string) (key : string) (flag : bool) : data :=
  DObject [("type", DText (text_of type)); (key, DBool flag)]%string.

Definition formSubmissions : data :=
  DObject [("id", column_type "string" "primary" true);
           ("jobId", column_type "string" "required" true);
           ("formId", column_type "string" "required" true);
           ("formType", column_type "string" "required" false);
           ("submittedBy", column_type "string" "required" true);
           ("submittedAt", column_type "datetime" "required" true);
           ("signature", column_type "object" "required" false);
           ("data", column_type "object" "required" true)]%string.

(** What [handleGetDatabaseSchema] answers with (status 200). *)
Record SchemaAnswer := {
  schema : data * gmap text data;   (* formSubmissions, dynamicFormFields *)
  totalForms : nat;
  totalFields : nat;
  lastUpdated : data
}.

Definition handleGetDatabaseSchema (forms : list Form.t) : SchemaAnswer :=
  let columns := dynamicFormFields forms in
  {| schema := (formSubmissions, columns);
     totalForms := length forms;
     totalFields := size columns;
     lastUpdated := DNow |}.

(** The column names of all fields, in the order of the loops. *)
Definition columns_of (forms : list Form.t) : list text :=
  flat_map (fun form => map (fun field => databaseColumn (Field.id field))
                          (Form.fields form)) forms.

(** ** The PDF files *)

(** Node's [fs] and [path], left open: [D] is the state of the disk; a
    call that throws gives [false] or [None]. *)
Class Node (D : Type) := {
  formsDir : text;       (* [path.join(process.cwd(), "public", "forms")] *)
  join : text -> text -> text;
  existsSync : text -> D -> bool;
  renameSync : text -> text -> D -> bool * D;
  unlinkSync : text -> D -> bool * D;
  readdirSync : text -> D -> option (list text);
  statSync : text -> D -> option (N * text)   (* size, mtime.toISOString() *)
}.

Definition names_of (forms : list Form.t) : data :=
  DList (map (fun form => DText (Form.name form)) forms).

Definition is_pdf_name (file : text) : bool :=
  endsWith (toLowerCase file) (text_of ".pdf").

(** The entries of [handleGetPdfFiles]; [None] when [statSync] throws. *)
Fixpoint pdf_entries `{Node D} (forms : list Form.t) (files : list text)
    (d : D) : option (list data) :=
  match files with
  | [] => Some []
  | file :: rest =>
      match statSync (join formsDir file) d with
      | Some (size, mtime) =>
          match pdf_entries forms rest d with
          | Some entries =>
              Some (DObject [("name", DText file);
                             ("size", DNum (int size));
                             ("lastModified", DText mtime);
                             ("mappedForms",
                              names_of (List.filter (uses file) forms))]%string
                    :: entries)
          | None => None
          end
      | None => None
      end
  end.

(** [handleGetPdfFiles] *)
Definition handleGetPdfFiles `{Node D} (forms : list Form.t) (d : D) : reply :=
  if negb (existsSync formsDir d) then {| code := 200; payload := DList [] |}
  else
    match readdirSync formsDir d with
    | Some files =>
        match pdf_entries forms (List.filter is_pdf_name files) d with
        | Some entries => {| code := 200; payload := DList entries |}
        | None => refusal 500 "Failed to get PDF files"
        end
    | None => refusal 500 "Failed to get PDF files"
    end.

(** [handleDeletePdf]: the answer and the disk afterwards. *)
Definition handleDeletePdf `{Node D} (fileName : text) (forms : list Form.t)
    (d : D) : reply * D :=
  match fileName with
  | [] => (refusal 400 "File name is required", d)
  | _ :: _ =>
      let filePath := join formsDir fileName in
      if negb (existsSync filePath d) then (refusal 404 "File not found", d)
      else
        let dependentForms := List.filter (uses fileName) forms in
        if 0 <? length dependentForms then
          ({| code := 400;
              payload :=
                DObject [("error", DText (text_of "Cannot delete PDF - it is being used by forms"));
                         ("dependentForms", names_of dependentForms)]%string |},
           d)
        else
          match unlinkSync filePath d with
          | (true, d') =>
              ({| code := 200;
                  payload :=
                    DObject [("message", DText (text_of "PDF deleted successfully"));
                             ("fileName", DText fileName)]%string |},
               d')
          | (false, d') => (refusal 500 "Failed to delete PDF", d')
          end
  end.

(** The loop of [handleRenamePdf] over the forms. *)
Definition repoint (oldName newName : text) (forms : list Form.t)
  : list Form.t :=
  map (fun form =>
         if uses oldName form
         then touched (with_pdfTemplate (Some newName) form) else form)
      forms.

(** [handleRenamePdf]: the answer, the forms and the disk afterwards. A
    name that is not a string makes [toLowerCase] or [path.join] throw. *)
Definition handleRenamePdf `{Node D} (body : data) (forms : list Form.t)
    (d : D) : reply * list Form.t * D :=
  let failed := refusal 500 "Failed to rename PDF" in
  match get "oldName" body, get "newName" body with
  | Some oldName, Some newName =>
      if negb (truthy_data oldName) || negb (truthy_data newName) then
        (refusal 400 "Old name and new name are required", forms, d)
      else
        match newName with
        | DText new =>
            if negb (is_pdf_name new) then
              (refusal 400 "New name must end with .pdf", forms, d)
            else
              match oldName with
              | DText old =>
                  let oldPath := join formsDir old in
                  let newPath := join formsDir new in
                  if negb (existsSync oldPath d) then
                    (refusal 404 "File not found", forms, d)
                  else if existsSync newPath d then
                    (refusal 400 "A file with the new name already exists",
                     forms, d)
                  else
                    match renameSync oldPath newPath d with
                    | (true, d') =>
                        ({| code := 200;
                            payload :=
                              DObject [("message", DText (text_of "PDF renamed successfully"));
                                       ("oldName", oldName);
                                       ("newName", newName)]%string |},
                         repoint old new forms, d')
                    | (false, d') => (failed, forms, d')
                    end
              | _ => (failed, forms, d)
              end
        | _ => (failed, forms, d)
        end
  | _, _ => (failed, forms, d)
  end.

(** [handleLinkPdfToForm]: the answer and the forms afterwards. *)
Definition handleLinkPdfToForm `{Node D} (body : data) (forms : list Form.t)
    (d : D) : reply * list Form.t :=
  let failed := refusal 500 "Failed to link PDF to form" in
  match get "formId" body, get "pdfFileName" body with
  | Some formId, Some pdfFileName =>
      if negb (truthy_data formId) || negb (truthy_data pdfFileName) then
        (refusal 400 "Form ID and PDF filename are required", forms)
      else
        match findIndex (fun f => is_text (Form.id f) formId) forms with
        | None => (refusal 404 "Form not found", forms)
        | Some formIndex =>
            match pdfFileName, forms !! formIndex with
            | DText file, Some form =>
                if negb (existsSync (join formsDir file) d) then
                  (refusal 404 "PDF file not found", forms)
                else
                  ({| code := 200;
                      payload :=
                        DObject [("message", DText (text_of "PDF linked to form successfully"));
                                 ("formId", formId);
                                 ("pdfFileName", pdfFileName);
                                 ("formName", DText (Form.name form))]%string |},
                   <[formIndex := touched (with_pdfTemplate (Some file) form)]>
                     forms)
            | _, _ => (failed, forms)
            end
        end
  | _, _ => (failed, forms)
  end.

(** ** Notions for the properties of the forms *)

(** The characters of [\w]: letters, digits and the underscore. *)
Definition is_word (c : ascii) : bool :=
  is_alphanumeric c || Ascii.eqb c "_"%char.

(** Small letters, digits and the underscore. *)
Definition is_column_char (c : ascii) : bool :=
  let n := nat_of_ascii c in
  ((97 <=? n) && (n <=? 122)) || ((48 <=? n) && (n <=? 57)) ||
  Ascii.eqb c "_"%char.

(** The name under which an assignment adds no property. *)
Definition proto : text := text_of "__proto__".

(** The columns with their information, in the order of the loops. *)
Definition column_entries (forms : list Form.t) : list (text * data) :=
  flat_map (fun form =>
              map (fun field => (databaseColumn (Field.id field),
                                 column_info form field))
                  (Form.fields form)) forms.

Definition set_columns (columns : gmap text data) (entries : list (text * data))
  : gmap text data :=
  fold_left (fun columns entry => set_column columns (fst entry) (snd entry))
    entries columns.

(** What the handlers never change of a field: its id, label and type. *)
Definition field_key (field : Field.t) : text * text * text :=
  (Field.id field, Field.label field, Field.type field).

(** [update formId form form']: [form'] is [form] up to what
    [handleUpdateVariableMappings] for [formId] may change, which is the
    [required] and [autoFillFrom] of fields and the time of the update. *)
Definition updated (formId : text) (form form' : Form.t) : Prop :=
  Form.id form' = Form.id form /\
  Form.name form' = Form.name form /\
  Form.pdfTemplate form' = Form.pdfTemplate form /\
  map field_key (Form.fields form') = map field_key (Form.fields form) /\
  (Form.id form <> formId -> form' = form).

(** A field as a round through [handleGetVariableMappings] and
    [handleUpdateVariableMappings] leaves it: a falsy [autoFillFrom] has
    become null. *)
Definition normalized (field : Field.t) : Field.t :=
  {| Field.id := Field.id field;
     Field.label := Field.label field;
     Field.required := Field.required field;
     Field.type := Field.type field;
     Field.autoFillFrom :=
       if truthy_data (Field.autoFillFrom field)
       then Field.autoFillFrom field else DNull |}.

(** Forms for the examples. *)
Definition sample_field (id label : string) (autoFillFrom : data) : Field.t :=
  {| Field.id := text_of id; Field.label := text_of label;
     Field.required := DBool true; Field.type := text_of "text";
     Field.autoFillFrom := autoFillFrom |}.

Definition absa_form : Form.t :=
  {| Form.id := text_of "form-absa-certificate";
     Form.name := text_of "ABSA Certificate";
     Form.pdfTemplate := Some (text_of "ABSACertificate.pdf");
     Form.fields :=
       [sample_field "client-name" "Client name" DUndefined;
        sample_field "Client_Name" "Name of the client"
          (DText (text_of "clientName"));
        sample_field "date" "Date" (DText [])];
     Form.updatedAt := DText (text_of "2024-01-01T00:00:00.000Z") |}.

Definition clearance_form : Form.t :=
  {| Form.id := text_of "form-clearance-certificate";
     Form.name := text_of "Clearance Certificate";
     Form.pdfTemplate := None;
     Form.fields := [sample_field "date" "Date" DNull];
     Form.updatedAt := DText (text_of "2024-01-01T00:00:00.000Z") |}.

Definition sample_forms : list Form.t := [absa_form; clearance_form].

(** A disk for the examples: the paths of the files that exist, all of the
    size 1024 and the same time. *)
Definition sample_dir : text := text_of "/app/public/forms".

Definition sample_join (dir name : text) : text := dir ++ "/"%char :: name.

Fixpoint names_under (dir : text) (paths : list text) : list text :=
  match paths with
  | [] => []
  | path :: rest =>
      match strip (dir ++ ["/"%char]) path with
      | Some name => name :: names_under dir rest
      | None => names_under dir rest
      end
  end.

#[export] Instance sample_node : Node (list text) := {|
  formsDir := sample_dir;
  join := sample_join;
  existsSync path d := text_eqb path sample_dir || existsb (text_eqb path) d;
  renameSync oldPath newPath d :=
    if existsb (text_eqb oldPath) d
    then (true, map (fun path => if text_eqb path oldPath then newPath else path) d)
    else (false, d);
  unlinkSync path d :=
    if existsb (text_eqb path) d
    then (true, List.filter (fun p => negb (text_eqb p path)) d)
    else (false, d);
  readdirSync path d :=
    if text_eqb path sample_dir then Some (names_under path d) else None;
  statSync path d :=
    if existsb (text_eqb path) d
    then Some (1024%N, text_of "2024-01-01T00:00:00.000Z") else None
|}.

Definition sample_disk : list text :=
  [text_of "/app/public/forms/ABSACertificate.pdf";
   text_of "/app/public/forms/Scan.PDF";
   text_of "/app/public/forms/notes.txt"].

(** The property of an answer's object, for reading answers. *)
Definition property (name : string) (d : data) : data :=
  match get name d with
  | Some v => v
  | None => DUndefined
  end.

(** ** The chunks of the build ([vite.config.ts]) *)

(** [manualChunks(id)]; [None] stands for undefined. *)
Definition manualChunks (id : text) : option string :=
  if includes id (text_of "node_modules") then
    if includes id (text_of "react") then Some "vendor-react"%string
    else if includes id (text_of "lodash") || includes id (text_of "date-fns")
    then Some "vendor-utils"%string
    else if includes id (text_of "@radix-ui") then Some "vendor-radix"%string
    else if includes id (text_of "recharts") then Some "vendor-recharts"%string
    else Some "vendor"%string
  else None.

(** ** Saves one after the other *)

(** The configuration text after the writer has run for each of the keys
    and records, in their order. *)
Definition written (writes : list (string * SignaturePosition))
    (fileContent : text) : text :=
  fold_left (fun content write =>
               updatedFileContent content (fst write) (snd write))
    writes fileContent.

(** What the writer does to a text that has the quoted key: every block of
    the key is replaced by the rendered record. *)
Definition rewrite_blocks (formType : string) (position : SignaturePosition)
    (s : text) : text :=
  replace (block_pattern true formType) (newPositionString formType position) s.
(** * Properties *)

(** ** The matcher *)

Section Matcher.


Lemma repeat_set_splits k p : splits k -> splits (repeat_set k p).
Proof.
  intros Hk s. induction s as [|c s IH]; intros w g r; simpl.
  - apply Hk.
  - destruct (cset_mem p c); [|apply Hk].
    destruct (repeat_set k p s (c :: w) (gpush c g)) eqn:E.
    + intros [= <-]. apply IH in E. rewrite E. simpl.
      now rewrite <- app_assoc.
    + apply Hk.
Qed.

Lemma run_splits re : splits (run re).
Proof.
  induction re as [|a re IH]; intros s w g r; simpl.
  - intros [= <-]. reflexivity.
  - destruct a.
    + destruct s as [|c s]; [discriminate|].
      destruct (cset_mem p c); [|discriminate].
      intros E. apply IH in E. rewrite E. simpl. now rewrite <- app_assoc.
    + apply repeat_set_splits, IH.
    + destruct s as [|c s]; [discriminate|].
      destruct (cset_mem p c); [|discriminate].
      intros E. apply (repeat_set_splits _ _ IH) in E. rewrite E. simpl.
      now rewrite <- app_assoc.
    + apply IH.
    + apply IH.
Qed.

Lemma exec_at_splits re s r :
  exec_at re s = Some r -> s = whole r ++ after r.
Proof. intros E. apply run_splits in E. now rewrite E. Qed.

Lemma search_splits re s r :
  search re s = Some r -> exists before, s = before ++ whole r ++ after r.
Proof.
  induction s as [|c s IH]; simpl.
  - destruct (exec_at re []) eqn:E; [|discriminate].
    intros [= <-]. exists []. now apply (exec_at_splits re).
  - destruct (exec_at re (c :: s)) eqn:E.
    + intros [= <-]. exists []. now apply (exec_at_splits re).
    + intros H. destruct (IH H) as [b Hb]. exists (c :: b). simpl. now f_equal.
Qed.


Lemma repeat_set_needs c k p : needs c k -> needs c (repeat_set k p).
Proof.
  intros Hk s. induction s as [|d s IH]; intros w g r; simpl.
  - apply Hk.
  - destruct (cset_mem p d); [|apply Hk].
    destruct (repeat_set k p s (d :: w) (gpush d g)) eqn:E.
    + intros _. right. eapply IH, E.
    + apply Hk.
Qed.

Lemma run_needs c re : In (One (CChar c)) re -> needs c (run re).
Proof.
  induction re as [|a re IH]; [intros []|].
  intros [->|Hin] s w g r; simpl.
  - destruct s as [|d s]; [discriminate|].
    destruct (Ascii.eqb c d) eqn:E; [|discriminate].
    apply Ascii.eqb_eq in E. subst d. intros _. now left.
  - specialize (IH Hin). destruct a.
    + destruct s as [|d s]; [discriminate|].
      destruct (cset_mem p d); [|discriminate].
      intros E. right. eapply IH, E.
    + apply repeat_set_needs, IH.
    + destruct s as [|d s]; [discriminate|].
      destruct (cset_mem p d); [|discriminate].
      intros E. right. eapply repeat_set_needs; eauto.
    + apply IH.
    + apply IH.
Qed.

Lemma search_needs c re s r :
  In (One (CChar c)) re -> search re s = Some r -> In c s.
Proof.
  intros Hin. induction s as [|d s IH]; simpl.
  - destruct (exec_at re []) eqn:E; [|discriminate].
    intros _. exact (run_needs c re Hin _ _ _ _ E).
  - destruct (exec_at re (d :: s)) eqn:E.
    + intros _. exact (run_needs c re Hin _ _ _ _ E).
    + intros H. right. auto.
Qed.

End Matcher.

(** ** Characters that a text has *)


Lemma has_false c s : has c s = false <-> ~ In c s.
Proof.
  unfold has. split.
  - intros H Hin. assert (existsb (Ascii.eqb c) s = true) as E.
    { apply existsb_exists. exists c. split; [exact Hin|apply Ascii.eqb_refl]. }
    congruence.
  - intros H. destruct (existsb (Ascii.eqb c) s) eqn:E; [|reflexivity].
    apply existsb_exists in E. destruct E as [d [Hin Hd]].
    apply Ascii.eqb_eq in Hd. subst d. contradiction.
Qed.

Lemma has_app c a b : has c (a ++ b) = has c a || has c b.
Proof. apply existsb_app. Qed.

Lemma has_cons c d s : has c (d :: s) = Ascii.eqb c d || has c s.
Proof. reflexivity. Qed.

Lemma has_rev c s : has c (rev s) = has c s.
Proof.
  destruct (has c s) eqn:E.
  - apply existsb_exists in E. destruct E as [d [Hin Hd]].
    apply existsb_exists. exists d. split; [now apply in_rev in Hin|exact Hd].
  - apply has_false. apply has_false in E.
    intros Hin. apply E. now apply in_rev.
Qed.

(** The field patterns ask for a backslash, so that on a text without one
    the reader takes nothing out of any block. *)
Lemma extractPosition_without_backslash fileContent formType :
  has backslash fileContent = false ->
  extractPosition fileContent formType = None.
Proof.
  intros H. apply has_false in H. unfold extractPosition.
  destruct (search (block_pattern false formType) fileContent) as [m|] eqn:E;
    [|reflexivity].
  destruct (search x_pattern (whole m)) as [xm|] eqn:Ex; [|reflexivity].
  exfalso. apply H.
  apply search_splits in E. destruct E as [b ->].
  apply in_or_app. right. apply in_or_app. left.
  eapply search_needs; [|exact Ex]. unfold x_pattern. simpl. auto.
Qed.

(** ** What the writer renders *)


Lemma dropTrailingZeros_rev_incl c r :
  In c (dropTrailingZeros_rev r) -> In c r.
Proof.
  induction r as [|d r IH]; simpl; [tauto|].
  destruct (Ascii.eqb d "0"); simpl; tauto.
Qed.

Section Rendering.

Variable c : ascii.
Hypothesis Hc : number_char c = false.

Lemma not_number_char d : number_char d = true -> Ascii.eqb c d = false.
Proof.
  intros Hd. destruct (Ascii.eqb c d) eqn:E; [|reflexivity].
  apply Ascii.eqb_eq in E. subst d. congruence.
Qed.

Lemma uint_lacks d :
  has c (list_ascii_of_string (NilEmpty.string_of_uint d)) = false.
Proof.
  induction d; simpl; rewrite ?has_cons, ?IHd, ?orb_false_r;
    try reflexivity; now apply not_number_char.
Qed.

Lemma digits_of_lacks n : has c (digits_of n) = false.
Proof.
  unfold digits_of, NilZero.string_of_uint.
  destruct (N.to_uint n) eqn:E;
    try (rewrite <- E; apply uint_lacks).
  unfold has. simpl. rewrite orb_false_r. now apply not_number_char.
Qed.

Lemma repeat_zero_lacks k : has c (repeat "0"%char k) = false.
Proof.
  induction k; [reflexivity|]. cbn [repeat].
  rewrite has_cons, IHk, orb_false_r. now apply not_number_char.
Qed.

Lemma fraction_digits_lacks f e : has c (fraction_digits f e) = false.
Proof.
  unfold fraction_digits. rewrite has_rev.
  apply has_false. intros Hin.
  apply dropTrailingZeros_rev_incl, in_rev in Hin.
  revert Hin. apply has_false.
  now rewrite has_app, repeat_zero_lacks, digits_of_lacks.
Qed.

Lemma toString_lacks a : has c (toString a) = false.
Proof.
  destruct a as [|m e].
  - unfold has. simpl. rewrite !not_number_char; reflexivity.
  - unfold toString.
    rewrite !has_app, digits_of_lacks.
    pose proof (fraction_digits_lacks (Z.abs_N m mod Z.to_N (pow10 e)) e) as Hf.
    assert (Ascii.eqb c "-" = false) as Hm by now apply not_number_char.
    assert (Ascii.eqb c "." = false) as Hp by now apply not_number_char.
    destruct (fraction_digits _ e); destruct (m <? 0)%Z;
      rewrite ?has_cons, ?Hm, ?Hp; simpl in *; auto.
Qed.

End Rendering.


Lemma newPositionString_shape formType position :
  newPositionString formType position =
  quoted formType ++ text_of ": {" ++ block_body position ++ ["}"%char].
Proof.
  unfold newPositionString, block_body, unlines, quoted.
  cbn [app]. rewrite <- !app_assoc. cbn [app].
  repeat (f_equal; rewrite <- ?app_assoc; cbn [app text_of list_ascii_of_string]).
Qed.

Ltac lacks_in_rendering :=
  repeat (rewrite ?has_app, ?has_cons, ?toString_lacks by reflexivity;
          cbn [text_of list_ascii_of_string app]);
  reflexivity.

Lemma block_body_lacks_brace position : has "}"%char (block_body position) = false.
Proof. unfold block_body. lacks_in_rendering. Qed.

Lemma block_body_lacks_backslash position :
  has backslash (block_body position) = false.
Proof. unfold block_body. lacks_in_rendering. Qed.


Lemma plain_key_lacks c formType :
  is_pattern_syntax c = true ->
  plain_key formType = true -> has c (text_of formType) = false.
Proof.
  unfold plain_key. intros Hc H. apply has_false. intros Hin.
  rewrite forallb_forall in H. specialize (H _ Hin).
  rewrite Hc in H. discriminate.
Qed.

Lemma newPositionString_lacks_backslash formType position :
  plain_key formType = true ->
  has backslash (newPositionString formType position) = false.
Proof.
  intros H. rewrite newPositionString_shape. unfold quoted.
  repeat first [rewrite has_app | rewrite has_cons].
  rewrite block_body_lacks_backslash.
  rewrite (plain_key_lacks backslash) by (reflexivity || exact H).
  reflexivity.
Qed.

(** ** The block pattern on a block *)

Lemma run_key_pattern dotAll (key : text) re s w :
  run (map (fun c => if Ascii.eqb c "."%char then One (CDot dotAll)
                     else One (CChar c)) key ++ re)
      (key ++ s) w GNone =
  run re s (rev key ++ w) GNone.
Proof.
  revert w. induction key as [|c key IH]; intros w; [reflexivity|].
  cbn [map app run].
  assert (cset_mem (CDot dotAll) c = true \/ Ascii.eqb c "." = false) as H.
  { destruct (Ascii.eqb c ".") eqn:E; [left|now right].
    apply Ascii.eqb_eq in E. subst c. simpl. now destruct dotAll. }
  destruct (Ascii.eqb c ".") eqn:E; cbn [run].
  - destruct H as [H|H]; [|discriminate]. rewrite H. cbn [gpush].
    rewrite IH. cbn [rev]. now rewrite <- app_assoc.
  - cbn [cset_mem]. rewrite Ascii.eqb_refl. cbn [gpush].
    rewrite IH. cbn [rev]. now rewrite <- app_assoc.
Qed.

(** A greedy repetition takes a whole run of the set when the rest of the
    pattern matches behind the run. *)
Lemma repeat_set_run k p (body s w : text) r :
  forallb (cset_mem p) body = true ->
  k s (rev body ++ w) GNone = Some r ->
  match s with [] => True | c :: _ => cset_mem p c = false end ->
  repeat_set k p (body ++ s) w GNone = Some r.
Proof.
  revert w. induction body as [|c body IH]; intros w Hall Hk Hs.
  - destruct s as [|c s]; simpl in *; [exact Hk|]. now rewrite Hs.
  - cbn [forallb] in Hall. apply andb_prop in Hall. destruct Hall as [Hc Hall].
    cbn [app repeat_set]. rewrite Hc. cbn [gpush].
    rewrite (IH (c :: w)); auto.
    cbn [rev] in Hk. now rewrite <- app_assoc in Hk.
Qed.

Lemma lacks_forallb_not c s :
  has c s = false -> forallb (cset_mem (CNot c)) s = true.
Proof.
  induction s as [|d s IH]; [reflexivity|].
  rewrite has_cons. intros H. apply orb_false_elim in H. destruct H as [H1 H2].
  cbn [forallb cset_mem]. now rewrite H1, IH.
Qed.

Lemma block_pattern_matches dotAll formType body rest :
  has "}"%char body = false ->
  exists r,
    exec_at (block_pattern dotAll formType)
      (quoted formType ++ text_of ": {" ++ body ++ "}"%char :: rest) = Some r /\
    whole r = quoted formType ++ text_of ": {" ++ body ++ ["}"%char] /\
    after r = rest.
Proof.
  intros Hbody.
  assert (exists r,
    exec_at (block_pattern dotAll formType)
      (quoted formType ++ text_of ": {" ++ body ++ "}"%char :: rest) = Some r /\
    after r = rest) as [r [Hr Hafter]].
  { unfold exec_at, block_pattern, quoted, key_pattern.
    cbn [app run cset_mem]. rewrite Ascii.eqb_refl. cbn [gpush].
    rewrite <- app_assoc. rewrite run_key_pattern.
    cbn [app text_of list_ascii_of_string run cset_mem].
    rewrite Ascii.eqb_refl. cbn [gpush].
    cbn [Ascii.eqb Bool.eqb]. cbn [gpush].
    change (" "%char :: "{"%char :: body ++ "}"%char :: rest)
      with ([" "%char] ++ "{"%char :: body ++ "}"%char :: rest).
    eexists. split.
    - apply repeat_set_run; [reflexivity| |reflexivity].
      cbn [run cset_mem Ascii.eqb Bool.eqb gpush].
      apply repeat_set_run.
      + now apply lacks_forallb_not.
      + cbn [run cset_mem Ascii.eqb Bool.eqb gpush]. reflexivity.
      + reflexivity.
    - reflexivity. }
  exists r. split; [exact Hr|]. split; [|exact Hafter].
  apply exec_at_splits in Hr. rewrite Hafter in Hr.
  apply (app_inv_tail rest).
  rewrite <- Hr. rewrite <- !app_assoc. cbn [app]. reflexivity.
Qed.

Lemma search_app_found re before s r :
  exec_at re s = Some r -> search re (before ++ s) <> None.
Proof.
  intros Hr. induction before as [|c before IH]; cbn [app].
  - destruct s; simpl; now rewrite Hr.
  - simpl. destruct (exec_at re (c :: before ++ s)); [discriminate|exact IH].
Qed.

(** ** The new file content *)

Lemma replace_fuel_lacks c fuel re replacement s :
  has c replacement = false -> has c s = false ->
  has c (replace_fuel fuel re replacement s) = false.
Proof.
  intros Hrep. revert s. induction fuel as [|fuel IH]; intros s Hs; [exact Hs|].
  assert (forall r, exec_at re s = Some r -> has c (after r) = false) as Hafter.
  { intros r E. apply exec_at_splits in E. rewrite E, has_app in Hs.
    now apply orb_false_elim in Hs. }
  cbn [replace_fuel].
  destruct s as [|d s'].
  - destruct (exec_at re []) as [r|] eqn:E; [|reflexivity].
    destruct (whole r); rewrite has_app, Hrep; [reflexivity|].
    now rewrite IH by auto.
  - rewrite has_cons in Hs. apply orb_false_elim in Hs. destruct Hs as [Hd Hs'].
    destruct (exec_at re (d :: s')) as [r|] eqn:E.
    + destruct (whole r); rewrite has_app, Hrep.
      * now rewrite has_cons, Hd, IH.
      * now rewrite IH by auto.
    + now rewrite has_cons, Hd, IH.
Qed.

Lemma has_firstn c n s : has c s = false -> has c (firstn n s) = false.
Proof.
  intros H. rewrite <- (firstn_skipn n s), has_app in H.
  now apply orb_false_elim in H.
Qed.

Lemma has_skipn c n s : has c s = false -> has c (skipn n s) = false.
Proof.
  intros H. rewrite <- (firstn_skipn n s), has_app in H.
  now apply orb_false_elim in H.
Qed.

Lemma updatedFileContent_lacks_backslash fileContent formType position :
  plain_key formType = true ->
  has backslash fileContent = false ->
  has backslash (updatedFileContent fileContent formType position) = false.
Proof.
  intros Hk Hf. unfold updatedFileContent.
  pose proof (newPositionString_lacks_backslash formType position Hk) as Hn.
  destruct (includes fileContent (quoted formType)).
  - now apply replace_fuel_lacks.
  - destruct (lastIndexOf fileContent (text_of "};")) as [i|]; [|exact Hf].
    repeat first [rewrite has_app | rewrite has_cons].
    rewrite Hn, (has_firstn _ _ _ Hf), (has_skipn _ _ _ Hf).
    now destruct (_ && _).
Qed.

(** ** Running the reader and the writer *)

Lemma getFresh_readable formType st fileContent :
  file st = Some fileContent ->
  getFreshSignaturePosition formType st =
  (Return match extractPosition fileContent formType with
          | Some position => Position position
          | None => getSignaturePosition (signaturePositions st) formType
          end,
   logged (ReadFile true) st).
Proof.
  intros H. unfold getFreshSignaturePosition, try_catch, bind, readFile.
  rewrite H. destruct (extractPosition fileContent formType); reflexivity.
Qed.

Lemma getFresh_unreadable formType st :
  file st = None ->
  getFreshSignaturePosition formType st =
  (Return (getSignaturePosition (signaturePositions st) formType),
   logged Error (logged (ReadFile false) st)).
Proof.
  intros H. unfold getFreshSignaturePosition, try_catch, bind, readFile.
  rewrite H. reflexivity.
Qed.

(** The fresh reader always returns. *)
Lemma getFresh_returns formType st :
  exists v st', getFreshSignaturePosition formType st = (Return v, st') /\
                file st' = file st /\ writable st' = writable st /\
                signaturePositions st' = signaturePositions st.
Proof.
  destruct (file st) as [fileContent|] eqn:E.
  - rewrite (getFresh_readable _ _ _ E). eauto 10.
  - rewrite (getFresh_unreadable _ _ E). eauto 10.
Qed.


Lemma writer_writable formType position st fileContent :
  file st = Some fileContent -> writable st = true ->
  updateSignaturePositionInSourceCode formType position st =
  (Return tt,
   {| file := Some (updatedFileContent fileContent formType position);
      writable := true;
      signaturePositions := signaturePositions st;
      trace := writer_events fileContent formType position ++ trace st |}).
Proof.
  intros Hf Hw.
  unfold updateSignaturePositionInSourceCode, try_catch, bind, readFile,
    writer_events.
  rewrite Hf.
  destruct (existsb (String.eqb formType) supportedFormTypes);
    unfold ret, emit, writeFile; cbn [writable logged file]; rewrite Hw;
    cbn [file];
    destruct (includes _ (quoted formType ++ text_of ": {")); reflexivity.
Qed.

(** ** Running the save handler *)






(** ** [lastIndexOf] *)



(** ** What the writer leaves in place *)



Lemma writer_keeps_catalogue formType position st :
  signaturePositions
    (snd (updateSignaturePositionInSourceCode formType position st)) =
  signaturePositions st.
Proof.
  unfold updateSignaturePositionInSourceCode, try_catch, bind, readFile.
  destruct (file st) eqn:Hf; [|reflexivity].
  destruct (existsb (String.eqb formType) supportedFormTypes);
    unfold ret, emit, writeFile; cbn [writable logged file];
    destruct (writable st); cbn [file];
    try destruct (includes _ (quoted formType ++ text_of ": {")); reflexivity.
Qed.

(** * Blocks of other keys *)

(** ** The block pattern of a simple key, read off directly *)

Lemma run_chars l re s w :
  run (chars l ++ re) s w GNone =
  match strip l s with
  | Some s1 => run re s1 (rev l ++ w) GNone
  | None => None
  end.
Proof.
  revert s w. induction l as [|c l IH]; intros s w; [reflexivity|].
  cbn [chars map app run strip]. fold (chars l).
  destruct s as [|d s]; [reflexivity|].
  cbn [cset_mem]. destruct (Ascii.eqb c d) eqn:E; [|reflexivity].
  apply Ascii.eqb_eq in E. subst d. cbn [gpush]. rewrite IH.
  cbn [rev]. now rewrite <- app_assoc.
Qed.

Lemma simple_key_chars c formType :
  is_key_char c = false ->
  simple_key formType = true -> has c (text_of formType) = false.
Proof.
  unfold simple_key. intros Hc H. apply has_false. intros Hin.
  rewrite forallb_forall in H. specialize (H _ Hin). congruence.
Qed.

Lemma key_pattern_simple dotAll formType :
  simple_key formType = true ->
  key_pattern dotAll formType = chars (text_of formType).
Proof.
  intros H. pose proof (simple_key_chars "."%char formType eq_refl H) as Hd.
  unfold key_pattern, chars. revert Hd.
  induction (text_of formType) as [|c l IH]; [reflexivity|].
  rewrite has_cons. intros Hd. apply orb_false_elim in Hd.
  destruct Hd as [Hc Hl]. cbn [map]. rewrite Ascii.eqb_sym, Hc.
  now rewrite IH.
Qed.

Lemma run_body s w :
  repeat_set (run [One (CChar "}"%char)]) (CNot "}"%char) s w GNone =
  match body_at s with
  | Some (body, rest) =>
      Some {| whole := rev w ++ body ++ ["}"%char]; group1 := GNone;
              after := rest |}
  | None => None
  end.
Proof.
  revert w. induction s as [|c s IH]; intros w; [reflexivity|].
  cbn [repeat_set body_at cset_mem].
  destruct (Ascii.eqb "}" c) eqn:E; cbn [negb].
  - cbn [run cset_mem]. rewrite E. apply Ascii.eqb_eq in E. subst c.
    cbn [gpush run rev app]. reflexivity.
  - cbn [gpush]. rewrite IH.
    destruct (body_at s) as [[body rest]|].
    + cbn [rev]. now rewrite <- app_assoc.
    + cbn [run cset_mem]. now rewrite E.
Qed.

Lemma run_open s w :
  repeat_set (run [One (CChar "{"%char); Star (CNot "}"%char);
                   One (CChar "}"%char)]) CSpace s w GNone =
  match open_at s with
  | Some (ws, body, rest) =>
      Some {| whole := rev w ++ ws ++ "{"%char :: body ++ ["}"%char];
              group1 := GNone; after := rest |}
  | None => None
  end.
Proof.
  revert w. induction s as [|c s IH]; intros w; [reflexivity|].
  cbn [repeat_set open_at cset_mem].
  assert (run [One (CChar "{"%char); Star (CNot "}"%char);
               One (CChar "}"%char)] (c :: s) w GNone =
          if Ascii.eqb "{" c then
            match body_at s with
            | Some (body, rest) =>
                Some {| whole := rev w ++ "{"%char :: body ++ ["}"%char];
                        group1 := GNone; after := rest |}
            | None => None
            end
          else None) as Hk.
  { cbn [run cset_mem]. destruct (Ascii.eqb "{" c) eqn:E; [|reflexivity].
    apply Ascii.eqb_eq in E. subst c. cbn [gpush]. rewrite run_body.
    destruct (body_at s) as [[body rest]|]; [|reflexivity].
    cbn [rev]. now rewrite <- app_assoc. }
  destruct (is_space c) eqn:Es.
  - cbn [gpush]. rewrite IH.
    destruct (open_at s) as [[[ws body] rest]|].
    + cbn [rev]. now rewrite <- app_assoc.
    + rewrite Hk. destruct (Ascii.eqb "{" c) eqn:E; [|reflexivity].
      apply Ascii.eqb_eq in E. subst c. discriminate.
  - rewrite Hk. destruct (Ascii.eqb "{" c); [|reflexivity].
    now destruct (body_at s) as [[body rest]|].
Qed.

Lemma block_pattern_simple dotAll formType :
  simple_key formType = true ->
  block_pattern dotAll formType =
  chars (header formType) ++
  [Star CSpace; One (CChar "{"%char); Star (CNot "}"%char);
   One (CChar "}"%char)].
Proof.
  intros H. unfold block_pattern, header, quoted.
  rewrite (key_pattern_simple _ _ H). unfold chars.
  cbn [app map]. rewrite !map_app. cbn [map app].
  rewrite <- !app_assoc. reflexivity.
Qed.

Lemma exec_at_block dotAll formType s :
  simple_key formType = true ->
  exec_at (block_pattern dotAll formType) s =
  found_of formType (block_at formType s).
Proof.
  intros H. unfold exec_at, block_at.
  rewrite (block_pattern_simple _ _ H), run_chars.
  destruct (strip (header formType) s) as [s1|]; [|reflexivity].
  cbn [run]. rewrite run_open.
  destruct (open_at s1) as [[[ws body] rest]|]; [|reflexivity].
  cbn [found_of]. unfold block_text. rewrite app_nil_r, rev_involutive.
  reflexivity.
Qed.

Lemma strip_shape p s s1 : strip p s = Some s1 -> s = p ++ s1.
Proof.
  revert s. induction p as [|c p IH]; intros s; cbn [strip].
  - now intros [= <-].
  - destruct s as [|d s]; [discriminate|].
    destruct (Ascii.eqb c d) eqn:E; [|discriminate].
    apply Ascii.eqb_eq in E. subst d. intros H. cbn [app]. f_equal. auto.
Qed.

Lemma strip_app p s : strip p (p ++ s) = Some s.
Proof.
  induction p as [|c p IH]; [reflexivity|].
  cbn [app strip]. now rewrite Ascii.eqb_refl.
Qed.

Lemma body_at_shape s body rest :
  body_at s = Some (body, rest) ->
  s = body ++ "}"%char :: rest /\ has "}"%char body = false.
Proof.
  revert body. induction s as [|c s IH]; intros body; cbn [body_at];
    [discriminate|].
  destruct (Ascii.eqb "}" c) eqn:E.
  - apply Ascii.eqb_eq in E. subst c. intros [= <- <-]. now split.
  - destruct (body_at s) as [[b r]|]; [|discriminate].
    intros [= <- <-]. destruct (IH b eq_refl) as [-> Hb].
    split; [reflexivity|]. now rewrite has_cons, E, Hb.
Qed.

Lemma body_at_app l rest :
  has "}"%char l = false -> body_at (l ++ "}"%char :: rest) = Some (l, rest).
Proof.
  induction l as [|c l IH]; [reflexivity|].
  rewrite has_cons. intros H. apply orb_false_elim in H. destruct H as [Hc Hl].
  cbn [app body_at]. now rewrite Hc, IH.
Qed.

Lemma open_at_shape s ws body rest :
  open_at s = Some (ws, body, rest) ->
  s = ws ++ "{"%char :: body ++ "}"%char :: rest /\
  forallb is_space ws = true /\ has "}"%char body = false.
Proof.
  revert ws. induction s as [|c s IH]; intros ws; cbn [open_at];
    [discriminate|].
  destruct (is_space c) eqn:Es.
  - destruct (open_at s) as [[[w b] r]|]; [|discriminate].
    intros [= <- <- <-]. destruct (IH w eq_refl) as [-> [Hw Hb]].
    cbn [forallb app]. now rewrite Es.
  - destruct (Ascii.eqb "{" c) eqn:E; [|discriminate].
    apply Ascii.eqb_eq in E. subst c.
    destruct (body_at s) as [[b r]|] eqn:Eb; [|discriminate].
    intros [= <- <- <-]. apply body_at_shape in Eb. destruct Eb as [-> Hb].
    now repeat split.
Qed.

Lemma block_at_shape formType s ws body rest :
  block_at formType s = Some (ws, body, rest) ->
  s = block_text formType ws body ++ rest /\
  forallb is_space ws = true /\ has "}"%char body = false.
Proof.
  unfold block_at, block_text.
  destruct (strip (header formType) s) as [s1|] eqn:E; [|discriminate].
  apply strip_shape in E. subst s. intros H.
  apply open_at_shape in H. destruct H as [-> [Hw Hb]].
  split; [|now split].
  rewrite <- !app_assoc. cbn [app]. now rewrite <- !app_assoc.
Qed.




(** ** Headers of two keys *)

Lemma header_eq formType :
  header formType = dquote :: text_of formType ++ [dquote; ":"%char].
Proof. unfold header, quoted. cbn [app]. now rewrite <- app_assoc. Qed.


Lemma suffix_cases (k : text) p h2 :
  k ++ [dquote; ":"%char] = p ++ h2 ->
  h2 = [] \/ h2 = [":"%char] \/
  exists k2, h2 = k2 ++ [dquote; ":"%char] /\
             (has dquote k = false -> has dquote k2 = false).
Proof.
  revert p. induction k as [|a k IH]; intros p H.
  - destruct p as [|p0 [|p1 [|p2 p]]]; cbn [app] in H.
    + right. right. exists []. now subst h2.
    + injection H as _ <-. auto.
    + injection H as _ _ <-. auto.
    + destruct p; discriminate.
  - destruct p as [|p0 p]; cbn [app] in H.
    + right. right. exists (a :: k). now subst h2.
    + injection H as _ H. destruct (IH _ H) as [E|[E|[k2 [E Hk]]]]; auto.
      right. right. exists k2. split; [exact E|].
      rewrite has_cons. intros Hq. apply orb_false_elim in Hq. now apply Hk.
Qed.



Section Keys.

Variables formType other : string.
Hypothesis Hkey : simple_key formType = true.
Hypothesis Hother : simple_key other = true.



End Keys.

(** ** An attempt at a block across a change *)

(** [X] and [X'] are the two versions of the place where a text is
    changed; the text before, [u], is common. *)
Section Stable.

Variables X X' : text.
Variable cond : text -> text -> bool.
Variable Q : text -> text -> Prop.
Variables bX tX bX' tX' : text.

Hypothesis Hmono : forall c b t, cond (c :: b) t = true -> cond b t = true.
Hypothesis Hbody : body_at X = Some (bX, tX).
Hypothesis Hbody' : body_at X' = Some (bX', tX').
Hypothesis Hcond : cond bX tX = false.
Hypothesis Hopen : open_at X = None.
Hypothesis Hopen' : open_at X' = None.
Hypothesis HQ : forall u, Q (u ++ X) (u ++ X').




End Stable.

(** ** Searching past text that starts no block *)

Lemma block_at_needs_dquote formType s :
  match s with [] => True | c :: _ => Ascii.eqb dquote c = false end ->
  block_at formType s = None.
Proof.
  unfold block_at. rewrite header_eq. cbn [strip].
  destruct s as [|c s]; [reflexivity|]. now intros ->.
Qed.




Section Search.

Variables formType other : string.
Hypothesis Hkey : simple_key formType = true.
Hypothesis Hother : simple_key other = true.
Hypothesis Hne : other <> formType.





End Search.

(** ** Blocks of another key across a replacement *)

Lemma open_at_app ws s :
  forallb is_space ws = true ->
  open_at (ws ++ "{"%char :: s) =
  match body_at s with
  | Some (body, rest) => Some (ws, body, rest)
  | None => None
  end.
Proof.
  induction ws as [|c ws IH]; intros H.
  - cbn [app open_at]. change (is_space "{") with false. cbn.
    now destruct (body_at s) as [[b r]|].
  - cbn [forallb] in H. apply andb_prop in H. destruct H as [Hc Hw].
    cbn [app open_at]. rewrite Hc, (IH Hw).
    now destruct (body_at s) as [[b r]|].
Qed.

Lemma block_at_block_text formType ws body rest :
  forallb is_space ws = true ->
  has "}"%char body = false ->
  block_at formType (block_text formType ws body ++ rest) =
  Some (ws, body, rest).
Proof.
  intros Hw Hb. unfold block_at, block_text.
  rewrite <- app_assoc, strip_app.
  rewrite <- app_assoc. cbn [app]. rewrite (open_at_app _ _ Hw).
  rewrite <- app_assoc. cbn [app]. now rewrite (body_at_app _ _ Hb).
Qed.




Section Replace.

Variables formType other : string.
Hypothesis Hkey : simple_key formType = true.
Hypothesis Hother : simple_key other = true.
Hypothesis Hne : other <> formType.

Variables ws' body' : text.
Hypothesis Hws' : forallb is_space ws' = true.
Hypothesis Hbody' : has "}"%char body' = false.
Hypothesis Hflat' : has dquote body' = false.

Let new := block_text formType ws' body'.
Let re := block_pattern true formType.






End Replace.

(** ** Blocks of another key across an insertion *)

Lemma startsWith_shape s p : startsWith s p = true -> exists t, s = p ++ t.
Proof.
  revert s. induction p as [|c p IH]; intros s; cbn [startsWith].
  - intros _. now exists s.
  - destruct s as [|d s]; [discriminate|].
    intros H. apply andb_prop in H. destruct H as [E H].
    apply Ascii.eqb_eq in E. subst d. destruct (IH _ H) as [t ->].
    now exists t.
Qed.

Section Insert.

Variables formType other : string.
Hypothesis Hkey : simple_key formType = true.
Hypothesis Hother : simple_key other = true.
Hypothesis Hne : other <> formType.

Variables ws' body' : text.
Hypothesis Hws' : forallb is_space ws' = true.
Hypothesis Hbody' : has "}"%char body' = false.
Hypothesis Hflat' : has dquote body' = false.

Variable comma : text.
Hypothesis Hcomma : comma = [] \/ comma = text_of ",".

Variable Z : text.

Let new := block_text formType ws' body'.
Let pre := comma ++ newline :: text_of "  ".
Let rest := "}"%char :: ";"%char :: Z.






End Insert.

(** ** The writer and the blocks of another key *)

Lemma newPositionString_block_text formType position :
  newPositionString formType position =
  block_text formType [" "%char] (block_body position).
Proof.
  rewrite newPositionString_shape. unfold block_text, header.
  rewrite <- !app_assoc. reflexivity.
Qed.



(** * The claims *)

(** C1 (the code departs from the claim). The claim: a block in the
    canonical rendering is parsed from the text itself. The code: for every
    key without pattern syntax and every record, the block that the writer
    renders is found by the block pattern wherever it stands in a text
    without backslashes, but no field is taken out of it, because the field
    patterns ask for a backslash after the colon; the fresh read then gives
    what the catalogue object holds, not what the text says. *)
Theorem C1_rendered_block_found_but_not_extracted
    (formType : string) (position : SignaturePosition)
    (before rest : text) (st : store) :
  plain_key formType = true ->
  has backslash before = false ->
  has backslash rest = false ->
  file st = Some (before ++ newPositionString formType position ++ rest) ->
  search (block_pattern false formType)
    (before ++ newPositionString formType position ++ rest) <> None /\
  extractPosition
    (before ++ newPositionString formType position ++ rest) formType = None /\
  fst (getFreshSignaturePosition formType st) =
    Return (getSignaturePosition (signaturePositions st) formType) /\
  (formType <> ""%string ->
   fst (handleVerifySignaturePosition (Some formType) st) =
   Return {| status := 200;
             body := [("formType", JString formType);
                      ("directFileRead", JNull);
                      ("freshFunctionRead",
                       JValue (getSignaturePosition (signaturePositions st)
                                 formType));
                      ("match", JNull);
                      ("timestamp", JTime)]%string |}).
Proof.
  intros Hk Hb Hr Hf.
  assert (extractPosition
            (before ++ newPositionString formType position ++ rest) formType
          = None) as Hx.
  { apply extractPosition_without_backslash.
    now rewrite !has_app, Hb, Hr, newPositionString_lacks_backslash. }
  split; [|split; [exact Hx|split]].
  - destruct (block_pattern_matches false formType (block_body position) rest
                (block_body_lacks_brace position)) as [r [Hr' _]].
    apply (search_app_found _ _ _ r).
    rewrite <- Hr', newPositionString_shape. f_equal.
    rewrite <- !app_assoc. reflexivity.
  - rewrite (getFresh_readable _ _ _ Hf), Hx. reflexivity.
  - intros Hne. unfold handleVerifySignaturePosition, try_catch.
    assert (is_falsy (Some formType) = false) as Hfalsy.
    { cbn [is_falsy]. destruct (String.eqb formType "") eqn:E; [|reflexivity].
      apply String.eqb_eq in E. contradiction. }
    rewrite Hfalsy. cbn [property_name]. unfold bind at 1.
    unfold readFile. rewrite Hf. unfold bind at 1.
    erewrite getFresh_readable by (cbn [logged file]; exact Hf).
    rewrite Hx. reflexivity.
Qed.

Lemma C1_witness :
  search (block_pattern false "absa-form") config_source <> None /\
  extractPosition config_source "absa-form" = None /\
  fst (getFreshSignaturePosition "absa-form" initial_store) =
    Return (Position absa_record) /\
  fst (handleVerifySignaturePosition (Some "absa-form"%string) initial_store) =
    Return {| status := 200;
              body := [("formType", JString "absa-form");
                       ("directFileRead", JNull);
                       ("freshFunctionRead", JValue (Position absa_record));
                       ("match", JNull);
                       ("timestamp", JTime)]%string |}.
Proof.
  destruct (C1_rendered_block_found_but_not_extracted "absa-form" absa_record
              (firstn 428 config_source) (skipn 516 config_source)
              initial_store eq_refl eq_refl eq_refl eq_refl)
    as [H1 [H2 [H3 H4]]].
  split; [exact H1|]. split; [exact H2|]. split; [exact H3|].
  apply H4. discriminate.
Defined.






(** C4 (the code departs from the claim). The claim: a read of the external
    identifier ABSACertificate.pdf is resolved to absa-form. The code: the
    alias table maps the identifier to absa-form, but only the save handler
    consults it; the read handler looks the identifier up as it is and
    answers with the default record. *)
Theorem C4_read_of_alias_gives_default :
  lookup_alias pdfToFormMap "ABSACertificate.pdf" = Some "absa-form"%string /\
  get_property initial_catalogue "absa-form" = Position absa_record /\
  fst (handleGetSignaturePosition (Some "ABSACertificate.pdf"%string)
         initial_store) =
  Return {| status := 200;
            body := [("formId", JString "ABSACertificate.pdf");
                     ("position", JValue (Position default_record));
                     ("message", JString "Current signature position retrieved successfully (fresh read)")]%string |}.
Proof. repeat split; vm_compute; reflexivity. Qed.












(** C9. For all whole numbers x, y, width and height, and every key: a
    record whose input has no opacity is stored in the catalogue object with
    the opacity 0.7, and the block rendered for the file ends with the line
    of the opacity 0.7. *)
Theorem C9_absent_opacity_is_filled_with_default
    (a b c d : N) (formType : string)
    (catalogue : gmap string SignaturePosition) :
  let input := {| x := int a; y := int b; width := int c; height := int d;
                  opacity := None |} in
  updateSignaturePosition catalogue formType input !! formType =
    Some {| x := int a; y := int b; width := int c; height := int d;
            opacity := Some (Fin 7 1) |} /\
  toString (Fin 7 1) = text_of "0.7" /\
  newPositionString formType input =
    unlines [ quoted formType ++ text_of ": {";
              text_of "    x: " ++ toString (int a) ++ text_of ",";
              text_of "    y: " ++ toString (int b) ++ text_of ",";
              text_of "    width: " ++ toString (int c) ++ text_of ",";
              text_of "    height: " ++ toString (int d) ++ text_of ",";
              text_of "    opacity: 0.7";
              text_of "  }" ].
Proof.
  intros input. split; [|split].
  - unfold updateSignaturePosition. apply lookup_insert_eq.
  - reflexivity.
  - reflexivity.
Qed.

(** C10. For every record whose opacity is zero, the catalogue object and
    the rendered block hold what they hold for the same record without an
    opacity, namely 0.7; and whatever record is given, the opacity that is
    stored is not zero. *)
Theorem C10_zero_opacity_is_stored_as_default
    (a b c d : number) (e : nat) (formType : string)
    (catalogue : gmap string SignaturePosition) :
  let zero := {| x := a; y := b; width := c; height := d;
                 opacity := Some (Fin 0 e) |} in
  let absent := {| x := a; y := b; width := c; height := d;
                   opacity := None |} in
  updateSignaturePosition catalogue formType zero =
    updateSignaturePosition catalogue formType absent /\
  updateSignaturePosition catalogue formType zero !! formType =
    Some {| x := a; y := b; width := c; height := d;
            opacity := Some (Fin 7 1) |} /\
  newPositionString formType zero = newPositionString formType absent /\
  (exists lines,
     newPositionString formType zero =
     unlines (lines ++ [text_of "    opacity: 0.7"; text_of "  }"])) /\
  (forall position : SignaturePosition,
     exists stored,
       updateSignaturePosition catalogue formType position !! formType =
         Some stored /\
       exists o, opacity stored = Some o /\ truthy_number o = true /\
                 strict_eq o (Fin 0 0) = false).
Proof.
  intros zero absent. repeat split.
  - unfold updateSignaturePosition. apply lookup_insert_eq.
  - exists [ quoted formType ++ text_of ": {";
             text_of "    x: " ++ toString a ++ text_of ",";
             text_of "    y: " ++ toString b ++ text_of ",";
             text_of "    width: " ++ toString c ++ text_of ",";
             text_of "    height: " ++ toString d ++ text_of "," ].
    reflexivity.
  - intros position. eexists. split.
    + unfold updateSignaturePosition. apply lookup_insert_eq.
    + cbn [opacity]. eexists. split; [reflexivity|].
      unfold opacity_or_default.
      destruct (opacity position) as [[|m k]|]; cbn [truthy_number];
        try (split; reflexivity).
      destruct (m =? 0)%Z eqn:E; cbn [negb truthy_number strict_eq];
        [split; reflexivity|].
      split; [now rewrite E|].
      unfold pow10. cbn [Z.of_nat].
      apply Z.eqb_neq in E. apply Z.eqb_neq.
      rewrite Z.mul_0_l. cbn [Z.pow]. lia.
Qed.

(** * Further properties of the code *)

(** ** The catalogue object *)

Lemma opacity_or_default_truthy o :
  truthy_number (opacity_or_default o) = true.
Proof.
  destruct o as [a|]; [|reflexivity]. cbn [opacity_or_default].
  destruct (truthy_number a) eqn:E; [exact E|reflexivity].
Qed.

Lemma opacity_or_default_again o :
  opacity_or_default (Some (opacity_or_default o)) = opacity_or_default o.
Proof.
  cbn [opacity_or_default]. now rewrite opacity_or_default_truthy.
Qed.

Lemma get_property_update catalogue formType position :
  get_property (updateSignaturePosition catalogue formType position) formType =
  Position (stored_record position).
Proof.
  unfold get_property, updateSignaturePosition. now rewrite lookup_insert_eq.
Qed.

Lemma get_property_update_other catalogue formType other position :
  other <> formType ->
  get_property (updateSignaturePosition catalogue formType position) other =
  get_property catalogue other.
Proof.
  intros H. unfold get_property, updateSignaturePosition.
  now rewrite lookup_insert_ne by congruence.
Qed.

(** X1. What is stored under a key (other than [__proto__], which an assignment
    does not make an entry of) is what a later lookup of the key gives; the
    lookups of the other keys give what they gave, except that an update of
    the key default shows under every key that has nothing of its own. *)
Theorem X1_update_then_get
    (catalogue : gmap string SignaturePosition) (formType other : string)
    (position : SignaturePosition) :
  formType <> "__proto__"%string ->
  let catalogue' := updateSignaturePosition catalogue formType position in
  getSignaturePosition catalogue' formType = Position (stored_record position) /\
  (other <> formType ->
   get_property catalogue' other = get_property catalogue other) /\
  (other <> formType -> formType <> "default"%string ->
   getSignaturePosition catalogue' other =
   getSignaturePosition catalogue other) /\
  (formType = "default"%string -> get_property catalogue other = Undefined ->
   getSignaturePosition catalogue' other = Position (stored_record position)).
Proof.
  intros _ catalogue'. unfold catalogue'. repeat split.
  - unfold getSignaturePosition. now rewrite get_property_update.
  - apply get_property_update_other.
  - intros Ho Hd. unfold getSignaturePosition.
    rewrite !get_property_update_other by congruence. reflexivity.
  - intros -> Hu. unfold getSignaturePosition.
    destruct (String.eqb_spec other "default") as [->|Hne].
    + now rewrite get_property_update.
    + rewrite get_property_update_other by exact Hne.
      rewrite Hu. cbn [truthy]. apply get_property_update.
Qed.

Lemma X1_witness :
  let catalogue' :=
    updateSignaturePosition initial_catalogue "default"
      (record_of 1 2 3 4 None) in
  getSignaturePosition catalogue' "default" =
    Position (record_of 1 2 3 4 (Some (Fin 7 1))) /\
  get_property catalogue' "absa-form" = Position absa_record /\
  getSignaturePosition catalogue' "no-such-form" =
    Position (record_of 1 2 3 4 (Some (Fin 7 1))).
Proof.
  assert ("default"%string <> "__proto__"%string) as Hp by discriminate.
  destruct (X1_update_then_get initial_catalogue "default" "absa-form"
              (record_of 1 2 3 4 None) Hp) as [H1 [H2 _]].
  destruct (X1_update_then_get initial_catalogue "default" "no-such-form"
              (record_of 1 2 3 4 None) Hp) as [_ [_ [_ H4]]].
  split; [exact H1|]. split.
  - rewrite H2 by discriminate. reflexivity.
  - apply H4; reflexivity.
Defined.

(** X2. Updates compose as assignments do: of two updates of a key the later
    one stays, updates of different keys can be swapped, and storing again
    the record that was stored changes nothing. *)
Theorem X2_updates_compose
    (catalogue : gmap string SignaturePosition) (formType other : string)
    (p q : SignaturePosition) :
  formType <> "__proto__"%string ->
  other <> "__proto__"%string ->
  updateSignaturePosition (updateSignaturePosition catalogue formType p)
    formType q = updateSignaturePosition catalogue formType q /\
  (other <> formType ->
   updateSignaturePosition (updateSignaturePosition catalogue formType p)
     other q =
   updateSignaturePosition (updateSignaturePosition catalogue other q)
     formType p) /\
  updateSignaturePosition (updateSignaturePosition catalogue formType p)
    formType (stored_record p) = updateSignaturePosition catalogue formType p.
Proof.
  intros _ _. unfold updateSignaturePosition. repeat split.
  - apply insert_insert_eq.
  - intros Hne. apply insert_insert_ne. congruence.
  - rewrite insert_insert_eq. cbn [stored_record x y width height opacity].
    now rewrite opacity_or_default_again.
Qed.

Lemma X2_witness :
  updateSignaturePosition
    (updateSignaturePosition initial_catalogue "absa-form" moved_record)
    "absa-form" absa_record =
  updateSignaturePosition initial_catalogue "absa-form" absa_record /\
  updateSignaturePosition
    (updateSignaturePosition initial_catalogue "absa-form" moved_record)
    "default" absa_record =
  updateSignaturePosition
    (updateSignaturePosition initial_catalogue "default" absa_record)
    "absa-form" moved_record.
Proof.
  assert ("absa-form"%string <> "__proto__"%string) as H1 by discriminate.
  assert ("default"%string <> "__proto__"%string) as H2 by discriminate.
  destruct (X2_updates_compose initial_catalogue "absa-form" "default"
              moved_record absa_record H1 H2) as [Ha [Hb _]].
  split; [exact Ha|]. apply Hb. discriminate.
Defined.

(** ** What the field patterns capture *)

Lemma search_exec re s r :
  search re s = Some r -> exists t, exec_at re t = Some r.
Proof.
  induction s as [|c s IH]; cbn [search]; intros H.
  - destruct (exec_at re []) eqn:E; [|discriminate]. exists []. congruence.
  - destruct (exec_at re (c :: s)) eqn:E.
    + exists (c :: s). congruence.
    + auto.
Qed.

(** Before the group is opened, a repetition hands on what it was given. *)
Lemma repeat_set_before_group k p s w r :
  repeat_set k p s w GNone = Some r ->
  exists s' w', k s' w' GNone = Some r.
Proof.
  revert w. induction s as [|c s IH]; intros w; cbn [repeat_set]; intros H.
  - eauto.
  - destruct (cset_mem p c); [|eauto].
    cbn [gpush] in H.
    destruct (repeat_set k p s (c :: w) GNone) eqn:E; [|eauto].
    injection H as ->. eauto.
Qed.

(** A repetition inside the group that the end of the pattern closes:
    the group holds what it held, and characters of the set. *)
Lemma repeat_set_in_group p s w acc r :
  repeat_set (run [Close]) p s w (GOpen acc) = Some r ->
  exists l, group1 r = GDone (rev acc ++ l) /\ forallb (cset_mem p) l = true.
Proof.
  revert w acc. induction s as [|c s IH]; intros w acc; cbn [repeat_set].
  - cbn [run gclose]. intros [= <-]. exists []. cbn [group1 forallb].
    now rewrite app_nil_r.
  - destruct (cset_mem p c) eqn:Hc.
    + cbn [gpush].
      destruct (repeat_set (run [Close]) p s (c :: w) (GOpen (c :: acc)))
        as [r'|] eqn:E.
      * intros [= <-]. destruct (IH _ _ E) as [l [Hl Hall]].
        exists (c :: l). cbn [rev] in Hl. rewrite <- app_assoc in Hl.
        split; [exact Hl|]. cbn [forallb]. now rewrite Hc, Hall.
      * cbn [run gclose]. intros [= <-]. exists []. cbn [group1 forallb].
        now rewrite app_nil_r.
    + cbn [run gclose]. intros [= <-]. exists []. cbn [group1 forallb].
      now rewrite app_nil_r.
Qed.

(** The patterns of x, y, width and height: what they capture starts with
    a backslash. *)
Lemma whole_field_capture (name : text) s r :
  search (chars name ++
          [One (CChar backslash); Star (CChar "s"%char);
           Open; One (CChar backslash); Plus (CChar "d"%char); Close]) s =
    Some r ->
  exists t, capture r = backslash :: t.
Proof.
  intros H. apply search_exec in H. destruct H as [t H].
  unfold exec_at in H. rewrite run_chars in H.
  destruct (strip name t) as [t1|]; [|discriminate].
  cbn [run] in H. destruct t1 as [|c t1]; [discriminate|].
  destruct (cset_mem (CChar backslash) c); [|discriminate].
  cbn [gpush] in H. apply repeat_set_before_group in H.
  destruct H as [s' [w' H]]. cbn [run] in H.
  destruct s' as [|c1 s']; [discriminate|].
  destruct (cset_mem (CChar backslash) c1) eqn:H1; [|discriminate].
  destruct s' as [|c2 s']; [discriminate|].
  destruct (cset_mem (CChar "d"%char) c2); [|discriminate].
  cbn [gpush] in H. apply repeat_set_in_group in H.
  destruct H as [l [Hl _]]. unfold capture. rewrite Hl.
  cbn [cset_mem] in H1. apply Ascii.eqb_eq in H1. subst c1.
  cbn [rev app]. eauto.
Qed.

(** The pattern of the opacity: what it captures is made of backslashes,
    the letter d and dots. *)
Lemma opacity_capture s r :
  search opacity_pattern s = Some r ->
  forallb (cset_mem (CAny [backslash; "d"%char; "."%char])) (capture r) = true.
Proof.
  intros H. apply search_exec in H. destruct H as [t H].
  unfold exec_at, opacity_pattern in H. rewrite run_chars in H.
  destruct (strip (text_of "opacity:") t) as [t1|]; [|discriminate].
  cbn [run] in H. destruct t1 as [|c t1]; [discriminate|].
  destruct (cset_mem (CChar backslash) c); [|discriminate].
  cbn [gpush] in H. apply repeat_set_before_group in H.
  destruct H as [s' [w' H]]. cbn [run] in H.
  destruct s' as [|c1 s']; [discriminate|].
  destruct (cset_mem (CAny [backslash; "d"%char; "."%char]) c1) eqn:H1;
    [|discriminate].
  cbn [gpush] in H. apply repeat_set_in_group in H.
  destruct H as [l [Hl Hall]]. unfold capture. rewrite Hl.
  cbn [rev app forallb]. now rewrite H1, Hall.
Qed.

Lemma parseInt_backslash t : parseInt (backslash :: t) = NaN.
Proof. destruct t; reflexivity. Qed.

Lemma opacity_char c :
  cset_mem (CAny [backslash; "d"%char; "."%char]) c = true ->
  c = backslash \/ c = "d"%char \/ c = "."%char.
Proof.
  cbn [cset_mem existsb]. rewrite !orb_true_iff, !Ascii.eqb_eq.
  intros [H|[H|[H|H]]]; auto. discriminate.
Qed.

Lemma parseFloat_opacity_capture l :
  forallb (cset_mem (CAny [backslash; "d"%char; "."%char])) l = true ->
  parseFloat l = NaN.
Proof.
  destruct l as [|c l]; [reflexivity|]. cbn [forallb].
  rewrite andb_true_iff. intros [Hc Hl].
  destruct (opacity_char _ Hc) as [-> | [-> | ->]]; try reflexivity.
  destruct l as [|c' l]; [reflexivity|]. cbn [forallb] in Hl.
  apply andb_true_iff in Hl. destruct Hl as [Hc' _].
  destruct (opacity_char _ Hc') as [-> | [-> | ->]]; reflexivity.
Qed.


(** X3. Whatever the reader takes out of a text is not a number: the field
    patterns capture a backslash before the letters d, so that x, y, width
    and height are NaN; the opacity is NaN where its pattern matches and 0.7
    where it does not. *)
Theorem X3_extracted_fields_are_NaN
    (fileContent : text) (formType : string) (p : SignaturePosition) :
  extractPosition fileContent formType = Some p ->
  x p = NaN /\ y p = NaN /\ width p = NaN /\ height p = NaN /\
  (opacity p = Some NaN \/ opacity p = Some default_opacity).
Proof.
  unfold extractPosition.
  destruct (search (block_pattern false formType) fileContent) as [m|];
    [|discriminate].
  destruct (search x_pattern (whole m)) as [xm|] eqn:Hx; [|discriminate].
  destruct (search y_pattern (whole m)) as [ym|] eqn:Hy; [|discriminate].
  destruct (search width_pattern (whole m)) as [wm|] eqn:Hw; [|discriminate].
  destruct (search height_pattern (whole m)) as [hm|] eqn:Hh; [|discriminate].
  intros [= <-]. cbn [x y width height opacity].
  destruct (whole_field_capture (text_of "x:") _ _ Hx) as [tx ->].
  destruct (whole_field_capture (text_of "y:") _ _ Hy) as [ty ->].
  destruct (whole_field_capture (text_of "width:") _ _ Hw) as [tw ->].
  destruct (whole_field_capture (text_of "height:") _ _ Hh) as [th ->].
  rewrite !parseInt_backslash. repeat split.
  destruct (search opacity_pattern (whole m)) as [om|] eqn:Ho; [|now right].
  left. now rewrite (parseFloat_opacity_capture _ (opacity_capture _ _ Ho)).
Qed.

Lemma X3_witness :
  let p := {| x := NaN; y := NaN; width := NaN; height := NaN;
              opacity := Some default_opacity |} in
  extractPosition nested_source "b" = Some p /\
  x p = NaN /\ y p = NaN /\ width p = NaN /\ height p = NaN /\
  (opacity p = Some NaN \/ opacity p = Some default_opacity).
Proof.
  split; [vm_compute; reflexivity|].
  apply (X3_extracted_fields_are_NaN nested_source "b"). vm_compute. reflexivity.
Defined.

(** ** What the computations leave as it is *)

Section Frame.

Context {B : Type}.
Variable f : store -> B.
Hypothesis Hlog : forall e st, f (logged e st) = f st.

Lemma preserves_ret {A} (a : A) : preserves f (ret a).
Proof. intros st. reflexivity. Qed.

Lemma preserves_throw {A} e : preserves f (@throw A e).
Proof. intros st. reflexivity. Qed.

Lemma preserves_emit e : preserves f (emit e).
Proof. intros st. apply Hlog. Qed.

Lemma preserves_readFile : preserves f readFile.
Proof. intros st. unfold readFile. destruct (file st); apply Hlog. Qed.

Lemma preserves_imported : preserves f imported.
Proof. intros st. reflexivity. Qed.

Lemma preserves_bind {A C} (m : M A) (k : A -> M C) :
  preserves f m -> (forall a, preserves f (k a)) -> preserves f (bind m k).
Proof.
  intros Hm Hk st. unfold bind. specialize (Hm st).
  destruct (m st) as [[a|e] st1]; cbn [snd] in *; [|exact Hm].
  now rewrite Hk.
Qed.

Lemma preserves_try_catch {A} (m : M A) h :
  preserves f m -> (forall e, preserves f (h e)) ->
  preserves f (try_catch m h).
Proof.
  intros Hm Hh st. unfold try_catch. specialize (Hm st).
  destruct (m st) as [[a|e] st1]; cbn [snd] in *; [exact Hm|].
  now rewrite Hh.
Qed.

Lemma preserves_property_of field v : preserves f (property_of field v).
Proof. intros st. destruct v; reflexivity. Qed.

Lemma preserves_getFresh formType :
  preserves f (getFreshSignaturePosition formType).
Proof.
  unfold getFreshSignaturePosition, fallbackPosition.
  apply preserves_try_catch.
  - apply preserves_bind; [apply preserves_readFile|]. intros fileContent.
    destruct (extractPosition fileContent formType); [apply preserves_ret|].
    apply preserves_bind; [apply preserves_imported|]. intros c.
    apply preserves_ret.
  - intros e. apply preserves_bind; [apply preserves_emit|]. intros _.
    apply preserves_bind; [apply preserves_imported|]. intros c.
    apply preserves_ret.
Qed.

End Frame.

Lemma is_falsy_Some s : s <> ""%string -> is_falsy (Some s) = false.
Proof.
  intros H. cbn [is_falsy]. destruct (String.eqb_spec s ""); [contradiction|].
  reflexivity.
Qed.

Lemma disk_and_catalogue_logged e st :
  disk_and_catalogue (logged e st) = disk_and_catalogue st.
Proof. reflexivity. Qed.

Lemma signaturePositions_logged e st :
  signaturePositions (logged e st) = signaturePositions st.
Proof. reflexivity. Qed.

(** ** The read handlers *)






(** ** The save handler *)



Lemma preserves_writer formType position :
  preserves signaturePositions
    (updateSignaturePositionInSourceCode formType position).
Proof. intros st. apply writer_keeps_catalogue. Qed.

Lemma save_updates_catalogue req input st :
  position req = Some input ->
  is_falsy (pdfName req) = false ->
  let formType := actualFormType (property_name (pdfName req)) (formType req) in
  exists r st',
    handleSavePDFSignaturePosition req st = (Return r, st') /\
    signaturePositions st' =
    updateSignaturePosition (signaturePositions st) formType
      (newPosition input).
Proof.
  intros Hp Hn formType.
  unfold handleSavePDFSignaturePosition, try_catch. rewrite Hp, Hn.
  fold formType. unfold bind at 1.
  destruct (getFresh_returns formType st) as (v & st1 & E & _ & _ & Hc1).
  rewrite E. unfold bind at 1. unfold imported.
  unfold bind at 1. unfold assign_catalogue. rewrite Hc1.
  match goal with
  | |- context [bind ?m ?k ?s] => set (tail := bind m k); set (st2 := s)
  end.
  assert (preserves signaturePositions tail) as Htail.
  { unfold tail.
    repeat first
      [ apply preserves_writer
      | apply preserves_getFresh
      | apply preserves_property_of
      | apply preserves_ret
      | apply preserves_emit
      | apply preserves_bind; [|intros ?]
      | match goal with
        | |- preserves _ (if ?b then _ else _) => destruct b
        end
      | exact signaturePositions_logged
      | unfold clearModuleCache ]. }
  specialize (Htail st2).
  destruct (tail st2) as [[r|e] st3]; cbn [fst snd] in *.
  - eexists _, _. split; [reflexivity|exact Htail].
  - eexists _, _. split; [reflexivity|exact Htail].
Qed.





(** ** The key that a save is filed under *)

Lemma alias_targets pdf v :
  lookup_alias pdfToFormMap pdf = Some v ->
  In v supportedFormTypes /\ v <> ""%string /\ v <> "__proto__"%string.
Proof.
  unfold pdfToFormMap. cbn [lookup_alias].
  repeat match goal with
         | |- context [String.eqb pdf ?s] => destruct (String.eqb pdf s)
         end;
    intros [= <-]; (split; [cbn; tauto|split; discriminate]).
Qed.

(** X9. A form type given with the request is the key, whatever the PDF name;
    without one the key is the alias of the PDF name, which is always a
    supported form type, or the key default for every PDF name that the
    table does not list. *)
Theorem X9_resolved_key (pdf : string) (given : option string) :
  existsb (String.eqb pdf) object_prototype_members = false ->
  (is_falsy given = false ->
   actualFormType pdf given = property_name given) /\
  (is_falsy given = true ->
   actualFormType pdf given =
     match lookup_alias pdfToFormMap pdf with
     | Some alias => alias
     | None => "default"%string
     end /\
   In (actualFormType pdf given) supportedFormTypes).
Proof.
  intros _. split; intros H; unfold actualFormType; rewrite H; [reflexivity|].
  assert (lookup_alias pdfToFormMap (property_name given) = None) as ->.
  { destruct given as [s|]; [|reflexivity].
    cbn [is_falsy] in H. apply String.eqb_eq in H. now subst s. }
  destruct (lookup_alias pdfToFormMap pdf) as [alias|] eqn:E.
  - destruct (alias_targets _ _ E) as [Hin [Hne _]].
    assert (forall b, or_else (Some alias) b = Some alias) as ->.
    { intros b. unfold or_else. now rewrite (is_falsy_Some _ Hne). }
    cbn [property_name]. split; [reflexivity|exact Hin].
  - cbn. split; [reflexivity|tauto].
Qed.

Lemma X9_witness :
  actualFormType "ABSACertificate.pdf" (Some "my-form"%string) =
    "my-form"%string /\
  actualFormType "ABSACertificate.pdf" None = "absa-form"%string /\
  actualFormType "Unlisted.pdf" (Some ""%string) = "default"%string.
Proof.
  destruct (X9_resolved_key "ABSACertificate.pdf" (Some "my-form"%string) eq_refl)
    as [H1 _].
  destruct (X9_resolved_key "ABSACertificate.pdf" None eq_refl) as [_ H2].
  destruct (X9_resolved_key "Unlisted.pdf" (Some ""%string) eq_refl) as [_ H3].
  split; [exact (H1 eq_refl)|]. split.
  - exact (proj1 (H2 eq_refl)).
  - exact (proj1 (H3 eq_refl)).
Defined.

(** X10. A save for a PDF name that the alias table does not list, with no form
    type, is filed under the key default: afterwards every key that has
    nothing of its own in the catalogue object is looked up as the rectangle
    of that request. *)
Theorem X10_unlisted_pdf_overwrites_default
    (req : SaveRequest) (input : SignaturePosition) (st : store)
    (pdf other : string) :
  position req = Some input ->
  pdfName req = Some pdf ->
  pdf <> ""%string ->
  existsb (String.eqb pdf) object_prototype_members = false ->
  lookup_alias pdfToFormMap pdf = None ->
  is_falsy (formType req) = true ->
  get_property (signaturePositions st) other = Undefined ->
  let st' := snd (handleSavePDFSignaturePosition req st) in
  signaturePositions st' !! "default"%string = Some (newPosition input) /\
  getSignaturePosition (signaturePositions st') other =
    Position (newPosition input).
Proof.
  intros Hp Hpdf Hne _ Halias Hgiven Hother st'.
  assert (is_falsy (pdfName req) = false) as Hn
    by (rewrite Hpdf; now apply is_falsy_Some).
  destruct (save_updates_catalogue req input st Hp Hn) as (r & st3 & Hr & Hc).
  assert (actualFormType (property_name (pdfName req)) (formType req) =
          "default"%string) as Hkey.
  { unfold actualFormType. rewrite Hgiven, Hpdf. cbn [property_name].
    rewrite Halias.
    assert (lookup_alias pdfToFormMap (property_name (formType req)) = None)
      as ->; [|reflexivity].
    destruct (formType req) as [s|]; [|reflexivity].
    cbn [is_falsy] in Hgiven. apply String.eqb_eq in Hgiven. now subst s. }
  rewrite Hkey in Hc. unfold st'. rewrite Hr. cbn [snd]. rewrite Hc. split.
  - unfold updateSignaturePosition. apply lookup_insert_eq.
  - unfold getSignaturePosition.
    destruct (String.eqb_spec other "default") as [->|Ho].
    + now rewrite get_property_update.
    + rewrite get_property_update_other by exact Ho.
      rewrite Hother. cbn [truthy]. apply get_property_update.
Qed.

Lemma X10_witness :
  let st' := snd (handleSavePDFSignaturePosition unlisted_request
                    initial_store) in
  signaturePositions st' !! "default"%string =
    Some (record_of 1 2 3 4 (Some (Fin 7 1))) /\
  getSignaturePosition (signaturePositions st') "some-other-form" =
    Position (record_of 1 2 3 4 (Some (Fin 7 1))).
Proof.
  assert ("Unlisted.pdf"%string <> ""%string) as Hne by discriminate.
  exact (X10_unlisted_pdf_overwrites_default unlisted_request moved_record
           initial_store "Unlisted.pdf" "some-other-form"
           eq_refl eq_refl Hne eq_refl eq_refl eq_refl eq_refl).
Defined.

(** ** A save that writes no block *)

Lemma includes_cons c s p :
  includes (c :: s) p = false ->
  startsWith (c :: s) p = false /\ includes s p = false.
Proof. cbn [includes]. apply orb_false_elim. Qed.

Lemma strip_startsWith p q s s1 :
  strip (p ++ q) s = Some s1 -> startsWith s p = true.
Proof.
  revert s. induction p as [|c p IH]; intros s; [now destruct s|].
  destruct s as [|d s]; cbn [app strip startsWith]; [discriminate|].
  destruct (Ascii.eqb c d); [|discriminate]. apply IH.
Qed.





(** ** Keys that name a member of [Object.prototype] *)

(** X12. A key that names a member of [Object.prototype] and has no entry and
    no block is not answered with the default record: the lookup finds the
    inherited member, which is truthy, and the handler answers 200 with
    it. *)
Theorem X12_inherited_member_is_answered (formId : string) (st : store) :
  In formId object_prototype_members ->
  signaturePositions st !! formId = None ->
  (forall fileContent, file st = Some fileContent ->
     has backslash fileContent = false) ->
  getSignaturePosition (signaturePositions st) formId = Inherited formId /\
  fst (handleGetSignaturePosition (Some formId) st) =
    Return {| status := 200;
              body := [("formId", JString formId);
                       ("position", JValue (Inherited formId));
                       ("message", JString "Current signature position retrieved successfully (fresh read)")]%string |}.
Proof.
  intros Hin Hnone Hfile.
  assert (formId <> ""%string) as Hne.
  { intros ->. cbn in Hin. repeat destruct Hin as [Hin|Hin]; discriminate || auto. }
  assert (getSignaturePosition (signaturePositions st) formId =
          Inherited formId) as Hget.
  { unfold getSignaturePosition, get_property. rewrite Hnone.
    assert (existsb (String.eqb formId) object_prototype_members = true) as ->.
    { apply existsb_exists. exists formId. split; [exact Hin|].
      apply String.eqb_refl. }
    reflexivity. }
  split; [exact Hget|].
  unfold handleGetSignaturePosition, try_catch.
  rewrite (is_falsy_Some _ Hne). cbn [property_name]. unfold bind.
  destruct (file st) as [fileContent|] eqn:Hf.
  - rewrite (getFresh_readable _ _ _ Hf).
    rewrite (extractPosition_without_backslash _ _ (Hfile _ eq_refl)).
    now rewrite Hget.
  - rewrite (getFresh_unreadable _ _ Hf). now rewrite Hget.
Qed.

Lemma X12_witness :
  getSignaturePosition initial_catalogue "constructor" =
    Inherited "constructor" /\
  fst (handleGetSignaturePosition (Some "constructor"%string) initial_store) =
    Return {| status := 200;
              body := [("formId", JString "constructor");
                       ("position", JValue (Inherited "constructor"));
                       ("message", JString "Current signature position retrieved successfully (fresh read)")]%string |}.
Proof.
  apply (X12_inherited_member_is_answered "constructor" initial_store).
  - cbn. tauto.
  - vm_compute. reflexivity.
  - intros fileContent [= <-]. vm_compute. reflexivity.
Defined.

(** ** The admin guard *)

Lemma text_eqb_eq a b : text_eqb a b = true <-> a = b.
Proof.
  revert b. induction a as [|c a IH]; intros [|d b]; cbn [text_eqb];
    try (split; (reflexivity || discriminate)).
  rewrite andb_true_iff, Ascii.eqb_eq, IH. split.
  - now intros [-> ->].
  - now intros [= -> ->].
Qed.

Lemma replaceFirst_absent s p r :
  includes s p = false -> replaceFirst s p r = s.
Proof.
  induction s as [|c s IH]; cbn [includes replaceFirst]; intros H;
    apply orb_false_elim in H; destruct H as [H1 H2]; rewrite H1.
  - reflexivity.
  - now rewrite IH.
Qed.

Lemma startsWith_nil s : startsWith s [] = true.
Proof. now destruct s. Qed.

Lemma startsWith_prefix p s : startsWith (p ++ s) p = true.
Proof.
  induction p as [|c p IH]; cbn [app]; [apply startsWith_nil|].
  cbn [startsWith]. now rewrite Ascii.eqb_refl.
Qed.

Lemma replaceFirst_unfold s p r :
  replaceFirst s p r =
  if startsWith s p then r ++ skipn (length p) s
  else match s with
       | [] => []
       | c :: s' => c :: replaceFirst s' p r
       end.
Proof. now destruct s. Qed.

Lemma replaceFirst_prefix p r s : replaceFirst (p ++ s) p r = r ++ s.
Proof.
  rewrite replaceFirst_unfold, startsWith_prefix. f_equal.
  induction p as [|c p IH]; [reflexivity|exact IH].
Qed.

Lemma requireAdmin_userId (userId : text) :
  (if negb (text_eqb userId (text_of "admin-1"))
   then Answered (failure 403 "Admin access required") else Next) = Next <->
  userId = text_of "admin-1".
Proof.
  rewrite <- text_eqb_eq.
  destruct (text_eqb userId (text_of "admin-1")); cbn [negb];
    split; (reflexivity || discriminate).
Qed.

(** X13. On a header of the form [Bearer mock-token-<user>] the guard hands the
    request on exactly when the user is admin-1; every other user, a
    request without the header and one with an empty header are answered
    403. *)
Theorem X13_guard_admits_admin_only (user : text) :
  (requireAdmin (Some (text_of "Bearer mock-token-" ++ user)) = Next <->
   user = text_of "admin-1") /\
  (user <> text_of "admin-1" ->
   requireAdmin (Some (text_of "Bearer mock-token-" ++ user)) =
   Answered (failure 403 "Admin access required")) /\
  requireAdmin None = Answered (failure 403 "Admin access required") /\
  requireAdmin (Some []) = Answered (failure 403 "Admin access required").
Proof.
  assert (requireAdmin (Some (text_of "Bearer mock-token-" ++ user)) =
          if negb (text_eqb user (text_of "admin-1"))
          then Answered (failure 403 "Admin access required") else Next) as E.
  { change (text_of "Bearer mock-token-" ++ user)
      with (text_of "Bearer " ++ text_of "mock-token-" ++ user).
    unfold requireAdmin. rewrite replaceFirst_prefix. cbn [app].
    pose proof (replaceFirst_prefix (text_of "mock-token-") [] user) as Hu.
    cbn [app] in Hu.
    set (token := text_of "mock-token-" ++ user) in *.
    assert (exists c t, token = c :: t) as (c & t & Ht)
      by (eexists _, _; reflexivity).
    rewrite Ht in *. now rewrite Hu. }
  rewrite E. split; [apply requireAdmin_userId|].
  split; [|split; reflexivity].
  intros Hne. destruct (text_eqb user (text_of "admin-1")) eqn:Eq;
    [|reflexivity].
  apply text_eqb_eq in Eq. contradiction.
Qed.

(** X14. The guard does not ask for the form of the header: it removes the
    first [Bearer ] and then the first [mock-token-], wherever they stand,
    so that a header with neither of them is admitted exactly when it is
    the bare user id admin-1. *)
Theorem X14_guard_reads_bare_user_id (header : text) :
  includes header (text_of "Bearer ") = false ->
  includes header (text_of "mock-token-") = false ->
  (requireAdmin (Some header) = Next <-> header = text_of "admin-1").
Proof.
  intros Hb Hm. unfold requireAdmin.
  rewrite (replaceFirst_absent _ _ _ Hb).
  destruct header as [|c t].
  - cbn. split; discriminate.
  - rewrite (replaceFirst_absent _ _ _ Hm). apply requireAdmin_userId.
Qed.

Lemma X14_witness :
  requireAdmin (Some (text_of "admin-1")) = Next.
Proof.
  apply (X14_guard_reads_bare_user_id (text_of "admin-1")); reflexivity.
Defined.


(** ** Names of variables and columns *)

Ltac by_cases_on_ascii c :=
  destruct c as [[] [] [] [] [] [] [] []]; reflexivity.

Lemma sanitized_is_word c :
  is_word (if is_alphanumeric c then c else "_"%char) = true.
Proof. by_cases_on_ascii c. Qed.

Lemma sanitized_again c :
  is_word c = true -> (if is_alphanumeric c then c else "_"%char) = c.
Proof.
  destruct c as [[] [] [] [] [] [] [] []]; (reflexivity || discriminate).
Qed.

Lemma lower_word c : is_word c = true -> is_column_char (lower c) = true.
Proof.
  destruct c as [[] [] [] [] [] [] [] []]; (reflexivity || discriminate).
Qed.

Lemma column_char_word c : is_column_char c = true -> is_word c = true.
Proof.
  destruct c as [[] [] [] [] [] [] [] []]; (reflexivity || discriminate).
Qed.

Lemma lower_column_char c : is_column_char c = true -> lower c = c.
Proof.
  destruct c as [[] [] [] [] [] [] [] []]; (reflexivity || discriminate).
Qed.

Lemma pdfVariable_words id : forallb is_word (pdfVariable id) = true.
Proof.
  induction id as [|c id IH]; [reflexivity|].
  cbn [pdfVariable map forallb]. rewrite sanitized_is_word. exact IH.
Qed.

Lemma pdfVariable_fixes id :
  forallb is_word id = true -> pdfVariable id = id.
Proof.
  induction id as [|c id IH]; [reflexivity|]. cbn [forallb map pdfVariable].
  intros H. apply andb_true_iff in H. destruct H as [Hc Hid].
  rewrite (sanitized_again _ Hc). f_equal. now apply IH.
Qed.

Lemma databaseColumn_chars id :
  forallb is_column_char (databaseColumn id) = true.
Proof.
  unfold databaseColumn. pose proof (pdfVariable_words id) as H.
  induction (pdfVariable id) as [|c s IH]; [reflexivity|].
  cbn [forallb] in H. apply andb_true_iff in H. destruct H as [Hc Hs].
  cbn [toLowerCase map forallb]. rewrite (lower_word _ Hc). now apply IH.
Qed.

Lemma column_chars_fixed s :
  forallb is_column_char s = true ->
  pdfVariable s = s /\ toLowerCase s = s.
Proof.
  induction s as [|c s IH]; [split; reflexivity|]. cbn [forallb].
  intros H. apply andb_true_iff in H. destruct H as [Hc Hs].
  destruct (IH Hs) as [H1 H2]. cbn [pdfVariable toLowerCase map].
  rewrite (sanitized_again _ (column_char_word _ Hc)), (lower_column_char _ Hc).
  split; f_equal; assumption.
Qed.

(** X16. The names made of a field id: the PDF variable has the length of the
    id and only letters, digits and underscores; the database column has
    only small letters, digits and underscores; both are what they are
    made of again, so that an id and its own column name, which differ
    whenever the id has a capital letter or another character, share the
    column. *)
Theorem X16_names_of_a_field_id (id : text) :
  length (pdfVariable id) = length id /\
  length (databaseColumn id) = length id /\
  forallb is_word (pdfVariable id) = true /\
  forallb is_column_char (databaseColumn id) = true /\
  pdfVariable (pdfVariable id) = pdfVariable id /\
  databaseColumn (pdfVariable id) = databaseColumn id /\
  databaseColumn (databaseColumn id) = databaseColumn id /\
  (forallb is_word id = true -> pdfVariable id = id) /\
  (forallb is_column_char id = true -> databaseColumn id = id).
Proof.
  pose proof (pdfVariable_fixes _ (pdfVariable_words id)) as Hv.
  pose proof (column_chars_fixed _ (databaseColumn_chars id)) as [Hc1 Hc2].
  repeat split.
  - unfold pdfVariable. apply length_map.
  - unfold databaseColumn, toLowerCase, pdfVariable. now rewrite !length_map.
  - apply pdfVariable_words.
  - apply databaseColumn_chars.
  - exact Hv.
  - unfold databaseColumn. now rewrite Hv.
  - unfold databaseColumn at 1. now rewrite Hc1, Hc2.
  - apply pdfVariable_fixes.
  - intros H. destruct (column_chars_fixed _ H) as [H1 H2].
    unfold databaseColumn. now rewrite H1, H2.
Qed.

(** ** The database schema *)

Lemma add_form_entries columns form :
  add_form columns form =
  set_columns columns
    (map (fun field => (databaseColumn (Field.id field), column_info form field))
         (Form.fields form)).
Proof.
  unfold add_form, set_columns. revert columns.
  induction (Form.fields form) as [|field fields IH]; intros columns;
    [reflexivity|].
  cbn [map fold_left fst snd]. apply IH.
Qed.

Lemma set_columns_app columns l1 l2 :
  set_columns columns (l1 ++ l2) = set_columns (set_columns columns l1) l2.
Proof. unfold set_columns. apply fold_left_app. Qed.

Lemma fold_add_form forms columns :
  fold_left add_form forms columns =
  set_columns columns (column_entries forms).
Proof.
  revert columns. induction forms as [|form forms IH]; intros columns;
    [reflexivity|].
  cbn [fold_left column_entries flat_map].
  now rewrite set_columns_app, IH, add_form_entries.
Qed.

Lemma columns_of_entries forms :
  (column_entries forms).*1 = columns_of forms.
Proof.
  unfold column_entries, columns_of.
  induction forms as [|form forms IH]; [reflexivity|].
  cbn [flat_map]. rewrite fmap_app, IH. f_equal.
  induction (Form.fields form) as [|field fields IHf]; [reflexivity|].
  cbn [map fmap list_fmap fst]. f_equal. exact IHf.
Qed.

Lemma set_column_proto columns info : set_column columns proto info = columns.
Proof. reflexivity. Qed.

Lemma set_column_other columns k info :
  k <> proto -> set_column columns k info = <[k := info]> columns.
Proof.
  intros H. unfold set_column.
  destruct (text_eqb k (text_of "__proto__")) eqn:E; [|reflexivity].
  apply text_eqb_eq in E. contradiction.
Qed.

(** The names that have a property are those assigned to, without
    [__proto__]. *)
Lemma dom_set_columns columns entries :
  dom (set_columns columns entries) =
  dom columns ∪ list_to_set (filter (fun c => c <> proto) (entries.*1)).
Proof.
  revert columns. induction entries as [|[k info] entries IH]; intros columns.
  - cbn. set_solver.
  - change (set_columns columns ((k, info) :: entries))
      with (set_columns (set_column columns k info) entries).
    rewrite IH. cbn [fmap list_fmap fst]. rewrite filter_cons.
    destruct (decide (k <> proto)) as [Hk|Hk].
    + rewrite (set_column_other _ _ _ Hk), dom_insert_L.
      cbn [list_to_set]. set_solver.
    + apply dec_stable in Hk. subst k. now rewrite set_column_proto.
Qed.

Lemma size_list_to_set_le (l : list text) :
  size (list_to_set l : gset text) <= length l.
Proof.
  induction l as [|c l IH]; cbn [list_to_set length].
  - rewrite size_empty. lia.
  - destruct (decide (c ∈ (list_to_set l : gset text))) as [Hin|Hout].
    + replace ({[c]} ∪ list_to_set l : gset text) with (list_to_set l : gset text)
        by set_solver.
      lia.
    + rewrite size_union by set_solver. rewrite size_singleton. lia.
Qed.

Lemma length_filter_le {A} (P : A -> Prop) `{!forall a, Decision (P a)}
    (l : list A) :
  length (filter P l) <= length l.
Proof.
  induction l as [|a l IH]; [reflexivity|]. rewrite filter_cons.
  destruct (decide (P a)); cbn [length]; lia.
Qed.

Lemma filter_all {A} (P : A -> Prop) `{!forall a, Decision (P a)} (l : list A) :
  (forall a, a ∈ l -> P a) -> filter P l = l.
Proof.
  induction l as [|a l IH]; intros Hall; [reflexivity|]. rewrite filter_cons.
  destruct (decide (P a)) as [_|Hn].
  - f_equal. apply IH. intros b Hb. apply Hall. now right.
  - destruct Hn. apply Hall. now left.
Qed.

(** X17. [handleGetDatabaseSchema] counts the forms, and as fields the column
    names that differ, without [__proto__]: never more than there are
    fields, and as many where no two fields share a column name and none has
    the name [__proto__]. *)
Theorem X17_schema_counts_distinct_columns (forms : list Form.t) :
  let answer := handleGetDatabaseSchema forms in
  totalForms answer = length forms /\
  dom (snd (schema answer)) =
    list_to_set (filter (fun c => c <> proto) (columns_of forms)) /\
  totalFields answer =
    size (list_to_set (filter (fun c => c <> proto) (columns_of forms))
          : gset text) /\
  totalFields answer <= length (columns_of forms) /\
  (NoDup (columns_of forms) -> proto ∉ columns_of forms ->
   totalFields answer = length (columns_of forms)).
Proof.
  intros answer.
  assert (dom (dynamicFormFields forms) =
          list_to_set (filter (fun c => c <> proto) (columns_of forms)))
    as Hdom.
  { unfold dynamicFormFields. rewrite fold_add_form, dom_set_columns.
    rewrite columns_of_entries, dom_empty_L. set_solver. }
  assert (size (dynamicFormFields forms) =
          size (list_to_set (filter (fun c => c <> proto) (columns_of forms))
                : gset text)) as Hsize
    by now rewrite <- size_dom, Hdom.
  split; [reflexivity|]. split; [exact Hdom|]. split; [exact Hsize|].
  cbn [answer handleGetDatabaseSchema totalFields]. rewrite Hsize. split.
  - etransitivity; [apply size_list_to_set_le|apply length_filter_le].
  - intros Hnodup Hproto. rewrite filter_all.
    + now apply size_list_to_set.
    + intros c Hc ->. contradiction.
Qed.

Lemma set_columns_lookup_last columns before after k info :
  k <> proto ->
  k ∉ after.*1 ->
  set_columns columns (before ++ (k, info) :: after) !! k = Some info.
Proof.
  intros Hk Hafter. rewrite set_columns_app.
  change (set_columns (set_columns columns before) ((k, info) :: after))
    with (set_columns (set_column (set_columns columns before) k info) after).
  rewrite (set_column_other _ _ _ Hk).
  generalize (set_columns columns before). intros m.
  assert (<[k := info]> m !! k = Some info) as H by apply lookup_insert_eq.
  revert H. generalize (<[k := info]> m). clear m.
  induction after as [|[k' info'] after IH]; intros m Hm; [exact Hm|].
  change (set_columns m ((k', info') :: after))
    with (set_columns (set_column m k' info') after).
  cbn [fmap list_fmap fst] in Hafter.
  apply not_elem_of_cons in Hafter. destruct Hafter as [Hne Hafter].
  apply IH; [exact Hafter|]. unfold set_column.
  destruct (text_eqb k' (text_of "__proto__")); [exact Hm|].
  now rewrite lookup_insert_ne by congruence.
Qed.

(** X18. Every field of every form has its column in the schema, under the name
    that [handleGetVariableMappings] shows as its [databaseColumn], unless
    the name is [__proto__], which is never a column; where fields share a
    column name, the column holds the information of the last of them. *)
Theorem X18_schema_has_the_column_of_each_field
    (forms : list Form.t) (form : Form.t) (field : Field.t) :
  form ∈ forms ->
  field ∈ Form.fields form ->
  let columns := snd (schema (handleGetDatabaseSchema forms)) in
  let column := databaseColumn (Field.id field) in
  lookup_property "databaseColumn" match mapping_of field with
                                   | DObject o => o
                                   | _ => []
                                   end = DText column /\
  (column <> proto -> is_Some (columns !! column)) /\
  columns !! proto = None /\
  (forall before after info,
     column_entries forms = before ++ (column, info) :: after ->
     column <> proto -> column ∉ after.*1 ->
     columns !! column = Some info).
Proof.
  intros Hform Hfield columns column.
  assert (dom columns =
          list_to_set (filter (fun c => c <> proto) (columns_of forms)))
    as Hdom.
  { unfold columns. cbn [handleGetDatabaseSchema schema snd].
    unfold dynamicFormFields. rewrite fold_add_form, dom_set_columns.
    rewrite columns_of_entries, dom_empty_L. set_solver. }
  split; [reflexivity|]. split; [|split].
  - intros Hne. apply elem_of_dom. rewrite Hdom.
    apply elem_of_list_to_set, list_elem_of_filter. split; [exact Hne|].
    unfold columns_of. apply list_elem_of_In, in_flat_map.
    exists form. split; [now apply list_elem_of_In|].
    apply in_map_iff. exists field. split; [reflexivity|].
    now apply list_elem_of_In.
  - apply not_elem_of_dom. rewrite Hdom.
    rewrite elem_of_list_to_set, list_elem_of_filter. now intros [Hne _].
  - intros before after info Hsplit Hne Hafter.
    unfold columns. cbn [handleGetDatabaseSchema schema snd].
    unfold dynamicFormFields. rewrite fold_add_form, Hsplit.
    now apply set_columns_lookup_last.
Qed.

Lemma X18_witness :
  let columns := snd (schema (handleGetDatabaseSchema sample_forms)) in
  is_Some (columns !! text_of "client_name") /\
  columns !! text_of "date" =
    Some (column_info clearance_form (sample_field "date" "Date" DNull)) /\
  totalFields (handleGetDatabaseSchema sample_forms) = 2.
Proof.
  assert (absa_form ∈ sample_forms) as Hform by (left).
  assert (sample_field "client-name" "Client name" DUndefined
          ∈ Form.fields absa_form) as Hfield by (left).
  destruct (X18_schema_has_the_column_of_each_field sample_forms absa_form _
              Hform Hfield) as [_ [H2 _]].
  assert (clearance_form ∈ sample_forms) as Hform' by (right; left).
  assert (sample_field "date" "Date" DNull ∈ Form.fields clearance_form)
    as Hfield' by (left).
  destruct (X18_schema_has_the_column_of_each_field sample_forms clearance_form _
              Hform' Hfield') as [_ [_ [_ H4]]].
  split; [apply H2; discriminate|]. split.
  - apply (H4 (firstn 3 (column_entries sample_forms)) []); [reflexivity| |].
    + discriminate.
    + apply not_elem_of_nil.
  - vm_compute. reflexivity.
Defined.

(** ** The variable mappings *)

Lemma findIndex_Some {A} (p : A -> bool) l i :
  findIndex p l = Some i ->
  exists a, l !! i = Some a /\ p a = true /\
            forall j b, j < i -> l !! j = Some b -> p b = false.
Proof.
  revert i. induction l as [|a l IH]; intros i; cbn [findIndex];
    [discriminate|].
  destruct (p a) eqn:Ha.
  - intros [= <-]. exists a. repeat split; [exact Ha|]. intros j b Hj. lia.
  - destruct (findIndex p l) as [i'|]; [|discriminate].
    intros [= <-]. destruct (IH i' eq_refl) as (b & Hb & Hp & Hbefore).
    exists b. repeat split; [exact Hb|exact Hp|].
    intros [|j] c Hj; cbn; [now intros [= <-]|].
    apply Hbefore. lia.
Qed.

Lemma findIndex_None {A} (p : A -> bool) l :
  findIndex p l = None -> forall a, a ∈ l -> p a = false.
Proof.
  induction l as [|a l IH]; cbn [findIndex]; intros H b Hb.
  - inversion Hb.
  - destruct (p a) eqn:Ha; [discriminate|].
    destruct (findIndex p l); [discriminate|].
    apply elem_of_cons in Hb. destruct Hb as [->|Hb]; [exact Ha|].
    now apply IH.
Qed.

Lemma find_findIndex {A} (p : A -> bool) l :
  find p l = match findIndex p l with
             | Some i => l !! i
             | None => None
             end.
Proof.
  induction l as [|a l IH]; [reflexivity|]. cbn [find findIndex].
  destruct (p a); [reflexivity|]. rewrite IH.
  now destruct (findIndex p l).
Qed.

(** The first place that satisfies [p] stays the first when the elements
    change in a way that [p] does not see. *)
Lemma findIndex_ext {A B} (p : A -> bool) (q : B -> bool) l l' :
  map p l = map q l' -> findIndex p l = findIndex q l'.
Proof.
  revert l'. induction l as [|a l IH]; intros [|b l'] H;
    try discriminate; [reflexivity|].
  cbn [map] in H. injection H as Hab Hl. cbn [findIndex].
  rewrite Hab, (IH _ Hl). reflexivity.
Qed.

Lemma map_alter_same {A B} (h : A -> B) (g : A -> A) i l :
  (forall a, h (g a) = h a) -> map h (alter g i l) = map h l.
Proof.
  intros Hg. revert i. induction l as [|a l IH]; intros [|i];
    cbn; rewrite ?Hg, ?IH; reflexivity.
Qed.

Lemma apply_mapping_keys mapping fields fields' :
  apply_mapping mapping fields = Some fields' ->
  map field_key fields' = map field_key fields.
Proof.
  unfold apply_mapping. destruct fields as [|field fields];
    [now intros [= <-]|].
  destruct (get "formFieldId" mapping); [|discriminate].
  destruct (get "autoFillFrom" mapping); [|discriminate].
  destruct (get "required" mapping); [|discriminate].
  destruct (findIndex _ _); intros [= <-]; [|reflexivity].
  now apply map_alter_same.
Qed.

Lemma apply_mappings_keys mappings fields :
  map field_key (snd (apply_mappings mappings fields)) = map field_key fields.
Proof.
  revert fields. induction mappings as [|mapping mappings IH]; intros fields;
    [reflexivity|].
  cbn [apply_mappings].
  destruct (apply_mapping mapping fields) as [fields'|] eqn:E; [|reflexivity].
  now rewrite IH, (apply_mapping_keys _ _ _ E).
Qed.

Lemma updated_refl formId form : updated formId form form.
Proof. repeat split. Qed.

Lemma Forall2_updated_refl formId forms :
  Forall2 (updated formId) forms forms.
Proof. induction forms; constructor; [apply updated_refl|assumption]. Qed.

Lemma Forall2_updated_insert formId forms i form form' :
  forms !! i = Some form ->
  Form.id form = formId ->
  updated formId form form' ->
  Forall2 (updated formId) forms (<[i := form']> forms).
Proof.
  revert i. induction forms as [|f forms IH]; intros [|i]; cbn;
    try discriminate.
  - intros [= ->] _ Hup. constructor; [exact Hup|].
    apply Forall2_updated_refl.
  - intros Hl Hid Hup. constructor; [apply updated_refl|]. now apply IH.
Qed.

(** X19. Whatever the body of the request, [handleUpdateVariableMappings]
    leaves the forms in their places, with their ids, names and templates,
    and the fields in their places, with their ids, labels and types; a
    form with another id is not changed at all; and where the answer is
    404 no form is. *)
Theorem X19_update_keeps_forms_and_fields
    (formId : text) (body : data) (forms : list Form.t) :
  let answer := fst (handleUpdateVariableMappings formId body forms) in
  let forms' := snd (handleUpdateVariableMappings formId body forms) in
  Forall2 (updated formId) forms forms' /\
  (code answer = 200 \/ code answer = 404 \/ code answer = 500) /\
  (code answer = 404 <->
   get "mappings" body <> None /\
   forall form, form ∈ forms -> Form.id form <> formId) /\
  (code answer = 404 -> forms' = forms).
Proof.
  intros answer forms'. unfold answer, forms', handleUpdateVariableMappings.
  destruct (get "mappings" body) as [mappings|]; cbn [fst snd].
  2:{ split; [apply Forall2_updated_refl|]. split; [auto|].
      split; [|discriminate]. split; [discriminate|]. now intros [H _]. }
  destruct (findIndex (fun f => text_eqb (Form.id f) formId) forms)
    as [formIndex|] eqn:Hfind.
  - destruct (findIndex_Some _ _ _ Hfind) as (form & Hform & Hid & _).
    apply text_eqb_eq in Hid.
    assert ((exists form0, form0 ∈ forms /\ Form.id form0 = formId)) as Hex.
    { exists form. split; [|exact Hid]. eapply list_elem_of_lookup_2, Hform. }
    rewrite Hform.
    destruct mappings as [| | | | | |entries|];
      try (cbn [fst snd]; split; [apply Forall2_updated_refl|];
           split; [auto|]; split; [|discriminate];
           split; [discriminate|];
           intros [_ Hno]; destruct Hex as (form0 & Hin & Hid0);
           now destruct (Hno _ Hin)).
    pose proof (apply_mappings_keys entries (Form.fields form)) as Hkeys.
    destruct (apply_mappings entries (Form.fields form)) as [finished fields].
    cbn [snd] in Hkeys.
    destruct finished; cbn [fst snd code refusal].
    + split.
      * apply (Forall2_updated_insert _ _ _ form); [exact Hform|exact Hid|].
        repeat split; [exact Hkeys|]. intros Hne. contradiction.
      * split; [auto|]. split; [|discriminate]. split; [discriminate|].
        intros [_ Hno]. destruct Hex as (form0 & Hin & Hid0).
        now destruct (Hno _ Hin).
    + split.
      * apply (Forall2_updated_insert _ _ _ form); [exact Hform|exact Hid|].
        repeat split; [exact Hkeys|]. intros Hne. contradiction.
      * split; [auto|]. split; [|discriminate]. split; [discriminate|].
        intros [_ Hno]. destruct Hex as (form0 & Hin & Hid0).
        now destruct (Hno _ Hin).
  - cbn [fst snd code refusal]. split; [apply Forall2_updated_refl|].
    split; [auto|]. split; [|reflexivity]. split; [|reflexivity].
    intros _. split; [discriminate|]. intros form Hin Hid.
    pose proof (findIndex_None _ _ Hfind _ Hin) as Hp. cbn in Hp.
    rewrite Hid in Hp.
    pose proof (proj2 (text_eqb_eq formId formId) eq_refl). congruence.
Qed.

Lemma update_keeps_forms_and_fields_example :
  let forms' :=
    snd (handleUpdateVariableMappings (text_of "form-absa-certificate")
           (DObject [("mappings"%string,
                      DList [DObject [("formFieldId"%string,
                                       DText (text_of "date"));
                                      ("required"%string, DBool false)]])])
           sample_forms) in
  map (fun form => map Field.required (Form.fields form)) forms' =
  [[DBool true; DBool true; DBool false]; [DBool true]].
Proof. vm_compute. reflexivity. Qed.

Lemma apply_mappings_app a b fields :
  fst (apply_mappings a fields) = true ->
  apply_mappings (a ++ b) fields =
  apply_mappings b (snd (apply_mappings a fields)).
Proof.
  revert fields. induction a as [|m a IH]; intros fields H; [reflexivity|].
  cbn [app apply_mappings] in *.
  destruct (apply_mapping m fields) as [fields'|]; [|discriminate].
  now apply IH.
Qed.

(** X20. A null among the mappings stops the loop at that place, where the form
    has fields: the answer is 500, the mappings before the null have been
    applied and stay, the ones after it are not looked at, and the time of
    the update is not set. *)
Theorem X20_null_mapping_stops_the_update
    (formId : text) (forms : list Form.t) (formIndex : nat) (form : Form.t)
    (applied rest : list data) :
  findIndex (fun f => text_eqb (Form.id f) formId) forms = Some formIndex ->
  forms !! formIndex = Some form ->
  Form.fields form <> [] ->
  fst (apply_mappings applied (Form.fields form)) = true ->
  handleUpdateVariableMappings formId
    (DObject [("mappings"%string, DList (applied ++ DNull :: rest))]) forms =
  (refusal 500 "Failed to update variable mappings",
   <[formIndex :=
       with_fields (snd (apply_mappings applied (Form.fields form))) form]>
     forms).
Proof.
  intros Hfind Hform Hfields Happlied.
  unfold handleUpdateVariableMappings.
  change (get "mappings"
            (DObject [("mappings"%string, DList (applied ++ DNull :: rest))]))
    with (Some (DList (applied ++ DNull :: rest))).
  rewrite Hfind, Hform.
  rewrite (apply_mappings_app _ _ _ Happlied).
  pose proof (apply_mappings_keys applied (Form.fields form)) as Hkeys.
  destruct (snd (apply_mappings applied (Form.fields form)))
    as [|field fields].
  - destruct (Form.fields form); [contradiction|discriminate].
  - reflexivity.
Qed.

Lemma X20_witness :
  let result :=
    handleUpdateVariableMappings (text_of "form-absa-certificate")
      (DObject [("mappings"%string,
                 DList ([DObject [("formFieldId"%string,
                                   DText (text_of "date"));
                                  ("required"%string, DBool false)]] ++
                        DNull ::
                        [DObject [("formFieldId"%string,
                                   DText (text_of "client-name"));
                                  ("required"%string, DBool false)]]))])
      sample_forms in
  fst result = refusal 500 "Failed to update variable mappings" /\
  map (fun form => map Field.required (Form.fields form)) (snd result) =
    [[DBool true; DBool true; DBool false]; [DBool true]] /\
  map Form.updatedAt (snd result) = map Form.updatedAt sample_forms.
Proof.
  cbv zeta.
  rewrite (X20_null_mapping_stops_the_update (text_of "form-absa-certificate")
             sample_forms 0 absa_form _ _ eq_refl eq_refl);
    [|discriminate|reflexivity].
  repeat split.
Defined.

Lemma apply_mapping_object o fields :
  apply_mapping (DObject o) fields =
  Some match findIndex
               (fun field =>
                  is_text (Field.id field) (lookup_property "formFieldId" o))
               fields with
       | Some fieldIndex =>
           alter (fun field =>
                    {| Field.id := Field.id field;
                       Field.label := Field.label field;
                       Field.required := lookup_property "required" o;
                       Field.type := Field.type field;
                       Field.autoFillFrom := lookup_property "autoFillFrom" o |})
             fieldIndex fields
       | None => fields
       end.
Proof.
  destruct fields as [|field fields]; [reflexivity|].
  unfold apply_mapping. cbn [get]. now destruct (findIndex _ _).
Qed.

Lemma findIndex_app_first {A} (p : A -> bool) done a rest :
  (forall b, b ∈ done -> p b = false) -> p a = true ->
  findIndex p (done ++ a :: rest) = Some (length done).
Proof.
  intros Hdone Ha. induction done as [|b done IH]; cbn [app findIndex length].
  - now rewrite Ha.
  - rewrite (Hdone b) by now left. rewrite IH; [reflexivity|].
    intros c Hc. apply Hdone. now right.
Qed.

Lemma alter_app_middle {A} (g : A -> A) done a rest :
  alter g (length done) (done ++ a :: rest) = done ++ g a :: rest.
Proof. induction done as [|b done IH]; cbn; [reflexivity|]. now f_equal. Qed.

Lemma mapping_of_normalized field :
  mapping_of (normalized field) = mapping_of field.
Proof.
  unfold mapping_of, normalized. cbn.
  destruct (truthy_data (Field.autoFillFrom field)) eqn:E; [now rewrite E|].
  reflexivity.
Qed.

(** The mappings that [handleGetVariableMappings] shows, given back one by
    one, leave every field as it is but for a falsy [autoFillFrom], which
    becomes null. *)
Lemma apply_fed_back done rest :
  NoDup (map Field.id (done ++ rest)) ->
  apply_mappings (map mapping_of rest) (done ++ rest) =
  (true, done ++ map normalized rest).
Proof.
  revert done. induction rest as [|field rest IH]; intros done Hnd;
    [reflexivity|].
  cbn [map apply_mappings]. unfold mapping_of at 1.
  rewrite apply_mapping_object.
  change (lookup_property "formFieldId" _) with (DText (Field.id field)).
  rewrite findIndex_app_first.
  - rewrite alter_app_middle.
    specialize (IH (done ++ [normalized field])).
    rewrite <- !app_assoc in IH. cbn [app] in IH. apply IH.
    rewrite map_app in *. exact Hnd.
  - intros b Hb. cbn [is_text].
    destruct (text_eqb (Field.id b) (Field.id field)) eqn:E; [|reflexivity].
    apply text_eqb_eq in E. rewrite map_app in Hnd.
    apply NoDup_app in Hnd. destruct Hnd as (_ & Hdis & _).
    destruct (Hdis (Field.id b)).
    + apply list_elem_of_In, in_map, list_elem_of_In, Hb.
    + rewrite E. cbn [map]. now left.
  - cbn [is_text]. now apply text_eqb_eq.
Qed.

Lemma map_insert_same {A B} (h : A -> B) i a b l :
  l !! i = Some a -> h b = h a -> map h (<[i := b]> l) = map h l.
Proof.
  revert i. induction l as [|c l IH]; intros [|i] Hl Hh; try discriminate.
  - injection Hl as ->. cbn. now rewrite Hh.
  - cbn. f_equal. now apply IH.
Qed.

(** X21. The mappings that [handleGetVariableMappings] answers with can be
    given back to [handleUpdateVariableMappings], where the fields of the
    form have ids that differ: the update answers 200, and the mappings
    that are shown afterwards are the same. *)
Theorem X21_mappings_given_back_change_no_mapping
    (formId : text) (forms : list Form.t) (form : Form.t) :
  find (fun f => text_eqb (Form.id f) formId) forms = Some form ->
  NoDup (map Field.id (Form.fields form)) ->
  let mappings := DList (map mapping_of (Form.fields form)) in
  let result :=
    handleUpdateVariableMappings formId
      (DObject [("mappings"%string, mappings)]) forms in
  payload (handleGetVariableMappings formId forms) =
    DObject [("formId", DText formId);
             ("formName", DText (Form.name form));
             ("mappings", mappings)]%string /\
  code (fst result) = 200 /\
  handleGetVariableMappings formId (snd result) =
    handleGetVariableMappings formId forms /\
  exists formIndex,
    forms !! formIndex = Some form /\
    snd result =
      <[formIndex :=
          touched (with_fields (map normalized (Form.fields form)) form)]>
        forms.
Proof.
  intros Hfound Hnd mappings result.
  split; [unfold handleGetVariableMappings; now rewrite Hfound|].
  rewrite find_findIndex in Hfound.
  destruct (findIndex (fun f => text_eqb (Form.id f) formId) forms)
    as [formIndex|] eqn:Hfind; [|discriminate].
  assert (result =
          ({| code := 200;
              payload :=
                DObject [("message", DText (text_of "Variable mappings updated successfully"));
                         ("formId", DText formId);
                         ("mappings", mappings)]%string |},
           <[formIndex :=
               touched (with_fields (map normalized (Form.fields form)) form)]>
             forms)) as ->.
  { unfold result, handleUpdateVariableMappings.
    change (get "mappings" (DObject [("mappings"%string, mappings)]))
      with (Some mappings).
    rewrite Hfind, Hfound. unfold mappings.
    pose proof (apply_fed_back [] (Form.fields form) Hnd) as Hback.
    cbn [app] in Hback. now rewrite Hback. }
  cbn [fst snd code]. split; [reflexivity|]. split; [|eauto].
  unfold handleGetVariableMappings. rewrite !find_findIndex.
  rewrite (findIndex_ext _ (fun f => text_eqb (Form.id f) formId) _ forms),
    Hfind.
  - rewrite list_lookup_insert_eq by (eapply lookup_lt_Some, Hfound).
    rewrite Hfound. cbn [Form.name Form.fields touched with_fields].
    rewrite map_map.
    now rewrite (map_ext _ _ mapping_of_normalized).
  - now apply (map_insert_same _ _ form).
Qed.

Lemma X21_witness :
  let mappings := DList (map mapping_of (Form.fields clearance_form)) in
  let result :=
    handleUpdateVariableMappings (text_of "form-clearance-certificate")
      (DObject [("mappings"%string, mappings)]) sample_forms in
  code (fst result) = 200 /\
  handleGetVariableMappings (text_of "form-clearance-certificate")
    (snd result) =
  handleGetVariableMappings (text_of "form-clearance-certificate")
    sample_forms.
Proof.
  assert (NoDup (map Field.id (Form.fields clearance_form))) as Hnd.
  { apply NoDup_singleton. }
  destruct (X21_mappings_given_back_change_no_mapping
              (text_of "form-clearance-certificate") sample_forms
              clearance_form eq_refl Hnd) as [_ [H2 [H3 _]]].
  split; [exact H2|exact H3].
Defined.

(** ** Unlinking a PDF *)

(** X22. [handleUnlinkPdfFromForm] answers 404 and changes nothing where no
    form has the id; otherwise it answers 200 with the template that the
    first form of the id had, and that form has none afterwards, every
    other form being as it was; a second call shows no old template. *)
Theorem X22_unlink_clears_the_template (formId : text) (forms : list Form.t) :
  let result := handleUnlinkPdfFromForm formId forms in
  match find (fun f => text_eqb (Form.id f) formId) forms with
  | None => result = (refusal 404 "Form not found", forms)
  | Some form =>
      fst result =
        {| code := 200;
           payload :=
             DObject [("message", DText (text_of "PDF unlinked from form successfully"));
                      ("formId", DText formId);
                      ("oldPdfTemplate",
                       match Form.pdfTemplate form with
                       | Some template => DText template
                       | None => DUndefined
                       end);
                      ("formName", DText (Form.name form))]%string |} /\
      (exists formIndex,
         forms !! formIndex = Some form /\
         snd result =
           <[formIndex := touched (with_pdfTemplate None form)]> forms) /\
      find (fun f => text_eqb (Form.id f) formId) (snd result) =
        Some (touched (with_pdfTemplate None form)) /\
      fst (handleUnlinkPdfFromForm formId (snd result)) =
        {| code := 200;
           payload :=
             DObject [("message", DText (text_of "PDF unlinked from form successfully"));
                      ("formId", DText formId);
                      ("oldPdfTemplate", DUndefined);
                      ("formName", DText (Form.name form))]%string |}
  end.
Proof.
  intros result. rewrite find_findIndex.
  unfold result, handleUnlinkPdfFromForm.
  destruct (findIndex (fun f => text_eqb (Form.id f) formId) forms)
    as [formIndex|] eqn:Hfind; [|reflexivity].
  destruct (forms !! formIndex) as [form|] eqn:Hform.
  2:{ destruct (findIndex_Some _ _ _ Hfind) as (a & Ha & _). congruence. }
  cbn [fst snd].
  assert (findIndex (fun f => text_eqb (Form.id f) formId)
            (<[formIndex := touched (with_pdfTemplate None form)]> forms) =
          Some formIndex) as Hfind'.
  { rewrite <- Hfind. apply findIndex_ext.
    now apply (map_insert_same _ _ form). }
  assert (<[formIndex := touched (with_pdfTemplate None form)]> forms
            !! formIndex = Some (touched (with_pdfTemplate None form)))
    as Hform'.
  { apply list_lookup_insert_eq. eapply lookup_lt_Some, Hform. }
  split; [reflexivity|]. split; [eauto|]. split.
  - now rewrite find_findIndex, Hfind'.
  - now rewrite Hfind', Hform'.
Qed.

(** ** The PDF files *)

Lemma filter_nil_iff {A} (p : A -> bool) l :
  List.filter p l = [] <-> forall a, a ∈ l -> p a = false.
Proof.
  induction l as [|a l IH]; cbn [List.filter].
  - split; [intros _ b Hb; inversion Hb|reflexivity].
  - destruct (p a) eqn:Ha; split.
    + discriminate.
    + intros H. specialize (H a (list_elem_of_here _ _)). congruence.
    + intros H b Hb. apply elem_of_cons in Hb.
      destruct Hb as [->|Hb]; [exact Ha|]. now apply IH.
    + intros H. apply IH. intros b Hb. apply H. now right.
Qed.

Section Files.

Context {D : Type} `{!Node D}.

Lemma handleDeletePdf_named (fileName : text) (forms : list Form.t) (d : D) :
  fileName <> [] ->
  handleDeletePdf fileName forms d =
  let filePath := join formsDir fileName in
  if negb (existsSync filePath d) then (refusal 404 "File not found", d)
  else
    let dependentForms := List.filter (uses fileName) forms in
    if 0 <? length dependentForms then
      ({| code := 400;
          payload :=
            DObject [("error", DText (text_of "Cannot delete PDF - it is being used by forms"));
                     ("dependentForms", names_of dependentForms)]%string |},
       d)
    else
      match unlinkSync filePath d with
      | (true, d') =>
          ({| code := 200;
              payload :=
                DObject [("message", DText (text_of "PDF deleted successfully"));
                         ("fileName", DText fileName)]%string |},
           d')
      | (false, d') => (refusal 500 "Failed to delete PDF", d')
      end.
Proof. destruct fileName; [contradiction|reflexivity]. Qed.

(** X23. [handleDeletePdf] never removes a file that a form has as its
    template: it then leaves the disk as it is and answers 400 with the
    names of those forms (or 404 where the file does not exist, or 400
    where the name is empty). The disk changes only by the one call of
    [unlinkSync], which is made only where the file exists and no form
    uses it. *)
Theorem X23_delete_spares_the_files_in_use
    (fileName : text) (forms : list Form.t) (d : D) :
  let result := handleDeletePdf fileName forms d in
  let filePath := join formsDir fileName in
  (snd result = d \/ snd result = snd (unlinkSync filePath d)) /\
  (code (fst result) = 200 ->
   existsSync filePath d = true /\
   (forall form, form ∈ forms -> uses fileName form = false) /\
   unlinkSync filePath d = (true, snd result)) /\
  (forall form, form ∈ forms -> uses fileName form = true ->
   snd result = d /\
   (code (fst result) = 400 \/ code (fst result) = 404) /\
   (fileName <> [] -> existsSync filePath d = true ->
    fst result =
      {| code := 400;
         payload :=
           DObject [("error", DText (text_of "Cannot delete PDF - it is being used by forms"));
                    ("dependentForms",
                     names_of (List.filter (uses fileName) forms))]%string |})).
Proof.
  intros result filePath. unfold result.
  destruct (decide (fileName = [])) as [->|Hname].
  { cbn [handleDeletePdf fst snd code refusal].
    split; [now left|]. split; [discriminate|].
    intros form _ _. split; [reflexivity|]. split; [now left|].
    intros Hne. contradiction. }
  rewrite (handleDeletePdf_named _ _ _ Hname). cbv zeta. fold filePath.
  destruct (existsSync filePath d) eqn:Hexists; cbn [negb].
  2:{ cbn [fst snd code refusal]. split; [now left|]. split; [discriminate|].
      intros form _ _. split; [reflexivity|]. split; [now right|].
      intros _ Hex. discriminate. }
  destruct (List.filter (uses fileName) forms) as [|dep deps] eqn:Hdeps.
  - cbn [length Nat.ltb Nat.leb].
    pose proof (proj1 (filter_nil_iff _ _) Hdeps) as Hnone.
    destruct (unlinkSync filePath d) as [[|] d'] eqn:Hunlink;
      cbn [fst snd code refusal].
    + split; [now right|]. split; [auto|].
      intros form Hin Huses. rewrite (Hnone _ Hin) in Huses. discriminate.
    + split; [now right|]. split; [discriminate|].
      intros form Hin Huses. rewrite (Hnone _ Hin) in Huses. discriminate.
  - cbn [length Nat.ltb Nat.leb fst snd code].
    split; [now left|]. split; [discriminate|].
    intros form _ _. split; [reflexivity|]. split; [now left|].
    intros _ _. reflexivity.
Qed.

End Files.

Lemma X23_witness :
  handleDeletePdf (text_of "ABSACertificate.pdf") sample_forms sample_disk =
  ({| code := 400;
      payload :=
        DObject [("error", DText (text_of "Cannot delete PDF - it is being used by forms"));
                 ("dependentForms",
                  DList [DText (text_of "ABSA Certificate")])]%string |},
   sample_disk).
Proof.
  assert (absa_form ∈ sample_forms) as Hin by (left).
  destruct (X23_delete_spares_the_files_in_use (text_of "ABSACertificate.pdf")
              sample_forms sample_disk) as [_ [_ H3]].
  destruct (H3 absa_form Hin eq_refl) as [Hd [_ Hr]].
  apply injective_projections; [|exact Hd].
  apply Hr; [discriminate|reflexivity].
Defined.

Section Renaming.

Context {D : Type} `{!Node D}.

Lemma truthy_text s : truthy_data (DText s) = true -> s <> [].
Proof. destruct s; [discriminate|]. intros _. discriminate. Qed.

Lemma repoint_unused oldName newName forms form :
  oldName <> newName ->
  form ∈ repoint oldName newName forms -> uses oldName form = false.
Proof.
  intros Hne Hin. unfold repoint in Hin.
  apply list_elem_of_In, in_map_iff in Hin.
  destruct Hin as (form0 & <- & _).
  destruct (uses oldName form0) eqn:E; [|exact E].
  unfold uses. cbn [touched with_pdfTemplate Form.pdfTemplate].
  destruct (text_eqb newName oldName) eqn:E'; [|reflexivity].
  apply text_eqb_eq in E'. congruence.
Qed.

Ltac refused :=
  cbn [fst snd code refusal];
  split; [discriminate|]; split; [reflexivity|];
  solve [ reflexivity | intros [Hc|Hc]; discriminate Hc ].

(** X24. [handleRenamePdf] answers 200 only where both names are strings, the
    new one ends in .pdf (in any case of the letters), the old file exists
    and the new one does not, and [renameSync] has returned; every form
    that had the old name as its template then has the new one, no form has
    the old one, and the other forms are as they were. With every other
    answer the forms are unchanged, and with 400 and 404 the disk as
    well. *)
Theorem X24_rename_repoints_the_forms
    (body : data) (forms : list Form.t) (d : D) :
  let result := handleRenamePdf body forms d in
  let answer := fst (fst result) in
  let forms' := snd (fst result) in
  let d' := snd result in
  (code answer = 200 ->
   exists oldName newName,
     get "oldName" body = Some (DText oldName) /\
     get "newName" body = Some (DText newName) /\
     oldName <> [] /\ is_pdf_name newName = true /\ oldName <> newName /\
     existsSync (join formsDir oldName) d = true /\
     existsSync (join formsDir newName) d = false /\
     renameSync (join formsDir oldName) (join formsDir newName) d =
       (true, d') /\
     forms' = repoint oldName newName forms /\
     length forms' = length forms /\
     (forall form, form ∈ forms' -> uses oldName form = false)) /\
  (code answer <> 200 -> forms' = forms) /\
  (code answer = 400 \/ code answer = 404 -> d' = d).
Proof.
  intros result answer forms' d'.
  unfold answer, forms', d', result, handleRenamePdf.
  destruct (get "oldName" body) as [oldName|] eqn:Hold; [|refused].
  destruct (get "newName" body) as [newName|] eqn:Hnew; [|refused].
  destruct (truthy_data oldName) eqn:Htold; cbn [negb orb]; [|refused].
  destruct (truthy_data newName) eqn:Htnew; cbn [negb orb]; [|refused].
  destruct newName as [| | | |new| | |]; try refused.
  destruct (is_pdf_name new) eqn:Hpdf; cbn [negb]; [|refused].
  destruct oldName as [| | | |old| | |]; try refused.
  destruct (existsSync (join formsDir old) d) eqn:Hexold; cbn [negb];
    [|refused].
  destruct (existsSync (join formsDir new) d) eqn:Hexnew; [refused|].
  destruct (renameSync (join formsDir old) (join formsDir new) d)
    as [[|] d1] eqn:Hrename; [|refused].
  cbn [fst snd code].
  split; [|split; [contradiction|intros [Hc|Hc]; discriminate Hc]].
  intros _. exists old, new.
  assert (old <> new) as Hne by (intros ->; congruence).
  repeat split; try assumption.
  - now apply truthy_text.
  - unfold repoint. apply length_map.
  - intros form. now apply repoint_unused.
Qed.

End Renaming.

Lemma X24_witness :
  let body :=
    DObject [("oldName"%string, DText (text_of "ABSACertificate.pdf"));
             ("newName"%string, DText (text_of "Absa.PDF"))] in
  let result := handleRenamePdf body sample_forms sample_disk in
  code (fst (fst result)) = 200 /\
  map Form.pdfTemplate (snd (fst result)) = [Some (text_of "Absa.PDF"); None] /\
  exists oldName newName,
    get "oldName" body = Some (DText oldName) /\
    get "newName" body = Some (DText newName) /\
    snd (fst result) = repoint oldName newName sample_forms /\
    forall form, form ∈ snd (fst result) -> uses oldName form = false.
Proof.
  intros body result.
  assert (code (fst (fst result)) = 200) as Hcode by (vm_compute; reflexivity).
  split; [exact Hcode|]. split; [vm_compute; reflexivity|].
  destruct (X24_rename_repoints_the_forms body sample_forms sample_disk)
    as [H _].
  destruct (H Hcode)
    as (oldName & newName & H1 & H2 & _ & _ & _ & _ & _ & _ & H9 & _ & H11).
  exists oldName, newName. repeat split; assumption.
Defined.

Section Linking.

Context {D : Type} `{!Node D}.

Lemma is_text_inv s d : is_text s d = true -> d = DText s.
Proof.
  destruct d; try discriminate. cbn [is_text]. intros E.
  apply text_eqb_eq in E. now subst.
Qed.

Ltac not_linked :=
  cbn [fst snd code refusal];
  split; [discriminate|]; intros _; reflexivity.

(** X25. [handleLinkPdfToForm] answers 200 only where the form id and the file
    name are strings, a form has the id and the file exists; the first
    form of the id then has the file as its template, and
    [handleDeletePdf] refuses to delete that file. With every other
    answer the forms are unchanged. *)
Theorem X25_link_protects_the_file
    (body : data) (forms : list Form.t) (d : D) :
  let result := handleLinkPdfToForm body forms d in
  (code (fst result) = 200 ->
   exists formId file formIndex form,
     get "formId" body = Some (DText formId) /\
     get "pdfFileName" body = Some (DText file) /\
     file <> [] /\
     existsSync (join formsDir file) d = true /\
     findIndex (fun f => text_eqb (Form.id f) formId) forms = Some formIndex /\
     forms !! formIndex = Some form /\
     Form.id form = formId /\
     snd result =
       <[formIndex := touched (with_pdfTemplate (Some file) form)]> forms /\
     code (fst (handleDeletePdf file (snd result) d)) = 400 /\
     snd (handleDeletePdf file (snd result) d) = d) /\
  (code (fst result) <> 200 -> snd result = forms).
Proof.
  intros result. unfold result, handleLinkPdfToForm.
  destruct (get "formId" body) as [formId|] eqn:Hid; [|not_linked].
  destruct (get "pdfFileName" body) as [pdfFileName|] eqn:Hfile;
    [|not_linked].
  destruct (truthy_data formId) eqn:Htid; cbn [negb orb]; [|not_linked].
  destruct (truthy_data pdfFileName) eqn:Htfile; cbn [negb orb];
    [|not_linked].
  destruct (findIndex (fun f => is_text (Form.id f) formId) forms)
    as [formIndex|] eqn:Hfind; [|not_linked].
  destruct (findIndex_Some _ _ _ Hfind) as (form & Hform & Hp & _).
  apply is_text_inv in Hp. subst formId. rewrite Hform.
  destruct pdfFileName as [| | | |file| | |]; try not_linked.
  destruct (existsSync (join formsDir file) d) eqn:Hexists; cbn [negb];
    [|not_linked].
  cbn [fst snd code]. split; [|contradiction].
  intros _. exists (Form.id form), file, formIndex, form.
  pose proof (truthy_text _ Htfile) as Hne.
  assert (exists dep deps,
            List.filter (uses file)
              (<[formIndex := touched (with_pdfTemplate (Some file) form)]>
                 forms) = dep :: deps) as (dep & deps & Hdeps).
  { destruct (List.filter _ _) as [|dep deps] eqn:E; [|eauto].
    pose proof (proj1 (filter_nil_iff _ _) E
                  (touched (with_pdfTemplate (Some file) form))) as Hnone.
    assert (uses file (touched (with_pdfTemplate (Some file) form)) = true)
      as Huses by (unfold uses; cbn; now apply text_eqb_eq).
    rewrite Hnone in Huses; [discriminate|].
    eapply list_elem_of_lookup_2, list_lookup_insert_eq, lookup_lt_Some, Hform. }
  repeat split; try assumption; try reflexivity.
  - rewrite (handleDeletePdf_named _ _ _ Hne). cbv zeta.
    now rewrite Hexists, Hdeps.
  - rewrite (handleDeletePdf_named _ _ _ Hne). cbv zeta.
    now rewrite Hexists, Hdeps.
Qed.

End Linking.

Lemma X25_witness :
  let body :=
    DObject [("formId"%string, DText (text_of "form-clearance-certificate"));
             ("pdfFileName"%string, DText (text_of "Scan.PDF"))] in
  let result := handleLinkPdfToForm body sample_forms sample_disk in
  code (fst result) = 200 /\
  map Form.pdfTemplate (snd result) =
    [Some (text_of "ABSACertificate.pdf"); Some (text_of "Scan.PDF")] /\
  exists file,
    get "pdfFileName" body = Some (DText file) /\
    code (fst (handleDeletePdf file (snd result) sample_disk)) = 400 /\
    snd (handleDeletePdf file (snd result) sample_disk) = sample_disk.
Proof.
  intros body result.
  assert (code (fst result) = 200) as Hcode by (vm_compute; reflexivity).
  split; [exact Hcode|]. split; [vm_compute; reflexivity|].
  destruct (X25_link_protects_the_file body sample_forms sample_disk) as [H _].
  destruct (H Hcode)
    as (formId & file & i & form & _ & H2 & _ & _ & _ & _ & _ & _ & H9 & H10).
  exists file. repeat split; assumption.
Defined.

Lemma endsWith_iff s p : endsWith s p = true <-> exists stem, s = stem ++ p.
Proof.
  unfold endsWith. split.
  - intros H. apply startsWith_shape in H. destruct H as [t Ht].
    exists (rev t). apply (f_equal (@rev ascii)) in Ht.
    now rewrite rev_involutive, rev_app_distr, rev_involutive in Ht.
  - intros [stem ->]. rewrite rev_app_distr. apply startsWith_prefix.
Qed.

(** A name counts as a PDF when it ends in .pdf, whatever the case of the
    three letters. *)
Lemma is_pdf_name_iff file :
  is_pdf_name file = true <->
  exists stem ext, file = stem ++ ext /\ toLowerCase ext = text_of ".pdf".
Proof.
  unfold is_pdf_name. rewrite endsWith_iff. unfold toLowerCase. split.
  - intros [stem' H]. apply map_eq_app in H.
    destruct H as (stem & ext & -> & _ & Hext). eauto.
  - intros (stem & ext & -> & Hext). exists (map lower stem).
    now rewrite map_app, Hext.
Qed.

Section Listing.

Context {D : Type} `{!Node D}.

Lemma pdf_entries_None forms files d file :
  file ∈ files -> statSync (join formsDir file) d = None ->
  pdf_entries forms files d = None.
Proof.
  intros Hin Hstat. induction files as [|f files IH]; [inversion Hin|].
  cbn [pdf_entries]. apply elem_of_cons in Hin. destruct Hin as [<-|Hin].
  - now rewrite Hstat.
  - destruct (statSync (join formsDir f) d) as [[size mtime]|]; [|reflexivity].
    now rewrite IH.
Qed.

Lemma pdf_entries_Some forms files d :
  (forall file, file ∈ files -> statSync (join formsDir file) d <> None) ->
  exists entries,
    pdf_entries forms files d = Some entries /\
    map (property "name") entries = map DText files /\
    map (property "mappedForms") entries =
      map (fun file => names_of (List.filter (uses file) forms)) files.
Proof.
  induction files as [|f files IH]; intros Hstat.
  - exists []. repeat split.
  - destruct IH as (entries & He & Hn & Hm).
    { intros file Hin. apply Hstat. now right. }
    cbn [pdf_entries].
    destruct (statSync (join formsDir f) d) as [[size mtime]|] eqn:E.
    + rewrite He. eexists. split; [reflexivity|].
      cbn [map]. rewrite Hn, Hm. split; reflexivity.
    + destruct (Hstat f); [now left|exact E].
Qed.

(** X26. [handleGetPdfFiles] answers 200 with the empty list where the
    directory of the forms does not exist. Otherwise it lists, in the order
    of the directory, the names that end in .pdf in any case of the
    letters, each with the names of the forms whose template is that very
    name; one listed file that [statSync] fails on makes the whole answer
    500, as does a directory that cannot be read. *)
Theorem X26_listing_of_pdf_files (forms : list Form.t) (d : D) :
  (existsSync formsDir d = false ->
   handleGetPdfFiles forms d = {| code := 200; payload := DList [] |}) /\
  (existsSync formsDir d = true -> readdirSync formsDir d = None ->
   handleGetPdfFiles forms d = refusal 500 "Failed to get PDF files") /\
  (forall files,
     existsSync formsDir d = true -> readdirSync formsDir d = Some files ->
     (forall file, file ∈ files -> is_pdf_name file = true ->
        statSync (join formsDir file) d = None ->
        handleGetPdfFiles forms d = refusal 500 "Failed to get PDF files") /\
     ((forall file, file ∈ files -> is_pdf_name file = true ->
         statSync (join formsDir file) d <> None) ->
      exists entries,
        handleGetPdfFiles forms d = {| code := 200; payload := DList entries |} /\
        map (property "name") entries =
          map DText (List.filter is_pdf_name files) /\
        map (property "mappedForms") entries =
          map (fun file => names_of (List.filter (uses file) forms))
            (List.filter is_pdf_name files))) /\
  (forall file,
     is_pdf_name file = true <->
     exists stem ext, file = stem ++ ext /\ toLowerCase ext = text_of ".pdf").
Proof.
  unfold handleGetPdfFiles. split; [|split; [|split]].
  - now intros ->.
  - now intros -> ->.
  - intros files -> ->. cbn [negb]. split.
    + intros file Hin Hpdf Hstat.
      rewrite (pdf_entries_None _ _ _ file); [reflexivity| |exact Hstat].
      apply list_elem_of_In, filter_In. split; [|exact Hpdf].
      now apply list_elem_of_In.
    + intros Hstat.
      destruct (pdf_entries_Some forms (List.filter is_pdf_name files) d)
        as (entries & He & Hn & Hm).
      { intros file Hin. apply list_elem_of_In, filter_In in Hin.
        destruct Hin as [Hin Hpdf]. apply Hstat; [|exact Hpdf].
        now apply list_elem_of_In. }
      exists entries. now rewrite He.
  - apply is_pdf_name_iff.
Qed.

End Listing.

Lemma X26_witness :
  exists entries,
    handleGetPdfFiles sample_forms sample_disk =
      {| code := 200; payload := DList entries |} /\
    map (property "name") entries =
      [DText (text_of "ABSACertificate.pdf"); DText (text_of "Scan.PDF")] /\
    map (property "mappedForms") entries =
      [DList [DText (text_of "ABSA Certificate")]; DList []].
Proof.
  destruct (X26_listing_of_pdf_files sample_forms sample_disk) as [_ [_ [H _]]].
  destruct (H (names_under sample_dir sample_disk) eq_refl eq_refl)
    as [_ H2].
  destruct H2 as (entries & H1 & H2 & H3).
  - intros file Hin Hpdf.
    repeat (apply elem_of_cons in Hin; destruct Hin as [->|Hin];
            [vm_compute; discriminate|]).
    inversion Hin.
  - exists entries. split; [exact H1|]. split; [exact H2|exact H3].
Defined.

(** ** The chunks of the build *)

Lemma includes_iff s p :
  includes s p = true <-> exists before rest, s = before ++ p ++ rest.
Proof.
  split.
  - induction s as [|c s IH]; cbn [includes]; intros H;
      apply orb_true_iff in H; destruct H as [H|H]; try discriminate.
    + apply startsWith_shape in H. destruct H as [t ->]. now exists [], t.
    + apply startsWith_shape in H. destruct H as [t ->]. now exists [], t.
    + destruct (IH H) as (before & rest & ->). now exists (c :: before), rest.
  - intros (before & rest & ->).
    induction before as [|c before IH]; cbn [app].
    + destruct (p ++ rest) eqn:E; cbn [includes]; rewrite <- E;
        now rewrite startsWith_prefix.
    + cbn [includes]. rewrite IH. apply orb_true_r.
Qed.

Lemma includes_part s before p rest :
  includes s (before ++ p ++ rest) = true -> includes s p = true.
Proof.
  rewrite !includes_iff. intros (a & b & ->).
  exists (a ++ before), (rest ++ b). now rewrite <- !app_assoc.
Qed.

(** X27. What is not under node_modules gets no chunk, and what is gets one.
    Under node_modules the test for react comes first and looks at the
    whole path: the packages of Radix, whose names start with
    [@radix-ui/react-], go to vendor-react, and what goes to vendor-radix
    has no react in its path. *)
Theorem X27_chunk_of_a_module (id : text) :
  (manualChunks id = None <-> includes id (text_of "node_modules") = false) /\
  (includes id (text_of "node_modules") = true ->
   includes id (text_of "@radix-ui/react-") = true ->
   manualChunks id = Some "vendor-react"%string) /\
  (manualChunks id = Some "vendor-radix"%string ->
   includes id (text_of "@radix-ui") = true /\
   includes id (text_of "react") = false /\
   includes id (text_of "@radix-ui/react-") = false).
Proof.
  unfold manualChunks. split; [|split].
  - destruct (includes id (text_of "node_modules")); [|now split].
    split; [|discriminate].
    destruct (includes id (text_of "react")); [discriminate|].
    destruct (_ || _); [discriminate|].
    destruct (includes id (text_of "@radix-ui")); [discriminate|].
    destruct (includes id (text_of "recharts")); discriminate.
  - intros -> H.
    now rewrite (includes_part id (text_of "@radix-ui/") (text_of "react")
                   (text_of "-") H).
  - destruct (includes id (text_of "node_modules")); [|discriminate].
    destruct (includes id (text_of "react")) eqn:Hreact; [discriminate|].
    destruct (_ || _); [discriminate|].
    destruct (includes id (text_of "@radix-ui")); [|
      destruct (includes id (text_of "recharts")); discriminate].
    intros _. split; [reflexivity|]. split; [reflexivity|].
    destruct (includes id (text_of "@radix-ui/react-")) eqn:E; [|reflexivity].
    rewrite (includes_part id (text_of "@radix-ui/") (text_of "react")
               (text_of "-") E) in Hreact.
    discriminate.
Qed.

(** ** Saves one after the other *)

(** X28. The writer puts no backslash into the text: however many records are
    written, under keys without pattern syntax, a text that had no
    backslash has none, and the reader, whose field patterns ask for one,
    takes no record out of it, for any key. *)
Theorem X28_no_write_makes_the_text_readable
    (writes : list (string * SignaturePosition)) (fileContent : text)
    (formType : string) :
  has backslash fileContent = false ->
  Forall (fun write => plain_key (fst write) = true) writes ->
  has backslash (written writes fileContent) = false /\
  extractPosition (written writes fileContent) formType = None.
Proof.
  intros Hb Hkeys.
  assert (has backslash (written writes fileContent) = false) as H.
  { unfold written. revert fileContent Hb.
    induction Hkeys as [|[k p] writes Hk _ IH]; intros fileContent Hb;
      [exact Hb|].
    cbn [fold_left fst snd]. apply IH.
    now apply updatedFileContent_lacks_backslash. }
  split; [exact H|]. now apply extractPosition_without_backslash.
Qed.

Lemma X28_witness :
  let writes := [("absa-form"%string, moved_record);
                 ("new-form"%string, new_form_record);
                 ("absa-form"%string, absa_record)] in
  has backslash (written writes config_source) = false /\
  extractPosition (written writes config_source) "absa-form" = None.
Proof.
  apply X28_no_write_makes_the_text_readable; [reflexivity|].
  repeat constructor.
Defined.

(** ** Writing the same record again *)

Lemma strip_within q h A B :
  length q <= length h ->
  strip q (h ++ A) = None -> strip q (h ++ B) = None.
Proof.
  revert h. induction q as [|d q IH]; intros h Hl; [discriminate|].
  destruct h as [|e h]; cbn [length] in Hl; [lia|].
  cbn [app strip]. destruct (Ascii.eqb d e); [|reflexivity].
  apply IH. lia.
Qed.

Lemma startsWith_within q h A B :
  length q <= length h ->
  startsWith (h ++ A) q = true -> startsWith (h ++ B) q = true.
Proof.
  revert h. induction q as [|d q IH]; intros h Hl.
  - intros _. apply startsWith_nil.
  - destruct h as [|e h]; cbn [length] in Hl; [lia|].
    cbn [app startsWith]. destruct (Ascii.eqb d e); [|discriminate].
    cbn [andb]. apply IH. lia.
Qed.

Lemma strip_prefix_of q h W s1 :
  length q <= length h ->
  strip q (h ++ W) = Some s1 -> exists z, h = q ++ z.
Proof.
  revert h. induction q as [|d q IH]; intros h Hl H; [now exists h|].
  destruct h as [|e h]; cbn [length] in Hl; [lia|].
  cbn [app strip] in H. destruct (Ascii.eqb d e) eqn:E; [|discriminate].
  apply Ascii.eqb_eq in E. subst e.
  destruct (IH h ltac:(lia) H) as [z ->]. now exists z.
Qed.

(** A header found in [u ++ Y] starts within [u] and ends within [u], or
    ends within [Y]. *)
Lemma strip_app_cases h u Y s1 :
  strip h (u ++ Y) = Some s1 ->
  (exists u1, strip h u = Some u1) \/
  (exists h2, h = u ++ h2 /\ h2 <> [] /\ strip h2 Y = Some s1).
Proof.
  revert h. induction u as [|c u IH]; intros h H.
  - destruct h as [|d h]; [left; now exists []|].
    right. exists (d :: h). repeat split; [discriminate|exact H].
  - destruct h as [|d h]; [left; now exists (c :: u)|].
    cbn [app strip] in *. destruct (Ascii.eqb d c) eqn:E; [|discriminate].
    apply Ascii.eqb_eq in E. subst d.
    destruct (IH _ H) as [[u1 Hu]|(h2 & -> & Hne & Hs)].
    + left. now exists u1.
    + right. exists h2. now repeat split.
Qed.

Lemma body_at_None s : body_at s = None -> has "}"%char s = false.
Proof.
  induction s as [|c s IH]; [reflexivity|]. cbn [body_at].
  destruct (Ascii.eqb "}" c) eqn:E; [discriminate|].
  destruct (body_at s) as [[b r]|]; [discriminate|].
  intros _. rewrite has_cons, E. now apply IH.
Qed.

Lemma includes_skipn s p n :
  includes s p = false -> includes (skipn n s) p = false.
Proof.
  revert s. induction n as [|n IH]; intros s H; [exact H|].
  destruct s as [|c s]; [exact H|]. cbn [skipn]. apply IH.
  now apply includes_cons in H.
Qed.

(** An occurrence that ends in a double quote lies in the text before an
    addition without double quotes. *)
Lemma includes_before_addition s X q :
  has dquote X = false ->
  includes (s ++ X) (q ++ [dquote]) = true ->
  includes s (q ++ [dquote]) = true.
Proof.
  intros HX H. apply includes_iff in H. destruct H as (a & b & H).
  rewrite <- app_assoc in H. cbn [app] in H.
  rewrite app_assoc in H. apply app_eq_app in H.
  destruct H as [l [[H1 H2]|[H1 H2]]].
  - destruct l as [|d l].
    + cbn [app] in H2. rewrite <- H2, has_cons, Ascii.eqb_refl in HX.
      discriminate.
    + cbn [app] in H2. injection H2 as <- _. apply includes_iff.
      exists a, l. rewrite H1, <- !app_assoc. reflexivity.
  - rewrite H2, has_app, has_cons, Ascii.eqb_refl, orb_true_r in HX.
    discriminate.
Qed.

Section Again.

Variable formType : string.
Hypothesis Hkey : simple_key formType = true.
Variable position : SignaturePosition.

Lemma replace_fuel_step n s :
  replace_fuel (S n) (block_pattern true formType)
    (newPositionString formType position) s =
  match block_at formType s with
  | Some (_, _, rest) =>
      newPositionString formType position ++
      replace_fuel n (block_pattern true formType)
        (newPositionString formType position) rest
  | None =>
      match s with
      | [] => []
      | c :: t =>
          c :: replace_fuel n (block_pattern true formType)
                 (newPositionString formType position) t
      end
  end.
Proof.
  cbn [replace_fuel]. rewrite (exec_at_block _ _ _ Hkey).
  destruct (block_at formType s) as [[[ws body] rest]|];
    cbn [found_of whole after]; [|reflexivity].
  unfold block_text. rewrite header_eq. reflexivity.
Qed.

Lemma block_rest_shorter s ws body rest :
  block_at formType s = Some (ws, body, rest) -> length rest < length s.
Proof.
  intros H. apply block_at_shape in H. destruct H as [-> _].
  rewrite length_app. unfold block_text. rewrite header_eq.
  cbn [length app]. lia.
Qed.

Lemma replace_fuel_enough n m s :
  length s < n -> length s < m ->
  replace_fuel n (block_pattern true formType)
    (newPositionString formType position) s =
  replace_fuel m (block_pattern true formType)
    (newPositionString formType position) s.
Proof.
  revert m s. induction n as [|n IH]; intros m s Hn Hm; [lia|].
  destruct m as [|m]; [lia|]. rewrite !replace_fuel_step.
  destruct (block_at formType s) as [[[ws body] rest]|] eqn:E.
  - f_equal. pose proof (block_rest_shorter _ _ _ _ E). apply IH; lia.
  - destruct s as [|c t]; [reflexivity|]. f_equal.
    cbn [length] in *. apply IH; lia.
Qed.

Lemma rewrite_blocks_nil : rewrite_blocks formType position [] = [].
Proof. reflexivity. Qed.

Lemma rewrite_blocks_block s ws body rest :
  block_at formType s = Some (ws, body, rest) ->
  rewrite_blocks formType position s =
  newPositionString formType position ++ rewrite_blocks formType position rest.
Proof.
  intros H. unfold rewrite_blocks, replace. rewrite replace_fuel_step, H.
  f_equal. pose proof (block_rest_shorter _ _ _ _ H).
  apply replace_fuel_enough; lia.
Qed.

Lemma rewrite_blocks_keep c t :
  block_at formType (c :: t) = None ->
  rewrite_blocks formType position (c :: t) =
  c :: rewrite_blocks formType position t.
Proof.
  intros H. unfold rewrite_blocks, replace. now rewrite replace_fuel_step, H.
Qed.

(** The rendered record is a block, and is read as one. *)
Lemma block_at_new Z :
  block_at formType (newPositionString formType position ++ Z) =
  Some ([" "%char], block_body position, Z).
Proof.
  rewrite newPositionString_block_text.
  apply block_at_block_text; [reflexivity|apply block_body_lacks_brace].
Qed.

Lemma new_starts_with_header :
  exists W, newPositionString formType position = header formType ++ W.
Proof.
  rewrite newPositionString_block_text. unfold block_text. eauto.
Qed.

(** No header starts inside a header. *)
Lemma header_inside_header p u X :
  header formType = p ++ u -> p <> [] -> u <> [] ->
  strip (header formType) (u ++ X) = None.
Proof.
  intros Hsplit Hp Hu.
  pose proof (simple_key_chars dquote formType eq_refl Hkey) as Hkq.
  pose proof (simple_key_chars ":"%char formType eq_refl Hkey) as Hkc.
  rewrite header_eq in *.
  destruct p as [|p0 p]; [contradiction|]. cbn [app] in Hsplit.
  injection Hsplit as _ Hsplit.
  destruct (suffix_cases _ _ _ Hsplit) as [E|[E|[k2 [E Hk2]]]].
  - contradiction.
  - subst u. reflexivity.
  - subst u. specialize (Hk2 Hkq). destruct k2 as [|a k2].
    + cbn [app strip]. rewrite Ascii.eqb_refl.
      destruct (text_of formType) as [|k0 k]; [reflexivity|].
      cbn [app strip]. rewrite has_cons in Hkc.
      apply orb_false_elim in Hkc. destruct Hkc as [Hk0 _].
      rewrite Ascii.eqb_sym in Hk0. now rewrite Hk0.
    + rewrite has_cons in Hk2. apply orb_false_elim in Hk2.
      destruct Hk2 as [Ha _]. cbn [app strip]. now rewrite Ha.
Qed.

Lemma block_at_needs_brace s :
  has "}"%char s = false -> block_at formType s = None.
Proof.
  intros H. destruct (block_at formType s) as [[[ws body] rest]|] eqn:E;
    [|reflexivity].
  apply block_at_shape in E. destruct E as [-> _].
  unfold block_text in H.
  rewrite !has_app, has_cons, !has_app, has_cons, Ascii.eqb_refl in H.
  rewrite !orb_true_r in H. discriminate.
Qed.

Lemma block_at_needs_key s :
  startsWith s (quoted formType) = false -> block_at formType s = None.
Proof.
  intros H. unfold block_at, header.
  destruct (strip (quoted formType ++ [":"%char]) s) eqn:E; [|reflexivity].
  apply strip_startsWith in E. congruence.
Qed.

Lemma rewrite_blocks_without_brace s :
  has "}"%char s = false -> rewrite_blocks formType position s = s.
Proof.
  induction s as [|c s IH]; intros H; [reflexivity|].
  rewrite rewrite_blocks_keep by now apply block_at_needs_brace.
  rewrite has_cons in H. apply orb_false_elim in H. f_equal. now apply IH.
Qed.

Lemma rewrite_blocks_without_key s :
  includes s (quoted formType) = false -> rewrite_blocks formType position s = s.
Proof.
  induction s as [|c s IH]; intros H; [reflexivity|].
  apply includes_cons in H. destruct H as [H1 H2].
  rewrite rewrite_blocks_keep by now apply block_at_needs_key.
  f_equal. now apply IH.
Qed.

Lemma rewrite_blocks_spaces ws X :
  forallb is_space ws = true ->
  rewrite_blocks formType position (ws ++ X) =
  ws ++ rewrite_blocks formType position X.
Proof.
  induction ws as [|c ws IH]; intros H; [reflexivity|].
  cbn [forallb] in H. apply andb_prop in H. destruct H as [Hc Hw].
  cbn [app]. rewrite rewrite_blocks_keep.
  - f_equal. now apply IH.
  - apply block_at_needs_dquote.
    destruct (Ascii.eqb dquote c) eqn:E; [|reflexivity].
    apply Ascii.eqb_eq in E. subst c. discriminate.
Qed.

(** The characters before a place where no block starts are kept. *)
Lemma rewrite_blocks_kept pre Z :
  (forall a u, pre = a ++ u -> u <> [] -> block_at formType (u ++ Z) = None) ->
  rewrite_blocks formType position (pre ++ Z) =
  pre ++ rewrite_blocks formType position Z.
Proof.
  induction pre as [|c pre IH]; intros H; [reflexivity|].
  cbn [app]. rewrite rewrite_blocks_keep.
  - f_equal. apply IH. intros a u -> Hu. now apply (H (c :: a) u).
  - apply (H [] (c :: pre)); [reflexivity|discriminate].
Qed.

Lemma rewrite_blocks_header X :
  block_at formType (header formType ++ X) = None ->
  rewrite_blocks formType position (header formType ++ X) =
  header formType ++ rewrite_blocks formType position X.
Proof.
  intros H. apply rewrite_blocks_kept. intros a u Hsplit Hu.
  destruct a as [|a0 a].
  - cbn [app] in Hsplit. now subst u.
  - unfold block_at.
    rewrite (header_inside_header (a0 :: a) u X Hsplit); [reflexivity| |exact Hu].
    discriminate.
Qed.

Lemma strip_rewritten q s :
  length q <= length (header formType) ->
  strip q s = None -> strip q (rewrite_blocks formType position s) = None.
Proof.
  revert s. induction q as [|d q IH]; intros s Hl H; [discriminate|].
  destruct (block_at formType s) as [[[ws body] rest]|] eqn:E.
  - rewrite (rewrite_blocks_block _ _ _ _ E).
    apply block_at_shape in E. destruct E as [-> _].
    destruct new_starts_with_header as [W ->].
    unfold block_text in H. rewrite <- !app_assoc in *.
    now apply (strip_within _ _ _ _ Hl H).
  - destruct s as [|c t]; [reflexivity|].
    rewrite (rewrite_blocks_keep _ _ E). cbn [strip] in *.
    destruct (Ascii.eqb d c); [|reflexivity].
    apply IH; [cbn [length] in Hl; lia|exact H].
Qed.

Lemma startsWith_rewritten q s :
  length q <= length (header formType) ->
  startsWith s q = true ->
  startsWith (rewrite_blocks formType position s) q = true.
Proof.
  revert s. induction q as [|d q IH]; intros s Hl H; [apply startsWith_nil|].
  destruct (block_at formType s) as [[[ws body] rest]|] eqn:E.
  - rewrite (rewrite_blocks_block _ _ _ _ E).
    apply block_at_shape in E. destruct E as [-> _].
    destruct new_starts_with_header as [W ->].
    unfold block_text in H. rewrite <- !app_assoc in *.
    now apply (startsWith_within _ _ _ _ Hl H).
  - destruct s as [|c t]; [discriminate|].
    rewrite (rewrite_blocks_keep _ _ E). cbn [startsWith] in *.
    destruct (Ascii.eqb d c); [|discriminate]. cbn [andb] in *.
    apply IH; [cbn [length] in Hl; lia|exact H].
Qed.

Lemma open_at_rewritten s :
  open_at s = None -> open_at (rewrite_blocks formType position s) = None.
Proof.
  induction s as [|c t IH]; intros H; [reflexivity|].
  cbn [open_at] in H. destruct (is_space c) eqn:Es.
  - change (c :: t) with ([c] ++ t).
    rewrite (rewrite_blocks_spaces [c] t) by (cbn; now rewrite Es).
    cbn [app open_at]. rewrite Es.
    destruct (open_at t) as [[[w b] r]|]; [discriminate|].
    now rewrite IH.
  - destruct (Ascii.eqb "{" c) eqn:Eb.
    + destruct (body_at t) as [[b r]|] eqn:Et; [discriminate|].
      apply body_at_None in Et.
      rewrite rewrite_blocks_without_brace.
      * cbn [open_at]. rewrite Es, Eb.
        destruct (body_at t) as [[b r]|] eqn:Et'; [|reflexivity].
        apply body_at_shape in Et'. destruct Et' as [-> _].
        rewrite has_app, has_cons, Ascii.eqb_refl, orb_true_r in Et.
        discriminate.
      * rewrite has_cons, Et. apply Ascii.eqb_eq in Eb. now subst c.
    + destruct (block_at formType (c :: t)) as [[[ws body] rest]|] eqn:E.
      * rewrite (rewrite_blocks_block _ _ _ _ E).
        destruct new_starts_with_header as [W ->]. rewrite header_eq.
        reflexivity.
      * rewrite (rewrite_blocks_keep _ _ E). cbn [open_at].
        now rewrite Es, Eb.
Qed.

(** Where no block starts, none starts after the blocks further on have
    been replaced. *)
Lemma block_at_rewritten_None s :
  block_at formType s = None ->
  block_at formType (rewrite_blocks formType position s) = None.
Proof.
  intros H. pose proof H as H0. unfold block_at in H.
  destruct (strip (header formType) s) as [s1|] eqn:Es.
  - apply strip_shape in Es. subst s.
    rewrite (rewrite_blocks_header _ H0). unfold block_at.
    rewrite strip_app. now apply open_at_rewritten.
  - unfold block_at. now rewrite (strip_rewritten _ _ (Nat.le_refl _) Es).
Qed.

Lemma rewrite_blocks_again_bounded n s :
  length s <= n ->
  rewrite_blocks formType position (rewrite_blocks formType position s) =
  rewrite_blocks formType position s.
Proof.
  revert s. induction n as [|n IH]; intros s Hn.
  - destruct s; [reflexivity|cbn [length] in Hn; lia].
  - destruct (block_at formType s) as [[[ws body] rest]|] eqn:E.
    + rewrite (rewrite_blocks_block _ _ _ _ E).
      rewrite (rewrite_blocks_block _ _ _ _ (block_at_new _)).
      f_equal. apply IH. pose proof (block_rest_shorter _ _ _ _ E). lia.
    + destruct s as [|c t]; [reflexivity|].
      pose proof (block_at_rewritten_None _ E) as E'.
      rewrite (rewrite_blocks_keep _ _ E) in *.
      rewrite (rewrite_blocks_keep _ _ E'). f_equal.
      apply IH. cbn [length] in Hn. lia.
Qed.

Lemma includes_rewritten s :
  includes s (quoted formType) = true ->
  includes (rewrite_blocks formType position s) (quoted formType) = true.
Proof.
  induction s as [|c t IH]; intros H; [discriminate|].
  destruct (block_at formType (c :: t)) as [[[ws body] rest]|] eqn:E.
  - rewrite (rewrite_blocks_block _ _ _ _ E).
    rewrite newPositionString_shape, <- !app_assoc.
    apply includes_iff. now exists [], (text_of ": {" ++ block_body position ++
                                       ["}"%char] ++
                                       rewrite_blocks formType position rest).
  - cbn [includes] in H. apply orb_true_iff in H.
    assert (startsWith (rewrite_blocks formType position (c :: t))
              (quoted formType) = true \/
            includes (rewrite_blocks formType position t) (quoted formType)
            = true) as Hor.
    { destruct H as [H|H]; [left|right; now apply IH].
      apply startsWith_rewritten; [|exact H].
      unfold header. rewrite length_app. lia. }
    rewrite (rewrite_blocks_keep _ _ E) in *. cbn [includes].
    apply orb_true_iff. exact Hor.
Qed.

End Again.

Lemma inserted_block_stays formType position before comma after :
  simple_key formType = true ->
  includes (before ++ after) (quoted formType) = false ->
  comma = [] \/ comma = text_of "," ->
  rewrite_blocks formType position
    (before ++ comma ++ newline :: text_of "  " ++
     newPositionString formType position ++ newline :: after) =
  before ++ comma ++ newline :: text_of "  " ++
  newPositionString formType position ++ newline :: after.
Proof.
  intros Hkey Hinc Hcomma.
  set (new := newPositionString formType position).
  set (pre := before ++ comma ++ newline :: text_of "  ").
  assert (before ++ comma ++ newline :: text_of "  " ++ new ++ newline :: after
          = pre ++ new ++ newline :: after) as ->.
  { unfold pre. repeat (rewrite <- ?app_assoc; cbn [app]). reflexivity. }
  assert (includes pre (quoted formType) = false) as Hpre.
  { destruct (includes pre (quoted formType)) eqn:E; [|reflexivity].
    unfold pre, quoted in E.
    change (dquote :: text_of formType ++ [dquote])
      with ((dquote :: text_of formType) ++ [dquote]) in E.
    apply includes_before_addition in E.
    - apply includes_iff in E. destruct E as (a & b & E).
      assert (includes (before ++ after) (quoted formType) = true) as Hin.
      { apply includes_iff. exists a, (b ++ after).
        unfold quoted. rewrite E.
        repeat (rewrite <- ?app_assoc; cbn [app]). reflexivity. }
      congruence.
    - destruct Hcomma as [-> | ->]; reflexivity. }
  assert (includes (newline :: after) (quoted formType) = false) as Hpost.
  { cbn [includes]. apply orb_false_intro; [reflexivity|].
    assert (after = skipn (length before) (before ++ after)) as ->
      by now rewrite skipn_app, skipn_all, Nat.sub_diag.
    now apply includes_skipn. }
  rewrite (rewrite_blocks_kept formType Hkey position pre).
  - f_equal. unfold new.
    rewrite (rewrite_blocks_block _ Hkey _ _ _ _ _ (block_at_new _ _ _)).
    f_equal. now apply rewrite_blocks_without_key.
  - intros a u Hsplit Hu. unfold block_at.
    destruct (strip (header formType) (u ++ new ++ newline :: after))
      as [s1|] eqn:E; [|reflexivity].
    exfalso. apply strip_app_cases in E.
    destruct E as [[u1 Hu1]|(h2 & Hh & Hh2 & Hs)].
    + assert (includes pre (quoted formType) = true) as Hin; [|congruence].
      apply strip_shape in Hu1. apply includes_iff.
      exists a, ([":"%char] ++ u1).
      rewrite Hsplit, Hu1. unfold header. now rewrite <- !app_assoc.
    + destruct (new_starts_with_header formType position) as [W HW].
      fold new in HW. rewrite HW, <- app_assoc in Hs.
      assert (length h2 <= length (header formType)) as Hl
        by (rewrite Hh, length_app; lia).
      destruct (strip_prefix_of _ _ _ _ Hl Hs) as [z Hz].
      pose proof (header_inside_header formType Hkey u h2 z Hh Hu Hh2) as Hno.
      rewrite <- Hz in Hno.
      pose proof (strip_app (header formType) []) as Hyes.
      rewrite app_nil_r in Hyes. congruence.
Qed.

(** X29. The writer changes the text once: for a key made of ordinary
    characters, the text that a write has made is what a second write of
    the same record makes of it, whether the first write replaced blocks,
    put a block in or found no place for one; so the file after two runs
    of the writer is the file after one. *)
Theorem X29_writing_again_changes_nothing
    (formType : string) (position : SignaturePosition) (fileContent : text)
    (st : store) :
  simple_key formType = true ->
  updatedFileContent (updatedFileContent fileContent formType position)
    formType position =
  updatedFileContent fileContent formType position /\
  (file st = Some fileContent -> writable st = true ->
   let once := snd (updateSignaturePositionInSourceCode formType position st) in
   let twice :=
     snd (updateSignaturePositionInSourceCode formType position once) in
   file once = Some (updatedFileContent fileContent formType position) /\
   file twice = file once).
Proof.
  intros Hkey.
  assert (updatedFileContent (updatedFileContent fileContent formType position)
            formType position =
          updatedFileContent fileContent formType position) as Hagain.
  { unfold updatedFileContent at 2 3.
    destruct (includes fileContent (quoted formType)) eqn:Hinc.
    - fold (rewrite_blocks formType position fileContent).
      unfold updatedFileContent.
      rewrite (includes_rewritten _ Hkey _ _ Hinc).
      fold (rewrite_blocks formType position
              (rewrite_blocks formType position fileContent)).
      now apply (rewrite_blocks_again_bounded _ Hkey _ (length fileContent)).
    - destruct (lastIndexOf fileContent (text_of "};")) as [i|] eqn:Hlast.
      + assert (forall comma, comma = [] \/ comma = text_of "," ->
                  updatedFileContent
                    (firstn i fileContent ++ comma ++ newline :: text_of "  " ++
                     newPositionString formType position ++
                     newline :: skipn i fileContent) formType position =
                  firstn i fileContent ++ comma ++ newline :: text_of "  " ++
                  newPositionString formType position ++
                  newline :: skipn i fileContent) as Hgen.
        { intros comma Hcomma.
          assert (includes (firstn i fileContent ++ skipn i fileContent)
                    (quoted formType) = false) as Hba
            by now rewrite firstn_skipn.
          pose proof (inserted_block_stays formType position _ comma _
                        Hkey Hba Hcomma) as Hstay.
          unfold updatedFileContent.
          assert (includes
                    (firstn i fileContent ++ comma ++ newline :: text_of "  " ++
                     newPositionString formType position ++
                     newline :: skipn i fileContent)
                    (quoted formType) = true) as ->; [|exact Hstay].
          apply includes_iff.
          exists (firstn i fileContent ++ comma ++ newline :: text_of "  "),
                 (text_of ": {" ++ block_body position ++ ["}"%char] ++
                  newline :: skipn i fileContent).
          rewrite newPositionString_shape.
          repeat (rewrite <- ?app_assoc; cbn [app]). reflexivity. }
        destruct (negb _ && negb _); apply Hgen; auto.
      + unfold updatedFileContent. now rewrite Hinc, Hlast. }
  split; [exact Hagain|].
  intros Hf Hw once twice. unfold twice, once.
  rewrite (writer_writable _ _ _ _ Hf Hw). cbn [snd file].
  split; [reflexivity|].
  erewrite writer_writable by reflexivity. cbn [snd file].
  now rewrite Hagain.
Qed.

Lemma X29_witness :
  updatedFileContent (updatedFileContent config_source "new-form" moved_record)
    "new-form" moved_record =
  updatedFileContent config_source "new-form" moved_record /\
  includes (updatedFileContent config_source "new-form" moved_record)
    (newPositionString "new-form" moved_record) = true.
Proof.
  destruct (X29_writing_again_changes_nothing "new-form" moved_record
              config_source initial_store eq_refl) as [H _].
  split; [exact H|vm_compute; reflexivity].
Defined.

(** ** One save after another *)


